(** * LiteDB-Go: a file-backed JSON document store

    A shallow embedding of [main.go] (the [Driver] with its operations [New],
    [Write], [Read], [ReadAll], [Delete], [getOrCreateMutex], the helper
    [stat] and the program [main]) together with a model of the parts of the
    Go standard library the
    driver calls: [path/filepath] ([Clean], [Join]), [os] and [io/ioutil]
    (a file tree with permission bits), [sync.Mutex] and [encoding/json]
    (an abstract codec).

    Layout of the file:
    - [Path]: strings.Split / strings.Join on the separator, filepath.Clean,
      filepath.Join;
    - Go [error] values;
    - [FS]: the file tree and the os / ioutil calls, as actions on a world
      that also records the calls in a trace;
    - [LiteDB]: the driver, translated function by function;
    - [Program]: the records [Address] and [User] and [func main];
    - [Registry]: callers of [getOrCreateMutex] interleaved step by step;
    - the error classes of the specification, and sample worlds;
    - facts about paths, the tree, the driver and the registry, with the
      theorems C1 to C10 among them, and the theorems on sample worlds. *)

From Stdlib Require Import NArith Ascii Strings.Byte.
From stdpp Require Import base option strings list sorting gmap.

Set Default Proof Using "Type".

(* ===================================================================== *)
(** * Paths: strings.Split, strings.Join, filepath.Clean, filepath.Join   *)
(* ===================================================================== *)

Module Path.

(** The path separator of the platform ([os.PathSeparator] on Unix). *)
Definition Separator : ascii := "/"%char.

Definition IsPathSeparator (a : ascii) : bool := Ascii.eqb a Separator.

(** [strings.Split(s, "/")]: the elements between separators; never empty. *)
Fixpoint split (s : string) : list string :=
  match s with
  | EmptyString => [""]
  | String a s' =>
      if IsPathSeparator a then "" :: split s'
      else match split s' with
           | x :: xs => String a x :: xs
           | [] => [String a ""]
           end
  end.

(** [strings.Join(elems, "/")]. *)
Fixpoint join (xs : list string) : string :=
  match xs with
  | [] => ""
  | [x] => x
  | x :: xs' => x +:+ "/" +:+ join xs'
  end.

(** A string without separator. *)
Fixpoint no_slash (s : string) : bool :=
  match s with
  | EmptyString => true
  | String a s' => negb (IsPathSeparator a) && no_slash s'
  end.

(** A real path element: not empty, not [.], not [..], no separator. *)
Definition proper (c : string) : bool :=
  negb (bool_decide (c = "")) && negb (bool_decide (c = "."))
  && negb (bool_decide (c = "..")) && no_slash c.

(** [rooted := os.IsPathSeparator(path[0])] for a non-empty path. *)
Definition rooted (p : string) : bool :=
  match p with
  | EmptyString => false
  | String a _ => IsPathSeparator a
  end.

(** The output buffer of [filepath.Clean], element by element: [cdd] counts
    the [..] elements kept at the front of a path that is not rooted (the
    buffer up to Go's index [dotdot]), [cst] holds the real elements written
    after them, the last one first. *)
Record cbuf := CBuf { cdd : nat; cst : list string }.

(** One turn of the loop of [Clean] on the element [c]. *)
Definition cstep (rt : bool) (b : cbuf) (c : string) : cbuf :=
  if bool_decide (c = "") then b                 (* empty path element *)
  else if bool_decide (c = ".") then b           (* . element *)
  else if bool_decide (c = "..") then            (* .. element *)
    match cst b with
    | _ :: st' => CBuf (cdd b) st'               (* can backtrack *)
    | [] => if rt then b                         (* rooted: drop it *)
            else CBuf (S (cdd b)) []             (* keep a leading .. *)
    end
  else CBuf (cdd b) (c :: cst b).                (* real path element *)

Definition celems (b : cbuf) : list string :=
  replicate (cdd b) ".." ++ reverse (cst b).

(** The buffer as a string; an empty buffer of a path that is not rooted
    is turned into ["."]. *)
Definition render (rt : bool) (b : cbuf) : string :=
  if rt then "/" +:+ join (celems b)
  else match celems b with
       | [] => "."
       | es => join es
       end.

(** [filepath.Clean] (Unix: no volume name, separator [/]). *)
Definition Clean (path : string) : string :=
  if bool_decide (path = "") then "."
  else render (rooted path) (foldl (cstep (rooted path)) (CBuf 0 []) (split path)).

(** [filepath.Join] (Unix): the elements from the first non-empty one on are
    joined with the separator and cleaned; all empty gives [""]. *)
Fixpoint Join (elem : list string) : string :=
  match elem with
  | [] => ""
  | e :: rest => if bool_decide (e = "") then Join rest
                 else Clean (join elem)
  end.

(** ** Shapes used in the statements *)

(** The buffer of [Clean] holds real names only, and no [..] in front when
    the path is rooted. *)
Definition cvalid (rt : bool) (b : cbuf) : Prop :=
  Forall (λ c, proper c = true) (cst b) ∧ (rt = true → cdd b = 0).

(** A path whose last element is a real name: it does not end in a
    separator, in [.] or in [..]. *)
Definition named (p : string) : bool :=
  match last (split p) with
  | Some l => proper l
  | None => false
  end.

End Path.

(* ===================================================================== *)
(** * Go error values                                                     *)
(* ===================================================================== *)

(** The [syscall.Errno] values that the modelled calls can return. *)
Inductive Errno :=
  | ENOENT | ENOTDIR | EISDIR | EACCES | EEXIST | ENOTEMPTY | EINVAL | EBUSY.

Global Instance Errno_eq_dec : EqDecision Errno.
Proof. solve_decision. Defined.

(** A non-nil Go [error]. [Errorf] keeps the format and the arguments of the
    [fmt.Errorf] call that built it. The nil error is [None : option error]. *)
Inductive error :=
  | Errorf (format : string) (args : list string)
  | PathError (op path : string) (no : Errno)          (* *fs.PathError *)
  | LinkError (op old new : string) (no : Errno)       (* *os.LinkError *)
  | JSONError (msg : string).                          (* encoding/json *)

Global Instance error_eq_dec : EqDecision error.
Proof. solve_decision. Defined.

(** [os.IsNotExist]. *)
Definition IsNotExist (err : option error) : bool :=
  match err with
  | Some (PathError _ _ ENOENT) | Some (LinkError _ _ _ ENOENT) => true
  | _ => false
  end.

(* ===================================================================== *)
(** * The file tree and the calls of os and io/ioutil                     *)
(* ===================================================================== *)

Module FS.

(** [os.FileMode]: permission bits in the low 9 bits, type bits on top. *)
Definition FileMode := N.
Definition ModeDir : FileMode := (N.shiftl 1 31)%N.
Definition ModeType : FileMode := 0x8F280000%N.
Definition ModePerm : FileMode := 0x1FF%N.                     (* 0777 *)
Definition IsDir (m : FileMode) : bool := negb (N.land m ModeDir =? 0)%N.
Definition IsRegular (m : FileMode) : bool := (N.land m ModeType =? 0)%N.

Definition perm_0755 : FileMode := 0x1ED%N.
Definition perm_0644 : FileMode := 0x1A4%N.

(** The calling process owns every entry and is not the superuser: what it
    may do is read off the owner bits. Its umask is 0: an entry gets the
    permission bits the call asks for. *)
Definition may_read (perm : N) : bool := N.testbit perm 8.     (* 0400 *)
Definition may_write (perm : N) : bool := N.testbit perm 7.    (* 0200 *)
Definition may_search (perm : N) : bool := N.testbit perm 6.   (* 0100 *)

(** An entry of the tree: a regular file with its bytes, or a directory.
    Symbolic links and special files are not modelled. *)
Inductive node :=
  | File (perm : N) (data : list Byte.byte)
  | Dir (perm : N).

Global Instance byte_eq_dec : EqDecision Byte.byte := Byte.byte_eq_dec.

Global Instance node_eq_dec : EqDecision node.
Proof. solve_decision. Defined.

Definition node_mode (n : node) : FileMode :=
  match n with
  | File p _ => N.land p ModePerm
  | Dir p => N.lor ModeDir (N.land p ModePerm)
  end.

(** The place of an entry: its name, then the name of its directory, and so
    on up to the root, which is [[]]. *)
Abbreviation place := (list string).
Abbreviation tree := (gmap (list string) node).

Record FileInfo := { Name : string; Mode : FileMode }.

Definition base_name (k : place) : string :=
  match k with [] => "/" | c :: _ => c end.

Definition info (k : place) (n : node) : FileInfo :=
  {| Name := base_name k; Mode := node_mode n |}.

(** The levels of [lumber] and the loggers a driver can hold. *)
Inductive Level := TRACE | DEBUG | INFO | WARN | ERROR | FATAL.

Inductive Logger :=
  | ConsoleLogger (lvl : Level)          (* lumber.NewConsoleLogger(lvl) *)
  | CustomLogger (id : N).               (* a Logger supplied by the caller *)

(** What the program asks of the outside, in the order asked. *)
Inductive event :=
  | EvLock (m : N)
  | EvUnlock (m : N)
  | EvStat (name : string)
  | EvMkdir (name : string) (perm : FileMode)
  | EvMkdirAll (path : string) (perm : FileMode)
  | EvWriteFile (name : string) (data : list Byte.byte) (perm : FileMode)
  | EvRename (old new : string)
  | EvReadFile (name : string)
  | EvReadDir (name : string)
  | EvRemove (name : string)
  | EvRemoveAll (path : string)
  | EvLog (lg : Logger) (lvl : Level) (format : string) (args : list string).

(** The state outside the driver: the working directory of the process, the
    file tree, the Go maps on the heap (by address), the next free address,
    and the log of effects. *)
Record World := {
  cwd : place;
  files : tree;
  heap : gmap N (gmap string N);
  next : N;
  trace : list event
}.

Definition set_files (t : tree) (w : World) : World :=
  {| cwd := cwd w; files := t; heap := heap w; next := next w;
     trace := trace w |}.

Definition set_heap (h : gmap N (gmap string N)) (w : World) : World :=
  {| cwd := cwd w; files := files w; heap := h; next := next w;
     trace := trace w |}.

Definition emit (e : event) (w : World) : World :=
  {| cwd := cwd w; files := files w; heap := heap w; next := next w;
     trace := trace w ++ [e] |}.

(** ** Name resolution *)

(** One element of a path. There are no symbolic links, and the program
    hands only cleaned paths to the system, where [..] can only lead a
    relative path: [..] is resolved on the names, to the directory above. *)
Definition lstep (k : place) (c : string) : place :=
  if bool_decide (c = "") then k
  else if bool_decide (c = ".") then k
  else if bool_decide (c = "..") then tail k
  else c :: k.

Definition locate (wd : place) (name : string) : place :=
  foldl lstep (if Path.rooted name then [] else wd) (Path.split name).

(** Every directory above [k] exists and may be searched; checked from the
    root down, as the kernel walks. *)
Fixpoint walk (t : tree) (k : place) : option Errno :=
  match k with
  | [] => None
  | _ :: up =>
      match walk t up with
      | Some e => Some e
      | None =>
          match t !! up with
          | None => Some ENOENT
          | Some (File _ _) => Some ENOTDIR
          | Some (Dir p) => if may_search p then None else Some EACCES
          end
      end
  end.

(** The entry a name leads to. The empty name leads nowhere. *)
Definition find (wd : place) (t : tree) (name : string) : Errno + (place * node) :=
  if bool_decide (name = "") then inl ENOENT
  else let k := locate wd name in
       match walk t k with
       | Some e => inl e
       | None => match t !! k with
                 | None => inl ENOENT
                 | Some n => inr (k, n)
                 end
       end.

(** The place a name denotes whether or not an entry is there, once every
    directory above it has been walked. *)
Definition reach (wd : place) (t : tree) (name : string) : Errno + place :=
  if bool_decide (name = "") then inl ENOENT
  else let k := locate wd name in
       match walk t k with
       | Some e => inl e
       | None => inr k
       end.

(** The directory that holds [k] may be written. *)
Definition parent_writable (t : tree) (k : place) : bool :=
  match k with
  | [] => false
  | _ :: up => match t !! up with
               | Some (Dir p) => may_write p
               | _ => false
               end
  end.

(** The entries directly inside [k], by name. *)
Definition children (t : tree) (k : place) : list (string * node) :=
  omap (λ '(k', n), match k' with
                    | c :: up => if bool_decide (up = k) then Some (c, n) else None
                    | [] => None
                    end) (map_to_list t).

Definition is_empty_dir (t : tree) (k : place) : bool :=
  bool_decide (children t k = []).

(** ** Results and the monad of calls *)

(** A call that returns [(x, err)] with exactly one of them meaningful. *)
Inductive result (A : Type) :=
  | Ok (a : A)
  | Err (e : error).
Global Arguments Ok {A} a.
Global Arguments Err {A} e.

Definition err_of {A} (r : result A) : option error :=
  match r with Ok _ => None | Err e => Some e end.

Definition IO (A : Type) : Type := World → A * World.
Global Instance IO_ret : MRet IO := λ A a w, (a, w).
Global Instance IO_bind : MBind IO :=
  λ A B f m w, let '(a, w') := m w in f a w'.

Definition perr (op name : string) (e : Errno) : error := PathError op name e.

(** Lifts a change of the tree at the place a name denotes to a call. *)
Definition on_place (op name : string) (ev : event)
    (f : tree → place → option Errno * tree) : IO (option error) :=
  λ w,
    match reach (cwd w) (files w) name with
    | inl e => (Some (perr op name e), emit ev w)
    | inr k =>
        let '(r, t') := f (files w) k in
        (perr op name <$> r, emit ev (set_files t' w))
    end.

(** ** os.Stat *)
Definition stat_of (w : World) (name : string) : result FileInfo :=
  match find (cwd w) (files w) name with
  | inl e => Err (perr "stat" name e)
  | inr (k, n) => Ok (info k n)
  end.

Definition Stat (name : string) : IO (result FileInfo) :=
  λ w, (stat_of w name, emit (EvStat name) w).

(** ** os.Mkdir: one directory; the directory above must exist *)
Definition mkdir_at (perm : FileMode) (t : tree) (k : place)
    : option Errno * tree :=
  match t !! k with
  | Some _ => (Some EEXIST, t)
  | None =>
      if parent_writable t k then (None, <[k := Dir (N.land perm ModePerm)]> t)
      else (Some EACCES, t)
  end.

Definition Mkdir (name : string) (perm : FileMode) : IO (option error) :=
  on_place "mkdir" name (EvMkdir name perm) (mkdir_at perm).

(** ** os.MkdirAll: the directory and every missing directory above it.
    If the path is a directory already, nothing is done; if it is a file,
    the call fails; otherwise the directory above is made first, then the
    directory itself with [Mkdir]. *)
Fixpoint mkdir_all_at (perm : FileMode) (t : tree) (k : place)
    : option Errno * tree :=
  match walk t k, t !! k with
  | None, Some (Dir _) => (None, t)
  | None, Some (File _ _) => (Some ENOTDIR, t)
  | _, _ =>
      let '(r, t1) := match k with
                      | [] => (None, t)
                      | _ :: up => mkdir_all_at perm t up
                      end in
      match r with
      | Some e => (Some e, t1)
      | None =>
          match walk t1 k with
          | Some e => (Some e, t1)
          | None => mkdir_at perm t1 k
          end
      end
  end.

Definition MkdirAll (path : string) (perm : FileMode) : IO (option error) :=
  λ w,
    let ev := EvMkdirAll path perm in
    if bool_decide (path = "") then (Some (perr "mkdir" path ENOENT), emit ev w)
    else
      let '(r, t') := mkdir_all_at perm (files w) (locate (cwd w) path) in
      (perr "mkdir" path <$> r, emit ev (set_files t' w)).

(** ** ioutil.WriteFile: open with O_WRONLY|O_CREATE|O_TRUNC, write, close.
    An existing file keeps its permission bits. *)
Definition write_at (data : list Byte.byte) (perm : FileMode) (t : tree)
    (k : place) : option Errno * tree :=
  match t !! k with
  | Some (Dir _) => (Some EISDIR, t)
  | Some (File p _) =>
      if may_write p then (None, <[k := File p data]> t) else (Some EACCES, t)
  | None =>
      if parent_writable t k
      then (None, <[k := File (N.land perm ModePerm) data]> t)
      else (Some EACCES, t)
  end.

Definition WriteFile (name : string) (data : list Byte.byte) (perm : FileMode)
    : IO (option error) :=
  on_place "open" name (EvWriteFile name data perm) (write_at data perm).

(** ** os.Rename *)

(** The place of an entry of the directory [ko] once [ko] is moved to [kn]. *)
Definition rekey (ko kn k : place) : place :=
  if bool_decide (ko `suffix_of` k)
  then take (length k - length ko) k ++ kn
  else k.

Definition move_dir (t : tree) (ko kn : place) : tree :=
  list_to_map ((λ '(k, n), (rekey ko kn k, n)) <$> map_to_list t).

(** [os.Rename] first refuses a new name that is a directory, then calls
    rename(2), which replaces a file at the new name in one step. *)
Definition rename_at (t : tree) (ko kn : place) : option Errno * tree :=
  match walk t kn, t !! kn with
  | None, Some (Dir _) =>
      match walk t ko with
      | Some e => (Some e, t)
      | None => match t !! ko with
                | None => (Some ENOENT, t)
                | Some _ => (Some EEXIST, t)
                end
      end
  | _, _ =>
      match walk t ko with
      | Some e => (Some e, t)
      | None =>
          match t !! ko with
          | None => (Some ENOENT, t)
          | Some n =>
              match walk t kn with
              | Some e => (Some e, t)
              | None =>
                  if negb (parent_writable t ko && parent_writable t kn)
                  then (Some EACCES, t)
                  else match n, t !! kn with
                       | File _ _, _ => (None, <[kn := n]> (delete ko t))
                       | Dir _, Some _ => (Some ENOTDIR, t)
                       | Dir _, None =>
                           if bool_decide (ko `suffix_of` kn) then (Some EINVAL, t)
                           else (None, move_dir t ko kn)
                       end
              end
          end
      end
  end.

Definition Rename (old new : string) : IO (option error) :=
  λ w,
    let ev := EvRename old new in
    if bool_decide (old = "") || bool_decide (new = "")
    then (Some (LinkError "rename" old new ENOENT), emit ev w)
    else
      let '(r, t') := rename_at (files w) (locate (cwd w) old)
                                (locate (cwd w) new) in
      (LinkError "rename" old new <$> r, emit ev (set_files t' w)).

(** ** ioutil.ReadFile *)
Definition read_of (w : World) (name : string) : result (list Byte.byte) :=
  match find (cwd w) (files w) name with
  | inl e => Err (perr "open" name e)
  | inr (_, File p data) =>
      if may_read p then Ok data else Err (perr "open" name EACCES)
  | inr (_, Dir p) =>
      if may_read p then Err (perr "read" name EISDIR)
      else Err (perr "open" name EACCES)
  end.

Definition ReadFile (name : string) : IO (result (list Byte.byte)) :=
  λ w, (read_of w name, emit (EvReadFile name) w).

(** ** ioutil.ReadDir: the entries of a directory sorted by name; a nil
    list together with the error when the directory cannot be listed.
    Listing needs read permission, the lstat of an entry needs search
    permission. *)
Definition by_name (a b : FileInfo) : Prop := String.le (Name a) (Name b).
Global Instance by_name_dec : RelDecision by_name.
Proof. intros a b. unfold by_name. apply _. Defined.

Definition readdir_of (w : World) (name : string)
    : list FileInfo * option error :=
  match find (cwd w) (files w) name with
  | inl e => ([], Some (perr "open" name e))
  | inr (_, File p _) =>
      if may_read p then ([], Some (perr "readdirent" name ENOTDIR))
      else ([], Some (perr "open" name EACCES))
  | inr (k, Dir p) =>
      if may_read p then
        let es := children (files w) k in
        match es with
        | [] => ([], None)
        | (c, _) :: _ =>
            if may_search p
            then (merge_sort by_name ((λ '(c, n), info (c :: k) n) <$> es), None)
            else ([], Some (perr "lstat" (name +:+ "/" +:+ c) EACCES))
        end
      else ([], Some (perr "open" name EACCES))
  end.

Definition ReadDir (name : string) : IO (list FileInfo * option error) :=
  λ w, (readdir_of w name, emit (EvReadDir name) w).

(** ** os.Remove: unlink a file or rmdir an empty directory *)
Definition remove_at (t : tree) (k : place) : option Errno * tree :=
  match t !! k with
  | None => (Some ENOENT, t)
  | Some n =>
      match k with
      | [] => (Some EBUSY, t)
      | _ :: _ =>
          if negb (parent_writable t k) then (Some EACCES, t)
          else match n with
               | File _ _ => (None, delete k t)
               | Dir _ => if is_empty_dir t k then (None, delete k t)
                          else (Some ENOTEMPTY, t)
               end
      end
  end.

Definition Remove (name : string) : IO (option error) :=
  on_place "remove" name (EvRemove name) remove_at.

(** ** os.RemoveAll: removes the path and everything below it that it can.
    A missing path is no error; a path ending in a [.] element is refused.
    Every other error is recorded under the operation [unlinkat]. *)
Definition endsWithDot (path : string) : bool :=
  bool_decide (path = ".")
  || bool_decide (last (Path.split path) = Some "." ∧ 2 ≤ length (Path.split path)).

(** [k] lies strictly below [kp]. *)
Definition below (kp k : place) : bool :=
  bool_decide (kp `suffix_of` k) && negb (bool_decide (k = kp)).

(** Every directory from [d] up to [kp] is a directory that may be read and
    searched: the descent of [RemoveAll] gets to list [d]. *)
Fixpoint listable (t : tree) (kp d : place) : bool :=
  match t !! d with
  | Some (Dir p) =>
      may_read p && may_search p &&
      (bool_decide (d = kp) ||
       match d with
       | [] => false
       | _ :: up => listable t kp up
       end)
  | _ => false
  end.

(** Unlinks [v], an entry below [kp], when the descent reaches it, its
    directory may be written and it has nothing left inside. *)
Definition try_unlink (kp : place) (t : tree) (v : place) : tree :=
  match v, t !! v with
  | _ :: d, Some n =>
      if listable t kp d && parent_writable t v &&
         match n with File _ _ => true | Dir _ => is_empty_dir t v end
      then delete v t else t
  | _, _ => t
  end.

Definition deeper (a b : place) : Prop := length b ≤ length a.
Global Instance deeper_dec : RelDecision deeper.
Proof. intros a b. unfold deeper. apply _. Defined.

Definition remove_all_at (t : tree) (kp : place) : option Errno * tree :=
  let victims := merge_sort deeper (filter (λ k, below kp k = true) (map_to_list t).*1) in
  let t1 := foldl (try_unlink kp) t victims in
  match remove_at t1 kp with
  | (Some ENOENT, t2) => (None, t2)
  | r => r
  end.

Definition RemoveAll (path : string) : IO (option error) :=
  λ w,
    let ev := EvRemoveAll path in
    if bool_decide (path = "") then (None, emit ev w)
    else if endsWithDot path
    then (Some (perr "RemoveAll" path EINVAL), emit ev w)
    else match walk (files w) (locate (cwd w) path) with
         | Some ENOENT => (None, emit ev w)
         | Some e => (Some (perr "unlinkat" path e), emit ev w)
         | None =>
             let '(r, t') := remove_all_at (files w) (locate (cwd w) path) in
             (perr "unlinkat" path <$> r, emit ev (set_files t' w))
         end.

(** ** sync.Mutex and the heap *)

(** [Lock] and [Unlock] of the mutex at address [m]. In a run of one caller
    at a time every mutex is free when it is asked for, so [Lock] returns at
    once; the interleaving semantics of [Registry] models the waiting. *)
Definition Lock (m : N) : IO unit := λ w, (tt, emit (EvLock m) w).
Definition Unlock (m : N) : IO unit := λ w, (tt, emit (EvUnlock m) w).

(** A fresh address. *)
Definition alloc : IO N :=
  λ w, (next w, {| cwd := cwd w; files := files w; heap := heap w;
                   next := N.succ (next w); trace := trace w |}).

(** [make(map[string]*sync.Mutex)]: a fresh empty map. *)
Definition make_map : IO N :=
  λ w, let '(a, w') := alloc w in (a, set_heap (<[a := ∅]> (heap w')) w').

(** [m[key]] with its presence flag, and [m[key] = val]. *)
Definition map_load (a : N) (key : string) : IO (option N) :=
  λ w, (heap w !! a ≫= (.!! key), w).

Definition map_store (a : N) (key : string) (val : N) : IO unit :=
  λ w, (tt, set_heap (<[a := <[key := val]> (default ∅ (heap w !! a))]> (heap w)) w).

(** A message handed to a logger. *)
Definition Log (lg : Logger) (lvl : Level) (format : string)
    (args : list string) : IO unit :=
  λ w, (tt, emit (EvLog lg lvl format args) w).

(** ** Shapes used in the statements *)

(** Where resolution of [p] starts. *)
Definition base_of (wd : place) (p : string) : place :=
  if Path.rooted p then [] else wd.

Definition is_dir (o : option node) : bool :=
  match o with Some (Dir _) => true | _ => false end.

(** Every entry has real names on its way and sits in a directory. *)
Definition entry_ok (t : tree) (k : place) : bool :=
  bool_decide (Forall (λ c, Path.proper c = true) k)
  && match k with [] => true | _ :: up => is_dir (t !! up) end.

Definition well_formed (t : tree) : Prop :=
  map_Forall (λ k _, entry_ok t k = true) t.

Global Instance well_formed_dec t : Decision (well_formed t).
Proof. unfold well_formed. apply _. Defined.

(** The regular file a name leads to: its permission bits and bytes. *)
Definition regular (w : World) (name : string) : option (N * list Byte.byte) :=
  match find (cwd w) (files w) name with
  | inr (_, File p data) => Some (p, data)
  | _ => None
  end.

(** [t1] is [t] with directories added. *)
Definition adds_dirs (t t1 : tree) : Prop :=
  t ⊆ t1 ∧ ∀ k p d, t1 !! k = Some (File p d) → t !! k = Some (File p d).

(** [t'] is [t] without some places below [kp]. *)
Definition pruned (kp : place) (t t' : tree) : Prop :=
  t' ⊆ t ∧ ∀ k, below kp k = false → t' !! k = t !! k.

(** The events of a mutex, and the events that only look at the tree. *)
Definition is_lock_event (e : event) : bool :=
  match e with EvLock _ | EvUnlock _ => true | _ => false end.

Definition is_probe (e : event) : bool :=
  match e with EvStat _ | EvReadFile _ | EvReadDir _ => true | _ => false end.

(** [w] with the events [es] added to its trace, and nothing else changed. *)
Definition logged (es : list event) (w : World) : World :=
  {| cwd := cwd w; files := files w; heap := heap w; next := next w;
     trace := trace w ++ es |}.

(** What a record of ReadAll holds for an entry: the bytes of a file. *)
Definition content (n : node) : string :=
  match n with
  | File _ data => String.string_of_list_byte data
  | Dir _ => ""
  end.

(** Entries in ascending order of their names. *)
Definition name_le (a b : string * node) : Prop := String.le a.1 b.1.

(** Two worlds with the same working directory and the same tree: all that
    the calls on the tree look at. *)
Definition same_fs (w w' : World) : Prop := cwd w' = cwd w ∧ files w' = files w.

End FS.

(* ===================================================================== *)
(** * The driver (main.go)                                                *)
(* ===================================================================== *)

Module LiteDB.
Import Path FS.

(** [encoding/json] for the values of the caller. [MarshalIndent v prefix
    indent] is the encoding or an error; [Unmarshal data v] decodes into the
    value [v] the caller points to and gives what it holds afterwards. *)
Class Codec (V : Type) := {
  MarshalIndent : V → string → string → result (list Byte.byte);
  Unmarshal : list Byte.byte → V → V * option error
}.

Definition tab : string := String "009"%char "".
Definition nl : string := String "010"%char "".

(** [type Driver struct]: [mutex] is the address of the mutex of the struct,
    [mutexes] the address of the map from collection names to mutexes. *)
Record Driver := {
  mutex : N;
  mutexes : N;
  dir : string;
  log : Logger
}.

Definition Version : string := "1.0.1".

(** [type Options struct { Logger }]; [None] is the nil Logger. *)
Record Options := { opt_Logger : option Logger }.

(** [func New(dir string, options *Options)], returning the driver and an
    error. *)
Definition New (dir : string) (options : option Options)
    : IO (Driver * option error) :=
  let dir := Clean dir in
  let opts := match options with
              | Some o => o
              | None => {| opt_Logger := None |}
              end in
  let lg := match opt_Logger opts with
            | Some l => l
            | None => ConsoleLogger INFO
            end in
  mu ← alloc;
  mp ← make_map;
  let driver := {| mutex := mu; mutexes := mp; dir := dir; log := lg |} in
  r ← Stat dir;
  match r with
  | Ok _ =>
      _ ← Log lg DEBUG ("Using '%s' (database already exists)" +:+ nl) [dir];
      mret (driver, None)
  | Err _ =>
      _ ← Log lg INFO ("Creating new database at '%s'..." +:+ nl) [dir];
      e ← Mkdir dir perm_0755;
      mret (driver, e)
  end.

(** [func (d *Driver) getOrCreateMutex(collection string) *sync.Mutex] *)
Definition getOrCreateMutex (d : Driver) (collection : string) : IO N :=
  _ ← Lock (mutex d);
  o ← map_load (mutexes d) collection;
  m ← match o with
      | Some m => mret m
      | None => m ← alloc; _ ← map_store (mutexes d) collection m; mret m
      end;
  _ ← Unlock (mutex d);
  mret m.

(** [func stat(path string) (fi os.FileInfo, err error)] *)
Definition stat (path : string) : IO (result FileInfo) :=
  r ← Stat path;
  if IsNotExist (err_of r) then Stat (path +:+ ".json") else mret r.

(** [func (d *Driver) Write(collection, resource string, v interface{}) error] *)
Definition Write `{Codec V} (d : Driver) (collection resource : string)
    (v : V) : IO (option error) :=
  if bool_decide (collection = "")
  then mret (Some (Errorf "collection name cannot be empty" []))
  else if bool_decide (resource = "")
  then mret (Some (Errorf "resource name cannot be empty" []))
  else
    mutex ← getOrCreateMutex d collection;
    _ ← Lock mutex;
    r ← (let dir := Join [dir d; collection] in
         let fnlPath := Join [dir; resource +:+ ".json"] in
         let tempPath := fnlPath +:+ ".tmp" in
         e ← MkdirAll dir perm_0755;
         match e with
         | Some err => mret (Some err)
         | None =>
             match MarshalIndent v "" tab with
             | Err err => mret (Some err)
             | Ok b =>
                 let b := b ++ [Byte.x0a] in
                 e ← WriteFile tempPath b perm_0644;
                 match e with
                 | Some err => mret (Some err)
                 | None => Rename tempPath fnlPath
                 end
             end
         end);
    _ ← Unlock mutex;
    mret r.

(** [func (d *Driver) Read(collection, resource string, v interface{}) error];
    the result holds the value behind [v] after the call. *)
Definition Read `{Codec V} (d : Driver) (collection resource : string)
    (v : V) : IO (V * option error) :=
  if bool_decide (collection = "")
  then mret (v, Some (Errorf "collection name cannot be empty" []))
  else if bool_decide (resource = "")
  then mret (v, Some (Errorf "resource name cannot be empty" []))
  else
    let record := Join [dir d; collection; resource] in
    r ← stat record;
    match r with
    | Err err => mret (v, Some err)
    | Ok _ =>
        r ← ReadFile (record +:+ ".json");
        match r with
        | Err err => mret (v, Some err)
        | Ok b => mret (Unmarshal b v)
        end
    end.

(** The loop of [ReadAll] over the entries of the directory. *)
Fixpoint read_each (dir : string) (files : list FileInfo)
    (records : list string) : IO (list string * option error) :=
  match files with
  | [] => mret (records, None)
  | file :: rest =>
      r ← ReadFile (Join [dir; Name file]);
      match r with
      | Err err => mret ([], Some err)
      | Ok b => read_each dir rest (records ++ [String.string_of_list_byte b])
      end
  end.

(** [func (d *Driver) ReadAll(collection string) ([]string, error)] *)
Definition ReadAll (d : Driver) (collection : string)
    : IO (list string * option error) :=
  if bool_decide (collection = "")
  then mret ([], Some (Errorf "collection name cannot be empty" []))
  else
    let dir := Join [dir d; collection] in
    r ← stat dir;
    match r with
    | Err err => mret ([], Some err)
    | Ok _ =>
        '(files, _) ← ReadDir dir;
        read_each dir files []
    end.

(** [func (d *Driver) Delete(collection, resource string) error] *)
Definition Delete (d : Driver) (collection resource : string)
    : IO (option error) :=
  if bool_decide (collection = "")
  then mret (Some (Errorf "collection name cannot be empty" []))
  else
    let path := Join [collection; resource] in
    mutex ← getOrCreateMutex d collection;
    _ ← Lock mutex;
    r ← (let dir := Join [dir d; path] in
         r ← stat dir;
         match r with
         | Err _ =>
             mret (Some (Errorf "resource '%s' does not exist in collection '%s'"
                                [resource; collection]))
         | Ok fi =>
             if IsDir (Mode fi) then RemoveAll dir
             else if IsRegular (Mode fi) then Remove (dir +:+ ".json")
             else mret None
         end);
    _ ← Unlock mutex;
    mret r.

(** ** Shapes used in the statements *)

(** The part of Write between Lock and the deferred Unlock. *)
Definition Write_locked `{Codec V} (d : Driver) (collection resource : string) (v : V)
    : IO (option error) :=
  let dir := Join [dir d; collection] in
  let fnlPath := Join [dir; resource +:+ ".json"] in
  let tempPath := fnlPath +:+ ".tmp" in
  e ← MkdirAll dir perm_0755;
  match e with
  | Some err => mret (Some err)
  | None =>
      match MarshalIndent v "" tab with
      | Err err => mret (Some err)
      | Ok b =>
          let b := b ++ [Byte.x0a] in
          e ← WriteFile tempPath b perm_0644;
          match e with
          | Some err => mret (Some err)
          | None => Rename tempPath fnlPath
          end
      end
  end.

(** What Read does once the probe has passed: it reads the qualified path. *)
Definition read_qualified `{Codec V} (w : World) (record : string) (v0 : V)
    : V * option error :=
  match read_of w (record +:+ ".json") with
  | Err e => (v0, Some e)
  | Ok b => Unmarshal b v0
  end.

(** The loop of ReadAll on the tree alone. *)
Fixpoint read_all_of (w : World) (dir : string) (files : list FileInfo)
    (records : list string) : list string * option error :=
  match files with
  | [] => (records, None)
  | file :: rest =>
      match read_of w (Join [dir; Name file]) with
      | Err err => ([], Some err)
      | Ok b => read_all_of w dir rest (records ++ [String.string_of_list_byte b])
      end
  end.

(** The map [d.mutexes] as the heap holds it. *)
Definition registry (d : Driver) (w : World) : gmap string N :=
  default ∅ (heap w !! mutexes d).

(** The addresses of the driver are in use: the mutex of the driver and
    every mutex of the map lie below the next free address, no mutex of the
    map is the mutex of the driver, and no two names share a mutex. *)
Definition registry_ok (d : Driver) (w : World) : Prop :=
  (mutex d < next w)%N ∧
  (∀ c m, registry d w !! c = Some m → (m < next w)%N ∧ m ≠ mutex d) ∧
  (∀ c1 c2 m, registry d w !! c1 = Some m → registry d w !! c2 = Some m → c1 = c2).

End LiteDB.

(* ===================================================================== *)
(** * The program (main.go, func main)                                    *)
(* ===================================================================== *)

Module Program.
Import Path FS LiteDB.

(** [json.Number] is a string that holds a number. *)
Definition Number := string.

Record Address := {
  City : string;
  State : string;
  Country : string;
  Pincode : Number
}.

(** [type User struct]; the field [Address] of the source is [Addr] here,
    as the name is taken by its type. *)
Record User := {
  Name : string;
  Age : Number;
  Contact : string;
  Company : string;
  Addr : Address
}.

(** [User{}], the zero value. *)
Definition zero : User :=
  {| Name := ""; Age := ""; Contact := ""; Company := "";
     Addr := {| City := ""; State := ""; Country := ""; Pincode := "" |} |}.

(** An operand of [fmt.Println]; a call of Println is the list of its
    operands, and the standard output is the list of the calls. *)
Inductive operand :=
  | OStr (s : string)
  | OErr (e : error)
  | ORecords (records : list string)
  | OUsers (users : list User).

Definition Println (out : list (list operand)) (a : list operand)
    : list (list operand) :=
  out ++ [a].

(** [if err != nil { fmt.Println(msg, err) }] *)
Definition report (out : list (list operand)) (msg : string)
    (err : option error) : list (list operand) :=
  match err with
  | Some e => Println out [OStr msg; OErr e]
  | None => out
  end.

Definition employee : list User :=
  [ {| Name := "John Doe"; Age := "30"; Contact := "123-456-7890";
       Company := "TechCorp";
       Addr := {| City := "San Francisco"; State := "CA"; Country := "USA";
                  Pincode := "94105" |} |};
    {| Name := "Jane Smith"; Age := "28"; Contact := "987-654-3210";
       Company := "Innovatech";
       Addr := {| City := "New York"; State := "NY"; Country := "USA";
                  Pincode := "10001" |} |};
    {| Name := "Alice Johnson"; Age := "35"; Contact := "555-123-4567";
       Company := "WebSolutions";
       Addr := {| City := "Los Angeles"; State := "CA"; Country := "USA";
                  Pincode := "90001" |} |};
    {| Name := "Bob Brown"; Age := "40"; Contact := "444-555-6666";
       Company := "DataAnalytics";
       Addr := {| City := "Chicago"; State := "IL"; Country := "USA";
                  Pincode := "60601" |} |} ].

(** [for _, value := range employee { db.Write("users", value.Name, User{...}) }];
    the error of Write is dropped. *)
Fixpoint write_each `{Codec User} (db : Driver) (values : list User) : IO unit :=
  match values with
  | [] => mret tt
  | value :: rest =>
      _ ← Write db "users" (Name value)
            {| Name := Name value; Age := Age value; Contact := Contact value;
               Company := Company value; Addr := Addr value |};
      write_each db rest
  end.

(** [for _, record := range records { ... json.Unmarshal([]byte(record),
    &employeeFound) ... allusers = append(allusers, employeeFound) }] *)
Fixpoint decode_each `{Codec User} (records : list string) (allusers : list User)
    (out : list (list operand)) : list User * list (list operand) :=
  match records with
  | [] => (allusers, out)
  | record :: rest =>
      let '(employeeFound, err) :=
        Unmarshal (String.list_byte_of_string record) zero in
      let out := report out "Error unmarshaling record:" err in
      decode_each rest (allusers ++ [employeeFound]) out
  end.

(** [func main()]; the result is the list of its calls of [fmt.Println]. *)
Definition main `{Codec User} : IO (list (list operand)) :=
  let dir := "./" in
  '(db, err) ← New dir None;
  let out := report [] "Error creating DB:" err in
  _ ← write_each db employee;
  '(records, err) ← ReadAll db "users";
  let out := report out "Error reading records:" err in
  let out := Println out [OStr "All User Records:"; ORecords records] in
  let '(allusers, out) := decode_each records [] out in
  let out := Println out [OStr "All Users Structs:"; OUsers allusers] in
  err ← Delete db "users" "Alice Johnson";
  let out := report out "Error deleting record:" err in
  err ← Delete db "users" "";
  let out := report out "Error deleting all records:" err in
  mret out.

End Program.

(* ===================================================================== *)
(** * Callers of getOrCreateMutex, interleaved                            *)
(* ===================================================================== *)

Module Registry.

(** Where a caller of [getOrCreateMutex] stands. *)
Inductive pc :=
  | AtLock                (* before d.mutex.Lock() *)
  | AtLoad                (* before m, ok := d.mutexes[collection] *)
  | AtNew                 (* !ok: before m = &sync.Mutex{} *)
  | AtStore (m : N)       (* before d.mutexes[collection] = m *)
  | AtUnlock (m : N)      (* at return m, the deferred d.mutex.Unlock() to run *)
  | Done (m : N).         (* has returned m *)

(** Between Lock and Unlock. *)
Definition in_cs (p : pc) : bool :=
  match p with
  | AtLoad | AtNew | AtStore _ | AtUnlock _ => true
  | AtLock | Done _ => false
  end.

(** The driver as the callers share it: who holds [d.mutex], the map
    [d.mutexes], the next free address, the collections a mutex was
    allocated for (in order), and each caller with its argument. *)
Record state := {
  holder : option nat;
  reg : gmap string N;
  fresh : N;
  made : list string;
  threads : list (string * pc)
}.

Definition move (i : nat) (c : string) (p : pc) (s : state) : list (string * pc) :=
  <[i := (c, p)]> (threads s).

(** One step of caller [i]; [None] when it waits for the mutex, has
    returned, or does not exist. *)
Definition step (i : nat) (s : state) : option state :=
  match threads s !! i with
  | None => None
  | Some (c, p) =>
      match p with
      | AtLock =>
          match holder s with
          | Some _ => None
          | None => Some {| holder := Some i; reg := reg s; fresh := fresh s;
                            made := made s; threads := move i c AtLoad s |}
          end
      | AtLoad =>
          match reg s !! c with
          | Some m => Some {| holder := holder s; reg := reg s; fresh := fresh s;
                              made := made s; threads := move i c (AtUnlock m) s |}
          | None => Some {| holder := holder s; reg := reg s; fresh := fresh s;
                            made := made s; threads := move i c AtNew s |}
          end
      | AtNew =>
          Some {| holder := holder s; reg := reg s; fresh := N.succ (fresh s);
                  made := made s ++ [c]; threads := move i c (AtStore (fresh s)) s |}
      | AtStore m =>
          Some {| holder := holder s; reg := <[c := m]> (reg s); fresh := fresh s;
                  made := made s; threads := move i c (AtUnlock m) s |}
      | AtUnlock m =>
          Some {| holder := None; reg := reg s; fresh := fresh s;
                  made := made s; threads := move i c (Done m) s |}
      | Done _ => None
      end
  end.

(** A schedule names the caller that moves next; a caller that cannot move
    loses its turn. *)
Definition run (sched : list nat) (s : state) : state :=
  foldl (λ s i, default s (step i s)) s sched.

(** Every caller about to call, nobody holding the mutex. *)
Definition init (reg0 : gmap string N) (fresh0 : N) (names : list string) : state :=
  {| holder := None; reg := reg0; fresh := fresh0; made := [];
     threads := (λ c, (c, AtLock)) <$> names |}.

(** What holds of a caller at each point, and of the callers together. *)
Definition pc_ok (s : state) (c : string) (p : pc) : Prop :=
  match p with
  | AtLock | AtLoad => True
  | AtNew | AtStore _ => reg s !! c = None
  | AtUnlock m | Done m => reg s !! c = Some m
  end.

Record inv (reg0 : gmap string N) (s : state) : Prop := {
  inv_cs : ∀ i c p, threads s !! i = Some (c, p) → in_cs p = true → holder s = Some i;
  inv_pc : ∀ i c p, threads s !! i = Some (c, p) → pc_ok s c p;
  inv_made : NoDup (made s);
  inv_stored : ∀ c, c ∈ made s →
    is_Some (reg s !! c) ∨ ∃ j m, threads s !! j = Some (c, AtStore m);
  inv_new : ∀ c, c ∈ made s → reg0 !! c = None;
  inv_grow : reg0 ⊆ reg s
}.

(** Whoever holds the mutex stands between Lock and Unlock. *)
Definition holder_ok (s : state) : Prop :=
  ∀ i, holder s = Some i → ∃ c p, threads s !! i = Some (c, p) ∧ in_cs p = true.

(** Every caller has returned. *)
Definition returned (s : state) : bool :=
  forallb (λ t, match t.2 with Done _ => true | _ => false end) (threads s).

(** The steps a caller has left at most, and those of all callers. *)
Definition remaining (p : pc) : nat :=
  match p with
  | AtLock => 5 | AtLoad => 4 | AtNew => 3 | AtStore _ => 2 | AtUnlock _ => 1
  | Done _ => 0
  end.

Definition work (s : state) : nat :=
  sum_list ((λ t, remaining t.2) <$> threads s).

(** The mutexes of the map are in use and belong to one name each; a mutex
    about to be stored is in use and not yet in the map. *)
Record distinct (s : state) : Prop := {
  dist_used : ∀ c m, reg s !! c = Some m → (m < fresh s)%N;
  dist_inj : ∀ c1 c2 m, reg s !! c1 = Some m → reg s !! c2 = Some m → c1 = c2;
  dist_store : ∀ i c m, threads s !! i = Some (c, AtStore m) →
    (m < fresh s)%N ∧ ∀ c', reg s !! c' ≠ Some m
}.

End Registry.


(* ===================================================================== *)
(** * The error classes of the specification                              *)
(* ===================================================================== *)

(** The driver returns plain error values. The classes the specification
    speaks of are read on them: a validation error is one of the two
    messages about an empty name; not found is what [os.IsNotExist] accepts
    or the message of Delete; an I/O error is any other error of the file
    system. *)
Import Path FS LiteDB.

Definition ValidationError (e : error) : bool :=
  bool_decide (e = Errorf "collection name cannot be empty" [])
  || bool_decide (e = Errorf "resource name cannot be empty" []).

Definition NotFoundError (e : error) : bool :=
  IsNotExist (Some e)
  || match e with
     | Errorf f _ => bool_decide (f = "resource '%s' does not exist in collection '%s'")
     | _ => false
     end.

Definition IOError (e : error) : bool :=
  match e with
  | PathError _ _ no | LinkError _ _ _ no => negb (bool_decide (no = ENOENT))
  | _ => false
  end.

Definition is_Ok {A} (r : result A) : bool :=
  match r with Ok _ => true | Err _ => false end.

Definition fs_error (e : error) : bool :=
  match e with PathError _ _ _ | LinkError _ _ _ _ => true | _ => false end.


(* ===================================================================== *)
(** * Sample worlds                                                       *)
(* ===================================================================== *)

Module Sample.

Definition bytes (s : string) : list Byte.byte := String.list_byte_of_string s.

(** A codec for booleans: [true] and [false] as JSON writes them. *)
Global Instance bool_codec : Codec bool := {|
  MarshalIndent := λ (b : bool) _ _, Ok (bytes (if b then "true" else "false"));
  Unmarshal := λ data v,
    let s := String.string_of_list_byte data in
    if bool_decide (s = "true" +:+ nl) || bool_decide (s = "true") then (true, None)
    else if bool_decide (s = "false" +:+ nl) || bool_decide (s = "false") then (false, None)
    else (v, Some (JSONError "invalid character"))
|}.

Definition tree_of (l : list (place * node)) : tree := list_to_map l.

Definition world_of (l : list (place * node)) : World :=
  {| cwd := ["app"; "home"]; files := tree_of l; heap := {[ 2%N := ∅ ]};
     next := 3%N; trace := [] |}.

Definition base : list (place * node) :=
  [([], Dir perm_0755); (["home"], Dir perm_0755); (["app"; "home"], Dir perm_0755)].

Definition data : place := ["data"; "app"; "home"].
Definition users : place := "users" :: data.

Definition d0 : Driver :=
  {| mutex := 1; mutexes := 2; dir := "data"; log := ConsoleLogger INFO |}.

(** /home/app/data exists and is empty. *)
Definition w_empty : World := world_of (base ++ [(data, Dir perm_0755)]).

(** One document users/John.json. *)
Definition w_john : World :=
  world_of (base ++ [(data, Dir perm_0755); (users, Dir perm_0755);
                     ("John.json" :: users, File perm_0644 (bytes ("true" +:+ nl)))]).

(** A file users/John without extension and no users/John.json. *)
Definition w_bare : World :=
  world_of (base ++ [(data, Dir perm_0755); (users, Dir perm_0755);
                     ("John" :: users, File perm_0644 (bytes ("true" +:+ nl)))]).

(** A directory users and, beside it, a file users.json. *)
Definition w_beside : World :=
  world_of (base ++ [(data, Dir perm_0755); (users, Dir perm_0755);
                     ("John.json" :: users, File perm_0644 (bytes ("true" +:+ nl)));
                     ("users.json" :: data, File perm_0644 (bytes ("false" +:+ nl)))]).

(** Only the file users.json, no directory users. *)
Definition w_only_json : World :=
  world_of (base ++ [(data, Dir perm_0755);
                     ("users.json" :: data, File perm_0644 (bytes ("false" +:+ nl)))]).

(** The directory data may not be searched (mode 0600). *)
Definition w_locked : World :=
  world_of (base ++ [(data, Dir 0x180%N); (users, Dir perm_0755);
                     ("John.json" :: users, File perm_0644 (bytes ("true" +:+ nl)))]).

(** Two directories inside the collection, beside a document. *)
Definition w_subdir : World :=
  world_of (base ++ [(data, Dir perm_0755); (users, Dir perm_0755);
                     ("John.json" :: users, File perm_0644 (bytes ("true" +:+ nl)));
                     ("old" :: users, Dir perm_0755);
                     ("tmp" :: users, Dir perm_0755)]).

(** The directory users may not be written (mode 0555). *)
Definition w_readonly : World :=
  world_of (base ++ [(data, Dir perm_0755); (users, Dir 0x16D%N);
                     ("John.json" :: users, File perm_0644 (bytes ("true" +:+ nl)))]).

(** Two documents, users/John.json and users/Jane.json. *)
Definition w_pair : World :=
  world_of (base ++ [(data, Dir perm_0755); (users, Dir perm_0755);
                     ("John.json" :: users, File perm_0644 (bytes ("true" +:+ nl)));
                     ("Jane.json" :: users, File perm_0644 (bytes ("false" +:+ nl)))]).

(** A directory where the document users/John.json would be. *)
Definition w_dirdoc : World :=
  world_of (base ++ [(data, Dir perm_0755); (users, Dir perm_0755);
                     ("John.json" :: users, Dir perm_0755)]).

(** A value that encoding/json refuses, such as a channel. *)
Inductive chan := Chan.

Global Instance chan_codec : Codec chan := {|
  MarshalIndent := λ _ _ _, Err (JSONError "json: unsupported type: chan int");
  Unmarshal := λ _ v,
    (v, Some (JSONError "json: cannot unmarshal into Go value of type chan int"))
|}.

(** A codec for the users of the program, for the sample runs: a user is
    written as its name, and read back by that name among the employees. *)
Definition user_bytes (u : Program.User) : list Byte.byte :=
  bytes (Program.Name u).

Global Instance user_codec : Codec Program.User := {|
  MarshalIndent := λ u _ _, Ok (user_bytes u);
  Unmarshal := λ data v,
    match List.find (λ u, bool_decide (user_bytes u ++ [Byte.x0a] = data))
                    Program.employee with
    | Some u => (u, None)
    | None => (v, Some (JSONError "invalid character"))
    end
|}.

End Sample.

Global Arguments IsNotExist : simpl never.
Global Arguments Path.Clean : simpl never.
Global Arguments Path.Join : simpl never.
Global Arguments FS.locate : simpl never.
Global Arguments FS.find : simpl never.
Global Arguments FS.reach : simpl never.
Global Arguments FS.stat_of : simpl never.
Global Arguments FS.read_of : simpl never.
Global Arguments FS.readdir_of : simpl never.
Global Arguments FS.walk : simpl never.

Ltac io := unfold mbind, FS.IO_bind, mret, FS.IO_ret in *.

(* ===================================================================== *)
(** * Facts about paths                                                   *)
(* ===================================================================== *)

Module PathFacts.
Import Path.

(** Clean and Join on the cases of the Go documentation and on the paths of
    the driver. *)
Example Clean_inner : Clean "a//b/./c/.." = "a/b".
Proof. vm_compute; reflexivity. Qed.

Example Clean_above_root : Clean "/../a/" = "/a".
Proof. vm_compute; reflexivity. Qed.

Example Clean_leading_dotdot : Clean "../../a/../.." = "../../..".
Proof. vm_compute; reflexivity. Qed.

Example Clean_empty : Clean "" = "." ∧ Clean "./" = "." ∧ Clean "//" = "/".
Proof. vm_compute; done. Qed.

Example Join_record : Join ["data"; "users"; "John"] = "data/users/John".
Proof. vm_compute; reflexivity. Qed.

Example Join_skips_empty : Join [""; "users"; ""] = "users".
Proof. vm_compute; reflexivity. Qed.

Example Join_dot_resource :
  Join ["data/users"; "..json"] = "data/users/..json" ∧
  Join ["data"; "users"; "."] = "data/users".
Proof. vm_compute; done. Qed.

Lemma app_cons a s t : String a s +:+ t = String a (s +:+ t).
Proof. reflexivity. Qed.

Lemma app_empty_l t : "" +:+ t = t.
Proof. reflexivity. Qed.

Lemma app_empty_r s : s +:+ "" = s.
Proof. induction s as [|a s IH]; [done|]. by rewrite app_cons, IH. Qed.

Lemma app_assoc' s t u : (s +:+ t) +:+ u = s +:+ t +:+ u.
Proof. induction s as [|a s IH]; [done|]. by rewrite !app_cons, IH. Qed.

Lemma split_nonempty s : split s ≠ [].
Proof. destruct s as [|a s]; simpl; [done|]. destruct (IsPathSeparator a); [done|]. by destruct (split s). Qed.

Lemma split_cons_sep s : split (String "/" s) = "" :: split s.
Proof. reflexivity. Qed.

Lemma split_app a b : split (a +:+ "/" +:+ b) = split a ++ split b.
Proof.
  induction a as [|c a IH]; [done|].
  rewrite app_cons. simpl. rewrite IH.
  destruct (IsPathSeparator c); [done|].
  pose proof (split_nonempty a). by destruct (split a).
Qed.

Lemma split_no_slash s : no_slash s = true → split s = [s].
Proof.
  induction s as [|c s IH]; [done|]. simpl. intros [Hc Hs]%andb_prop.
  destruct (IsPathSeparator c); [done|]. by rewrite IH.
Qed.

Lemma split_elems s : Forall (λ c, no_slash c = true) (split s).
Proof.
  induction s as [|c s IH]; simpl; [by repeat constructor|].
  destruct (IsPathSeparator c) eqn:Hc; [by constructor|].
  destruct (split s) as [|x xs]; [repeat constructor; simpl; by rewrite Hc|].
  inversion_clear IH. constructor; [|done]. simpl. by rewrite Hc.
Qed.

Lemma join_cons x y ys : join (x :: y :: ys) = x +:+ "/" +:+ join (y :: ys).
Proof. reflexivity. Qed.

Lemma split_join xs :
  xs ≠ [] → Forall (λ c, no_slash c = true) xs → split (join xs) = xs.
Proof.
  induction xs as [|x [|y ys] IH]; [done|..]; intros _ Hxs.
  - simpl. apply split_no_slash. by inversion Hxs.
  - rewrite join_cons, split_app. inversion_clear Hxs.
    rewrite IH by done. by rewrite split_no_slash.
Qed.

(** Appending a suffix without separator changes the last element only. *)
Lemma split_suffix p s init l :
  no_slash s = true → split p = init ++ [l] → split (p +:+ s) = init ++ [l +:+ s].
Proof.
  intros Hs. revert init l. induction p as [|c p IH]; intros init l.
  - simpl. destruct init as [|? [|??]]; intros ?; simplify_eq/=.
    rewrite app_empty_l. by apply split_no_slash.
  - rewrite app_cons. simpl. destruct (IsPathSeparator c).
    + destruct init as [|i init]; simpl; intros Heq.
      { exfalso. injection Heq as _ Heq. by apply split_nonempty in Heq. }
      injection Heq as <- Heq. by rewrite (IH _ _ Heq).
    + pose proof (split_nonempty p).
      destruct (split p) as [|x xs] eqn:Hp; [done|].
      destruct init as [|i init]; simpl; intros Heq.
      * injection Heq as <- ->. by rewrite (IH [] x eq_refl).
      * injection Heq as <- ->. by rewrite (IH (x :: init) l eq_refl).
Qed.

Lemma join_cons' x ys : ys ≠ [] → join (x :: ys) = x +:+ "/" +:+ join ys.
Proof. by destruct ys. Qed.

Lemma join_snoc_suffix xs l s :
  join (xs ++ [l +:+ s]) = join (xs ++ [l]) +:+ s.
Proof.
  induction xs as [|x xs IH]; [done|]. simpl app.
  rewrite !join_cons' by (by destruct xs). by rewrite IH, !app_assoc'.
Qed.

Lemma rooted_app a b : a ≠ "" → rooted (a +:+ b) = rooted a.
Proof. by destruct a. Qed.


(** ** The buffer of Clean *)

Lemma proper_no_slash c : proper c = true → no_slash c = true.
Proof. unfold proper. intros H. by repeat (apply andb_prop in H as [H ?]). Qed.

Lemma proper_ne c :
  proper c = true → c ≠ "" ∧ c ≠ "." ∧ c ≠ "..".
Proof.
  unfold proper. intros H. repeat (apply andb_prop in H as [H ?]).
  repeat split; intros ->; done.
Qed.

Lemma cstep_proper rt b c :
  proper c = true → cstep rt b c = CBuf (cdd b) (c :: cst b).
Proof.
  intros (? & ? & ?)%proper_ne. unfold cstep.
  by rewrite !bool_decide_eq_false_2.
Qed.

Lemma cstep_valid rt b c :
  no_slash c = true → cvalid rt b → cvalid rt (cstep rt b c).
Proof.
  destruct b as [dd st]. intros Hc [Hst Hdd]. unfold cstep. simpl in *.
  repeat case_bool_decide; subst; try done.
  - destruct st as [|x st].
    + destruct rt; [done|]. split; simpl; [constructor|done].
    + split; simpl; [by inversion Hst|done].
  - split; simpl; [|done]. constructor; [|done].
    unfold proper. by rewrite !bool_decide_eq_false_2, Hc.
Qed.

Lemma foldl_cstep_valid rt cs b :
  Forall (λ c, no_slash c = true) cs → cvalid rt b →
  cvalid rt (foldl (cstep rt) b cs).
Proof.
  intros Hcs. revert b. induction Hcs as [|c cs Hc _ IH]; intros b Hb; [done|].
  simpl. apply IH. by apply cstep_valid.
Qed.

Lemma foldl_cstep_names rt cs b :
  Forall (λ c, proper c = true) cs →
  foldl (cstep rt) b cs = CBuf (cdd b) (reverse cs ++ cst b).
Proof.
  intros Hcs. revert b. induction Hcs as [|c cs Hc _ IH]; intros b.
  - by destruct b.
  - simpl. rewrite IH, cstep_proper by done. simpl.
    by rewrite reverse_cons, <-app_assoc.
Qed.

Lemma foldl_cstep_dotdots n b :
  cst b = [] →
  foldl (cstep false) b (replicate n "..") = CBuf (n + cdd b) [].
Proof.
  revert b. induction n as [|n IH]; intros [dd st] Hb; simpl in *; subst; [done|].
  rewrite IH by done. simpl. f_equal. lia.
Qed.

Lemma foldl_cstep_celems rt b :
  cvalid rt b → foldl (cstep rt) (CBuf 0 []) (celems b) = b.
Proof.
  intros [Hst Hdd]. unfold celems. rewrite foldl_app.
  assert (foldl (cstep rt) (CBuf 0 []) (replicate (cdd b) "..") = CBuf (cdd b) [])
    as ->.
  { destruct rt; [by rewrite Hdd|]. rewrite foldl_cstep_dotdots by done.
    simpl. f_equal. lia. }
  rewrite foldl_cstep_names by (by apply Forall_reverse).
  simpl. rewrite reverse_involutive, app_nil_r. by destruct b.
Qed.

Lemma celems_no_slash rt b :
  cvalid rt b → Forall (λ c, no_slash c = true) (celems b).
Proof.
  intros [Hst _]. unfold celems. apply Forall_app. split.
  - by apply Forall_replicate.
  - apply Forall_reverse. eapply Forall_impl; [done|]. apply proper_no_slash.
Qed.

Lemma celems_nil rt b : cvalid rt b → celems b = [] → b = CBuf 0 [].
Proof.
  intros _. unfold celems. destruct b as [[|dd] st]; simpl; [|done].
  intros Hst. f_equal. apply (f_equal reverse) in Hst.
  by rewrite reverse_involutive in Hst.
Qed.

(** Cleaning the cleaned path finds the same buffer again. *)
Lemma split_render rt b :
  cvalid rt b →
  foldl (cstep rt) (CBuf 0 []) (split (render rt b)) = b.
Proof.
  intros Hb. pose proof (celems_no_slash _ _ Hb) as Hns.
  pose proof (foldl_cstep_celems _ _ Hb) as Hf.
  unfold render. destruct rt.
  - rewrite app_cons, app_empty_l, split_cons_sep. simpl.
    destruct (celems b) as [|e es] eqn:He.
    + by rewrite (celems_nil _ _ Hb He).
    + by rewrite split_join.
  - destruct (celems b) as [|e es] eqn:He.
    + by rewrite (celems_nil _ _ Hb He).
    + by rewrite split_join.
Qed.

Lemma join_head_rooted e es :
  e ≠ "" → no_slash e = true → rooted (join (e :: es)) = false.
Proof.
  intros He Hns. destruct e as [|a e]; [done|].
  simpl in Hns. apply andb_prop in Hns as [Ha _].
  destruct es as [|y ys]; [|rewrite join_cons, app_cons]; simpl;
    by destruct (IsPathSeparator a).
Qed.

Lemma rooted_render rt b : cvalid rt b → rooted (render rt b) = rt.
Proof.
  intros [Hst Hdd]. unfold render. destruct rt; [done|].
  destruct (celems b) as [|e es] eqn:He; [done|].
  apply join_head_rooted.
  - unfold celems in He. destruct (cdd b); simpl in He.
    + destruct (reverse (cst b)) as [|x xs] eqn:Hr; simplify_eq/=.
      assert (e ∈ cst b) as Hin.
      { apply elem_of_reverse. rewrite Hr. left. }
      rewrite Forall_forall in Hst. by apply Hst, proper_ne in Hin as [? _].
    + by simplify_eq.
  - assert (Forall (λ c, no_slash c = true) (celems b)) as Hns
      by (by apply (celems_no_slash false)).
    rewrite He in Hns. by inversion Hns.
Qed.

Lemma join_nonempty e es : e ≠ "" → join (e :: es) ≠ "".
Proof. destruct e; [done|]. destruct es; [done|]. by rewrite join_cons, app_cons. Qed.

Lemma render_nonempty rt b : cvalid rt b → render rt b ≠ "".
Proof.
  intros Hb. pose proof (rooted_render _ _ Hb) as Hr. destruct rt.
  - by destruct (render true b).
  - unfold render in *. destruct (celems b) as [|e es] eqn:He; [done|].
    intros Hj. unfold celems in He. destruct Hb as [Hst _].
    destruct (cdd b); simpl in He.
    + destruct (reverse (cst b)) as [|x xs] eqn:Hrev; simplify_eq/=.
      assert (e ∈ cst b) as Hin by (apply elem_of_reverse; rewrite Hrev; left).
      rewrite Forall_forall in Hst. apply Hst, proper_ne in Hin as [Hne _].
      exact (join_nonempty _ _ Hne Hj).
    + simplify_eq. refine (join_nonempty ".." _ _ Hj). done.
Qed.

Lemma cvalid_init rt : cvalid rt (CBuf 0 []).
Proof. split; [constructor|done]. Qed.

Lemma cvalid_norm rt p : cvalid rt (foldl (cstep rt) (CBuf 0 []) (split p)).
Proof. apply foldl_cstep_valid; [apply split_elems|apply cvalid_init]. Qed.

Lemma Clean_nonempty p : Clean p ≠ "".
Proof.
  unfold Clean. case_bool_decide; [done|]. apply render_nonempty, cvalid_norm.
Qed.

Lemma rooted_Clean p : p ≠ "" → rooted (Clean p) = rooted p.
Proof.
  intros Hp. unfold Clean. rewrite bool_decide_eq_false_2 by done.
  apply rooted_render, cvalid_norm.
Qed.

(** The buffer of a cleaned path followed by more elements. *)
Lemma norm_Clean_app p q :
  p ≠ "" →
  foldl (cstep (rooted p)) (CBuf 0 []) (split (Clean p +:+ "/" +:+ q)) =
  foldl (cstep (rooted p)) (CBuf 0 []) (split (p +:+ "/" +:+ q)).
Proof.
  intros Hp. rewrite !split_app, !foldl_app. f_equal.
  unfold Clean. rewrite bool_decide_eq_false_2 by done.
  apply split_render, cvalid_norm.
Qed.

Lemma app_sep_nonempty a b : a +:+ "/" +:+ b ≠ "".
Proof. destruct a; [|rewrite app_cons]; done. Qed.

Lemma Clean_app_l p q :
  p ≠ "" → Clean (Clean p +:+ "/" +:+ q) = Clean (p +:+ "/" +:+ q).
Proof.
  intros Hp. pose proof (Clean_nonempty p) as Hc.
  unfold Clean at 1 3.
  rewrite !bool_decide_eq_false_2 by apply app_sep_nonempty.
  rewrite !rooted_app, rooted_Clean by done.
  by rewrite norm_Clean_app.
Qed.

Lemma Clean_idem p : Clean (Clean p) = Clean p.
Proof.
  destruct (decide (p = "")) as [->|Hp]; [done|].
  pose proof (Clean_nonempty p) as Hc.
  unfold Clean at 1. rewrite bool_decide_eq_false_2 by done.
  rewrite rooted_Clean by done. unfold Clean.
  rewrite bool_decide_eq_false_2 by done.
  by rewrite split_render by apply cvalid_norm.
Qed.

(** No redundant separator is left: every element of a cleaned path but a
    lone root is a name or a leading [..]. *)
Lemma Clean_elems p :
  ∃ b, cvalid (rooted (Clean p)) b ∧ Clean p = render (rooted (Clean p)) b.
Proof.
  destruct (decide (p = "")) as [->|Hp].
  - exists (CBuf 0 []). split; [apply cvalid_init|done].
  - rewrite rooted_Clean by done. eexists. split; [apply (cvalid_norm _ p)|].
    unfold Clean. by rewrite bool_decide_eq_false_2.
Qed.

Lemma Join2 a b : a ≠ "" → Join [a; b] = Clean (a +:+ "/" +:+ b).
Proof. intros Ha. unfold Join. by rewrite bool_decide_eq_false_2. Qed.

Lemma Join3 a b c :
  a ≠ "" → Join [a; b; c] = Clean (a +:+ "/" +:+ b +:+ "/" +:+ c).
Proof. intros Ha. unfold Join. by rewrite bool_decide_eq_false_2. Qed.

Lemma Join_Join a b c : a ≠ "" → Join [Join [a; b]; c] = Join [a; b; c].
Proof.
  intros Ha. rewrite (Join2 a), Join2, Join3 by (done || apply Clean_nonempty).
  rewrite Clean_app_l by apply app_sep_nonempty. by rewrite app_assoc'.
Qed.



Lemma no_slash_app l s :
  no_slash l = true → no_slash s = true → no_slash (l +:+ s) = true.
Proof.
  intros Hl Hs. induction l as [|a l IH]; [done|]. rewrite app_cons. simpl in *.
  apply andb_prop in Hl as [-> Hl]. simpl. by apply IH.
Qed.

Lemma app_length s t : String.length (s +:+ t) = String.length s + String.length t.
Proof. induction s as [|a s IH]; [done|]. rewrite app_cons. simpl. by rewrite IH. Qed.

(** An element that ends in [.json] or [.tmp] is a real name. *)
Lemma proper_ext l s :
  no_slash l = true → no_slash s = true → 3 ≤ String.length s →
  proper (l +:+ s) = true.
Proof.
  intros Hl Hs Hlen. unfold proper.
  rewrite no_slash_app by done.
  rewrite !bool_decide_eq_false_2; [done|..];
    intros Heq%(f_equal String.length); rewrite app_length in Heq; simpl in Heq; lia.
Qed.

(** Cleaning commutes with a suffix put on a last element that is a name. *)
Lemma Clean_suffix p s init l :
  split p = init ++ [l] → proper l = true → no_slash s = true →
  proper (l +:+ s) = true →
  Clean (p +:+ s) = Clean p +:+ s.
Proof.
  intros Hp Hl Hs Hls.
  assert (p ≠ "") as Hne.
  { intros ->. destruct init as [|? [|??]]; simplify_eq/=. }
  unfold Clean. rewrite !bool_decide_eq_false_2 by (done || by destruct p).
  rewrite rooted_app by done.
  rewrite (split_suffix _ _ _ _ Hs Hp), Hp, !foldl_app. simpl.
  rewrite !cstep_proper by done.
  set (b := foldl _ _ init). unfold render, celems. simpl.
  rewrite !reverse_cons, !app_assoc.
  set (xs := replicate _ _ ++ reverse _).
  destruct (rooted p).
  - by rewrite join_snoc_suffix, app_assoc'.
  - destruct xs as [|x xs']; [done|]. apply (join_snoc_suffix (x :: xs')).
Qed.

Lemma named_split p :
  named p = true → ∃ init l, split p = init ++ [l] ∧ proper l = true.
Proof.
  unfold named. destruct (split p) as [|x xs] eqn:Hp using rev_ind; [done|].
  rewrite last_snoc. eauto.
Qed.

Lemma named_app p q : named q = true → named (p +:+ "/" +:+ q) = true.
Proof.
  intros (init & l & Hq & Hl)%named_split. unfold named.
  by rewrite split_app, Hq, app_assoc, last_snoc.
Qed.

Lemma named_suffix p s :
  no_slash s = true → 3 ≤ String.length s → named (p +:+ s) = true.
Proof.
  intros Hs Hlen. unfold named.
  pose proof (split_nonempty p) as Hne.
  destruct (split p) as [|x xs] eqn:Hp using rev_ind; [done|].
  rewrite (split_suffix _ _ _ _ Hs Hp), last_snoc.
  apply proper_ext; [|done..].
  pose proof (split_elems p) as Hel. rewrite Hp in Hel.
  apply Forall_app in Hel as [_ Hel]. by inversion Hel.
Qed.

Lemma Join1 a : a ≠ "" → Join [a] = Clean a.
Proof. intros Ha. unfold Join. by rewrite bool_decide_eq_false_2. Qed.

Lemma Join_skip a rest : Join ("" :: a :: rest) = Join (a :: rest).
Proof. reflexivity. Qed.

(** Write and Read name the same file when the resource ends in a name. *)
Lemma Join_named d c r :
  c ≠ "" → named r = true →
  Join [Join [d; c]; r +:+ ".json"] = Join [d; c; r] +:+ ".json".
Proof.
  intros Hc Hr.
  assert (∀ q, q ≠ "" →
            Clean (q +:+ "/" +:+ r +:+ ".json") = Clean (q +:+ "/" +:+ r) +:+ ".json")
    as Hsuf.
  { intros q Hq. pose proof (named_app q r Hr) as Hn.
    apply named_split in Hn as (init & l & Hsp & Hl).
    rewrite <-(Clean_suffix _ ".json" init l); [|done..|].
    - by rewrite !app_assoc'.
    - apply proper_ext; [by apply proper_no_slash|done|simpl; lia]. }
  destruct (decide (d = "")) as [->|Hd].
  - rewrite !Join_skip, Join1, !Join2 by (done || apply Clean_nonempty).
    rewrite Clean_app_l by done. by apply Hsuf.
  - rewrite Join_Join, !Join3 by done.
    pose proof (Hsuf (d +:+ "/" +:+ c) (app_sep_nonempty _ _)) as Hq.
    by rewrite !app_assoc' in Hq.
Qed.



Lemma celems_push b c : celems (CBuf (cdd b) (c :: cst b)) = celems b ++ [c].
Proof. unfold celems. simpl. by rewrite reverse_cons, app_assoc. Qed.

Lemma foldl_snoc {A B} (f : A → B → A) a l x :
  foldl f a (l ++ [x]) = f (foldl f a l) x.
Proof. by rewrite foldl_app. Qed.

(** Feeding the elements of a relative buffer and one more element is
    feeding the elements of the buffer after that element. *)
Lemma cstep_celems_snoc rt b0 b c :
  cvalid false b → no_slash c = true →
  foldl (cstep rt) b0 (celems b ++ [c]) =
  foldl (cstep rt) b0 (celems (cstep false b c)).
Proof.
  intros [Hst _] Hns. rewrite foldl_snoc.
  destruct (decide (c = "")) as [->|H1]; [reflexivity|].
  destruct (decide (c = ".")) as [->|H2]; [reflexivity|].
  destruct (decide (c = "..")) as [->|H3].
  - destruct b as [dd [|x st]]; simpl.
    + unfold celems. simpl. rewrite !app_nil_r.
      clear. revert b0. induction dd as [|dd IH]; intros b0; [done|].
      simpl. by rewrite IH.
    + change (CBuf dd (x :: st)) with (CBuf (cdd (CBuf dd st)) (x :: cst (CBuf dd st))).
      rewrite celems_push, foldl_snoc.
      inversion_clear Hst as [|?? Hx _]. simpl in Hx.
      rewrite (cstep_proper _ _ x) by done.
      unfold cstep. simpl. by destruct (foldl _ _ _).
  - assert (proper c = true) as Hc.
    { unfold proper. by rewrite !bool_decide_eq_false_2, Hns. }
    rewrite (cstep_proper false) by done. by rewrite celems_push, foldl_snoc.
Qed.

Lemma foldl_cstep_celems_app rt b0 b cs :
  Forall (λ c, no_slash c = true) cs → cvalid false b →
  foldl (cstep rt) b0 (celems b ++ cs) =
  foldl (cstep rt) b0 (celems (foldl (cstep false) b cs)).
Proof.
  intros Hcs. revert b. induction Hcs as [|c cs Hc _ IH]; intros b Hb.
  { by rewrite app_nil_r. }
  simpl. rewrite <-IH by (by apply cstep_valid).
  rewrite (cons_middle c), app_assoc, !(foldl_app _ _ cs).
  by rewrite cstep_celems_snoc.
Qed.

Lemma foldl_cstep_Clean rt b0 q :
  q ≠ "" → rooted q = false →
  foldl (cstep rt) b0 (split (Clean q)) = foldl (cstep rt) b0 (split q).
Proof.
  intros Hq Hrel. unfold Clean. rewrite bool_decide_eq_false_2, Hrel by done.
  pose proof (cvalid_norm false q) as Hb.
  pose proof (foldl_cstep_celems_app rt b0 (CBuf 0 []) (split q) (split_elems q)
                (cvalid_init false)) as Happ.
  simpl in Happ. rewrite Happ.
  set (b := foldl _ _ (split q)) in *.
  unfold render. destruct (celems b) as [|e es] eqn:He; [done|].
  rewrite split_join; [done..|]. rewrite <-He. by eapply celems_no_slash.
Qed.

Lemma Clean_app_r p q :
  p ≠ "" → q ≠ "" → rooted q = false →
  Clean (p +:+ "/" +:+ Clean q) = Clean (p +:+ "/" +:+ q).
Proof.
  intros Hp Hq Hrel. unfold Clean at 1 3.
  rewrite !bool_decide_eq_false_2 by apply app_sep_nonempty.
  rewrite !rooted_app by done. rewrite !split_app, !foldl_app.
  by rewrite foldl_cstep_Clean.
Qed.

Lemma Join_trailing c : c ≠ "" → Join [c; ""] = Clean c.
Proof.
  intros Hc. rewrite Join2 by done. unfold Clean.
  rewrite !bool_decide_eq_false_2 by (done || apply app_sep_nonempty).
  rewrite rooted_app by done. by rewrite split_app, foldl_app.
Qed.

(** Delete with an empty resource and ReadAll name the same directory for a
    collection name that is not rooted. *)
Lemma Join_collection d c :
  c ≠ "" → rooted c = false →
  Join [d; Join [c; ""]] = Join [d; c].
Proof.
  intros Hc Hrel. rewrite Join_trailing by done.
  destruct (decide (d = "")) as [->|Hd].
  - rewrite !Join_skip, !Join1 by (done || apply Clean_nonempty).
    apply Clean_idem.
  - rewrite !Join2 by done. by apply Clean_app_r.
Qed.

End PathFacts.

Module LocateFacts.
Import Path PathFacts FS.


Lemma tail_drop {A} n (l : list A) : tail (drop n l) = drop (S n) l.
Proof.
  revert l. induction n as [|n IH]; intros [|x l]; simpl; try done.
Qed.

Lemma lstep_proper k c : proper c = true → lstep k c = c :: k.
Proof.
  intros (? & ? & ?)%proper_ne. unfold lstep.
  by rewrite !bool_decide_eq_false_2.
Qed.

(** Resolution on the names follows the buffer of Clean. *)
Lemma foldl_lstep_cstep rt base cs b :
  (rt = true → base = []) →
  foldl lstep (cst b ++ drop (cdd b) base) cs =
  cst (foldl (cstep rt) b cs) ++ drop (cdd (foldl (cstep rt) b cs)) base.
Proof.
  intros Hrt. revert b. induction cs as [|c cs IH]; intros b; [done|].
  simpl. rewrite <-IH. f_equal.
  unfold lstep, cstep. repeat case_bool_decide; try done.
  destruct b as [dd [|x st]]; simpl.
  - destruct rt; simpl.
    + rewrite Hrt by done. by rewrite !drop_nil.
    + apply tail_drop.
  - done.
Qed.

Lemma locate_buf wd p :
  locate wd p =
  let b := foldl (cstep (rooted p)) (CBuf 0 []) (split p) in
  cst b ++ drop (cdd b) (base_of wd p).
Proof.
  unfold locate. simpl.
  rewrite <-(foldl_lstep_cstep (rooted p)); [done|].
  unfold base_of. by intros ->.
Qed.

Lemma locate_Clean wd p : p ≠ "" → locate wd (Clean p) = locate wd p.
Proof.
  intros Hp. rewrite !locate_buf. simpl. unfold base_of.
  rewrite rooted_Clean by done.
  unfold Clean. rewrite bool_decide_eq_false_2 by done.
  by rewrite split_render by apply cvalid_norm.
Qed.

Lemma locate_app wd p q :
  p ≠ "" → locate wd (p +:+ "/" +:+ q) = foldl lstep (locate wd p) (split q).
Proof.
  intros Hp. unfold locate. by rewrite rooted_app, split_app, foldl_app.
Qed.

(** The place of an entry of a directory. *)
Lemma locate_Join_child wd d c :
  d ≠ "" → proper c = true → locate wd (Join [d; c]) = c :: locate wd d.
Proof.
  intros Hd Hc. rewrite Join2, locate_Clean, locate_app by (done || apply app_sep_nonempty).
  rewrite split_no_slash by (by apply proper_no_slash). simpl.
  by apply lstep_proper.
Qed.

(** The place of a path that ends in a name, and of the path with a suffix
    on that name: same directory, different names. *)
Lemma locate_named wd p :
  named p = true → ∃ x up, locate wd p = x :: up ∧ proper x = true ∧
    ∀ s, no_slash s = true → 3 ≤ String.length s →
         locate wd (p +:+ s) = (x +:+ s) :: up.
Proof.
  intros (init & l & Hp & Hl)%named_split.
  assert (p ≠ "") as Hne.
  { intros ->. destruct init as [|? [|??]]; simplify_eq/=. }
  exists l, (foldl lstep (base_of wd p) init). split_and!; [|done|].
  - unfold locate. rewrite Hp, foldl_app. simpl. by apply lstep_proper.
  - intros s Hs Hlen. unfold locate.
    rewrite (split_suffix _ _ _ _ Hs Hp), rooted_app, foldl_app by done. simpl.
    apply lstep_proper, proper_ext; [by apply proper_no_slash|done..].
Qed.

Lemma named_Clean p : p ≠ "" → named p = true → named (Clean p) = true.
Proof.
  intros Hne (init & l & Hp & Hl)%named_split.
  unfold Clean. rewrite bool_decide_eq_false_2 by done.
  rewrite Hp, foldl_app. simpl. rewrite cstep_proper by done.
  set (b := foldl _ _ init).
  assert (cvalid (rooted p) b) as Hb.
  { apply foldl_cstep_valid; [|apply cvalid_init].
    pose proof (split_elems p) as Hel. rewrite Hp in Hel.
    by apply Forall_app in Hel as [? _]. }
  assert (cvalid (rooted p) (CBuf (cdd b) (l :: cst b))) as Hb'.
  { destruct Hb. split; [by constructor|done]. }
  pose proof (celems_no_slash _ _ Hb') as Hns.
  unfold named, render.
  assert (celems (CBuf (cdd b) (l :: cst b)) = celems b ++ [l]) as He.
  { unfold celems. simpl. by rewrite reverse_cons, app_assoc. }
  rewrite He in *.
  destruct (rooted p).
  - rewrite app_cons, app_empty_l, split_cons_sep.
    rewrite split_join by (done || by destruct (celems b)).
    by rewrite last_cons, last_snoc.
  - destruct (celems b ++ [l]) as [|y ys] eqn:Hy; [by destruct (celems b)|].
    rewrite split_join by done. by rewrite <-Hy, last_snoc.
Qed.


Lemma named_Join3 d c r :
  c ≠ "" → named r = true → named (Join [d; c; r]) = true.
Proof.
  intros Hc Hr. destruct (decide (d = "")) as [->|Hd].
  - rewrite Join_skip, Join2 by done.
    apply named_Clean; [apply app_sep_nonempty|]. by apply named_app.
  - rewrite Join3 by done.
    apply named_Clean; [apply app_sep_nonempty|]. by do 2 apply named_app.
Qed.

End LocateFacts.

Module TreeFacts.
Import Path PathFacts FS LocateFacts.

Lemma walk_cons t c up :
  walk t (c :: up) =
  match walk t up with
  | Some e => Some e
  | None =>
      match t !! up with
      | None => Some ENOENT
      | Some (File _ _) => Some ENOTDIR
      | Some (Dir p) => if may_search p then None else Some EACCES
      end
  end.
Proof. reflexivity. Qed.

Lemma wf_parent t c up n :
  well_formed t → t !! (c :: up) = Some n → ∃ p, t !! up = Some (Dir p).
Proof.
  intros Hwf Hk. apply Hwf in Hk. unfold entry_ok in Hk.
  apply andb_prop in Hk as [_ Hk]. unfold is_dir in Hk.
  destruct (t !! up) as [[]|]; naive_solver.
Qed.

Lemma wf_names t k n :
  well_formed t → t !! k = Some n → Forall (λ c, proper c = true) k.
Proof.
  intros Hwf Hk. apply Hwf in Hk. unfold entry_ok in Hk.
  apply andb_prop in Hk as [Hk _]. by apply bool_decide_eq_true in Hk.
Qed.

(** The walk to an entry of a well-formed tree is the same in every larger
    tree. *)
Lemma walk_present t t' k n :
  well_formed t → t ⊆ t' → t !! k = Some n → walk t' k = walk t k.
Proof.
  intros Hwf Hsub. revert n. induction k as [|c up IH]; intros n Hk; [done|].
  destruct (wf_parent _ _ _ _ Hwf Hk) as [p Hup]. rewrite !walk_cons.
  rewrite (IH _ Hup), Hup. by rewrite (lookup_weaken _ _ _ _ Hup Hsub).
Qed.

(** The walk only looks at the places above. *)
Lemma walk_agree t t' k :
  (∀ up, up `suffix_of` tail k → t' !! up = t !! up) → walk t' k = walk t k.
Proof.
  induction k as [|c up IH]; intros Hag; [done|]. rewrite !walk_cons. simpl in *.
  assert (walk t' up = walk t up) as ->.
  { destruct up as [|c' up']; [done|]. apply IH. intros u Hu. apply Hag.
    simpl in Hu. by apply suffix_cons_r. }
  by rewrite (Hag up).
Qed.

Lemma walk_insert_beside t c c' up n :
  walk (<[c' :: up := n]> t) (c :: up) = walk t (c :: up).
Proof.
  apply walk_agree. intros u Hu. simpl in Hu. apply lookup_insert_ne.
  intros <-. apply suffix_length in Hu. simpl in Hu. lia.
Qed.

Lemma walk_delete_beside t c c' up :
  walk (delete (c' :: up) t) (c :: up) = walk t (c :: up).
Proof.
  apply walk_agree. intros u Hu. simpl in Hu. apply lookup_delete_ne.
  intros <-. apply suffix_length in Hu. simpl in Hu. lia.
Qed.

(** ** MkdirAll only adds directories *)
Lemma adds_dirs_refl t : adds_dirs t t.
Proof. by split. Qed.

Lemma mkdir_at_adds perm t k r t1 :
  mkdir_at perm t k = (r, t1) → adds_dirs t t1.
Proof.
  unfold mkdir_at. intros Heq. repeat case_match; simplify_eq; try apply adds_dirs_refl.
  split; [by apply insert_subseteq|].
  intros k' p d. destruct (decide (k' = k)) as [->|Hne].
  - by rewrite lookup_insert_eq.
  - by rewrite lookup_insert_ne.
Qed.

Lemma adds_dirs_trans t t1 t2 : adds_dirs t t1 → adds_dirs t1 t2 → adds_dirs t t2.
Proof. intros [H1 H2] [H3 H4]. split; [by etrans|naive_solver]. Qed.

Lemma mkdir_all_at_adds perm t k r t1 :
  mkdir_all_at perm t k = (r, t1) → adds_dirs t t1.
Proof.
  revert r t1. induction k as [|c up IH]; intros r t1; simpl.
  - intros Heq. repeat case_match; simplify_eq; try apply adds_dirs_refl;
      by eapply mkdir_at_adds.
  - destruct (mkdir_all_at perm t up) as [r' t'] eqn:Hrec.
    specialize (IH _ _ eq_refl).
    intros Heq. repeat case_match; simplify_eq; try apply adds_dirs_refl; try done.
    all: eapply adds_dirs_trans; [done|]; by eapply mkdir_at_adds.
Qed.

(** A regular file of a well-formed tree is seen the same once directories
    are added. *)
Lemma regular_adds w w1 name :
  well_formed (files w) → cwd w1 = cwd w → adds_dirs (files w) (files w1) →
  regular w1 name = regular w name.
Proof.
  intros Hwf Hcwd [Hsub Hfile]. unfold regular, find. rewrite Hcwd.
  case_bool_decide; [done|]. set (k := locate (cwd w) name).
  destruct (files w !! k) as [n|] eqn:Hk.
  - rewrite (walk_present _ _ _ _ Hwf Hsub Hk).
    by rewrite (lookup_weaken _ _ _ _ Hk Hsub).
  - assert (∀ p d, files w1 !! k ≠ Some (File p d)) as Hno.
    { intros p d Hf. apply Hfile in Hf. congruence. }
    destruct (walk (files w1) k), (walk (files w) k); try done;
      destruct (files w1 !! k) as [[]|]; naive_solver.
Qed.

(** ** WriteFile *)
Lemma write_at_inv data perm t k r t2 :
  write_at data perm t k = (r, t2) →
  (r = None ∧ ∃ p, t2 = <[k := File p data]> t ∧
     (t !! k = None ∧ p = N.land perm ModePerm ∨ ∃ d0, t !! k = Some (File p d0)))
  ∨ (is_Some r ∧ t2 = t).
Proof.
  unfold write_at. intros Heq. repeat case_match; simplify_eq; eauto 10.
Qed.

(** ** Rename of a regular file *)
Lemma rename_at_err t ko kn e t3 : rename_at t ko kn = (Some e, t3) → t3 = t.
Proof. unfold rename_at. intros Heq. repeat case_match; by simplify_eq. Qed.

Lemma rename_at_file t ko kn p data t3 :
  t !! ko = Some (File p data) → rename_at t ko kn = (None, t3) →
  t3 = <[kn := File p data]> (delete ko t) ∧ walk t kn = None ∧
  is_dir (t !! kn) = false.
Proof.
  intros Hko. unfold rename_at. rewrite Hko. intros Heq.
  repeat case_match; simplify_eq; done.
Qed.

(** ** Entries of a directory *)
Lemma children_elem t k c n : (c, n) ∈ children t k ↔ t !! (c :: k) = Some n.
Proof.
  unfold children. rewrite list_elem_of_omap. split.
  - intros ([k' n'] & Hin & Hm). apply elem_of_map_to_list in Hin.
    destruct k' as [|c' up]; [done|]. case_bool_decide; by simplify_eq.
  - intros Hk. exists (c :: k, n). split; [by apply elem_of_map_to_list|].
    by rewrite bool_decide_eq_true_2.
Qed.

(** ** RemoveAll *)

Lemma pruned_refl kp t : pruned kp t t.
Proof. by split. Qed.

Lemma pruned_trans kp t t1 t2 : pruned kp t t1 → pruned kp t1 t2 → pruned kp t t2.
Proof.
  intros [H1 H2] [H3 H4]. split; [by etrans|]. intros k Hk.
  by rewrite H4, H2.
Qed.

Lemma children_nil t k : children t k = [] ↔ ∀ c, t !! (c :: k) = None.
Proof.
  split.
  - intros Hnil c. destruct (t !! (c :: k)) as [n|] eqn:Hk; [|done].
    apply children_elem in Hk. rewrite Hnil in Hk. by apply elem_of_nil in Hk.
  - intros Hnone. destruct (children t k) as [|[c n] es] eqn:Hch; [done|].
    assert ((c, n) ∈ children t k) as Hin by (rewrite Hch; left).
    apply children_elem in Hin. by rewrite Hnone in Hin.
Qed.

(** Removing an entry that has nothing inside keeps the tree well formed. *)
Lemma wf_delete_leaf t v :
  well_formed t → (∀ c, t !! (c :: v) = None) → well_formed (delete v t).
Proof.
  intros Hwf Hleaf k n Hk. apply lookup_delete_Some in Hk as [Hne Hk].
  pose proof (Hwf _ _ Hk) as Hok. unfold entry_ok in *.
  apply andb_prop in Hok as [Hnames Hpar]. rewrite Hnames. simpl.
  destruct k as [|c up]; [done|].
  rewrite lookup_delete_ne; [done|]. intros <-. by rewrite Hleaf in Hk.
Qed.

Lemma wf_file_leaf t v p data c :
  well_formed t → t !! v = Some (File p data) → t !! (c :: v) = None.
Proof.
  intros Hwf Hv. destruct (t !! (c :: v)) as [n|] eqn:Hc; [|done].
  apply (wf_parent _ _ _ _ Hwf) in Hc as [q Hq]. congruence.
Qed.

Lemma try_unlink_spec kp t v :
  well_formed t → below kp v = true →
  well_formed (try_unlink kp t v) ∧ pruned kp t (try_unlink kp t v).
Proof.
  intros Hwf Hbelow. unfold try_unlink.
  destruct v as [|c d]; [split; [done|apply pruned_refl]|].
  destruct (t !! (c :: d)) as [n|] eqn:Hv; [|split; [done|apply pruned_refl]].
  destruct (_ && _) eqn:Hcond; [|split; [done|apply pruned_refl]].
  apply andb_prop in Hcond as [_ Hleaf].
  split.
  - apply wf_delete_leaf; [done|]. intros c'. destruct n as [p data|p].
    + by eapply wf_file_leaf.
    + unfold is_empty_dir in Hleaf. apply bool_decide_eq_true in Hleaf.
      by apply children_nil.
  - split; [apply delete_subseteq|]. intros k Hk.
    apply lookup_delete_ne. intros <-. congruence.
Qed.

Lemma foldl_try_unlink kp t vs :
  well_formed t → Forall (λ v, below kp v = true) vs →
  well_formed (foldl (try_unlink kp) t vs) ∧
  pruned kp t (foldl (try_unlink kp) t vs).
Proof.
  intros Hwf Hvs. revert t Hwf. induction Hvs as [|v vs Hv _ IH]; intros t Hwf.
  { split; [done|apply pruned_refl]. }
  simpl. destruct (try_unlink_spec kp t v Hwf Hv) as [Hwf1 Hpr1].
  destruct (IH _ Hwf1) as [Hwf2 Hpr2]. split; [done|]. by eapply pruned_trans.
Qed.

Lemma below_refl kp : below kp kp = false.
Proof. unfold below. by rewrite (bool_decide_eq_true_2 (kp = kp)), andb_false_r. Qed.

(** Under a missing place of a well-formed tree there is nothing. *)
Lemma wf_nothing_below t kp k :
  well_formed t → t !! kp = None → kp `suffix_of` k → t !! k = None.
Proof.
  intros Hwf Hkp [pre ->]. induction pre as [|c pre IH]; [done|].
  simpl. destruct (t !! (c :: pre ++ kp)) as [n|] eqn:Hk; [|done].
  apply (wf_parent _ _ _ _ Hwf) in Hk as [p Hp]. congruence.
Qed.

(** A RemoveAll that reports no error has removed the place and everything
    below it, and nothing else. *)
Lemma remove_all_at_ok t kp t' :
  well_formed t → remove_all_at t kp = (None, t') →
  well_formed t' ∧ t' ⊆ t ∧ (∀ k, kp `suffix_of` k → t' !! k = None) ∧
  (∀ k, ¬ kp `suffix_of` k → t' !! k = t !! k).
Proof.
  intros Hwf. unfold remove_all_at.
  set (vs := merge_sort _ _).
  assert (Forall (λ v, below kp v = true) vs) as Hvs.
  { unfold vs. rewrite merge_sort_Permutation. apply Forall_forall.
    by intros v [Hv _]%list_elem_of_filter. }
  destruct (foldl_try_unlink kp t vs Hwf Hvs) as [Hwf1 [Hsub1 Hsame1]].
  set (t1 := foldl _ _ _) in *.
  assert (∀ k, ¬ kp `suffix_of` k → below kp k = false) as Hnb.
  { intros k Hk. unfold below. by rewrite bool_decide_eq_false_2. }
  unfold remove_at. intros Heq.
  assert (well_formed t' ∧ t' ⊆ t ∧ t' !! kp = None ∧
          ∀ k, ¬ kp `suffix_of` k → t' !! k = t !! k) as (Hwf' & Hsub' & Hgone & Hrest).
  { destruct (t1 !! kp) as [n|] eqn:Hkp.
    2:{ simplify_eq. split_and!; [done..|]. intros k Hk. by apply Hsame1, Hnb. }
    destruct kp as [|c up]; [done|].
    destruct (negb _); [done|].
    assert (t' = delete (c :: up) t1 ∧ ∀ c', t1 !! (c' :: c :: up) = None)
      as [-> Hleaf].
    { destruct n as [p data|p].
      - simplify_eq. split; [done|]. intros c'. by eapply wf_file_leaf.
      - destruct (is_empty_dir t1 (c :: up)) eqn:He; [|done]. simplify_eq.
        split; [done|]. apply children_nil. by apply bool_decide_eq_true in He. }
    split_and!.
    - by apply wf_delete_leaf.
    - etrans; [apply delete_subseteq|done].
    - apply lookup_delete_eq.
    - intros k Hk. rewrite lookup_delete_ne; [by apply Hsame1, Hnb|].
      intros <-. by apply Hk. }
  split_and!; [done..| |done].
  intros k Hk. by eapply wf_nothing_below.
Qed.

(** ** Probing a smaller tree *)
Lemma walk_subset t t' k :
  t' ⊆ t → walk t' k = walk t k ∨ walk t' k = Some ENOENT.
Proof.
  intros Hsub. induction k as [|c up IH]; [by left|].
  rewrite !walk_cons.
  destruct IH as [->| ->]; [|by right].
  destruct (walk t up); [by left|].
  destruct (t' !! up) as [n|] eqn:Hup; [|by right].
  rewrite (lookup_weaken _ _ _ _ Hup Hsub). by left.
Qed.

Lemma find_enoent_subset wd t t' name :
  t' ⊆ t → find wd t name = inl ENOENT → find wd t' name = inl ENOENT.
Proof.
  intros Hsub. unfold find. case_bool_decide; [done|].
  set (k := locate wd name).
  destruct (walk_subset t t' k Hsub) as [->| ->]; [|done].
  destruct (walk t k); [done|].
  destruct (t !! k) as [n|] eqn:Hk; [done|].
  by rewrite (lookup_weaken_None _ _ _ Hk Hsub).
Qed.

End TreeFacts.

(* ===================================================================== *)
(** * Facts about the driver                                              *)
(* ===================================================================== *)

Import PathFacts LocateFacts TreeFacts.

Section WriteRead.
Context `{Codec V}.

Lemma Write_unfold d c r v w :
  c ≠ "" → r ≠ "" →
  Write d c r v w =
  let '(m, w1) := getOrCreateMutex d c w in
  let '(res, w2) := Write_locked d c r v (emit (EvLock m) w1) in
  (res, emit (EvUnlock m) w2).
Proof.
  intros Hc Hr. unfold Write. rewrite !bool_decide_eq_false_2 by done.
  io. destruct (getOrCreateMutex d c w) as [m w1]. simpl.
  unfold Write_locked. io. done.
Qed.

(** C2. Write with an empty collection name, or with an empty resource name,
    returns a validation error and leaves the world as it was: no lock is
    asked for, no call reaches the file system, the trace gets no event. *)
Theorem Write_empty_name_fails_before_any_effect (d : Driver) (c r : string)
    (v : V) (w : World) :
  Write d "" r v w = (Some (Errorf "collection name cannot be empty" []), w) ∧
  ValidationError (Errorf "collection name cannot be empty" []) = true ∧
  ∃ e, Write d c "" v w = (Some e, w) ∧ ValidationError e = true.
Proof.
  split; [done|]. split; [done|]. unfold Write.
  case_bool_decide; eexists; split; reflexivity.
Qed.

Lemma getOrCreateMutex_fs d c w :
  cwd (getOrCreateMutex d c w).2 = cwd w ∧ files (getOrCreateMutex d c w).2 = files w.
Proof.
  unfold getOrCreateMutex. io. simpl. by destruct (_ ≫= _).
Qed.

Lemma on_place_inv op name ev f w r w1 :
  on_place op name ev f w = (r, w1) →
  cwd w1 = cwd w ∧ trace w1 = trace w ++ [ev] ∧
  ((∃ e, reach (cwd w) (files w) name = inl e ∧ r = Some (perr op name e) ∧
         files w1 = files w) ∨
   (∃ ro, reach (cwd w) (files w) name = inr (locate (cwd w) name) ∧
          walk (files w) (locate (cwd w) name) = None ∧
          f (files w) (locate (cwd w) name) = (ro, files w1) ∧
          r = perr op name <$> ro)).
Proof.
  unfold on_place. destruct (reach _ _ _) as [e|k] eqn:Hr.
  - intros ?; simplify_eq. split_and!; [done..|]. left. eauto.
  - destruct (f (files w) k) as [ro t'] eqn:Hf. intros ?; simplify_eq.
    split_and!; [done..|]. right. unfold reach in Hr.
    repeat case_match; simplify_eq. exists ro. by rewrite Hf.
Qed.

Lemma MkdirAll_inv path perm w r w1 :
  MkdirAll path perm w = (r, w1) →
  cwd w1 = cwd w ∧ trace w1 = trace w ++ [EvMkdirAll path perm] ∧
  adds_dirs (files w) (files w1).
Proof.
  unfold MkdirAll. case_bool_decide.
  - intros ?; simplify_eq. split_and!; [done..|apply adds_dirs_refl].
  - destruct (mkdir_all_at _ _ _) as [ro t'] eqn:Hm. intros ?; simplify_eq.
    split_and!; [done..|]. by eapply mkdir_all_at_adds.
Qed.

Lemma Rename_inv old new w r w1 :
  Rename old new w = (r, w1) →
  cwd w1 = cwd w ∧ trace w1 = trace w ++ [EvRename old new] ∧
  ((is_Some r ∧ files w1 = files w) ∨
   (r = None ∧
    rename_at (files w) (locate (cwd w) old) (locate (cwd w) new) = (None, files w1))).
Proof.
  unfold Rename. destruct (_ || _).
  - intros ?; simplify_eq. split_and!; [done..|]. left. eauto.
  - destruct (rename_at _ _ _) as [[e|] t'] eqn:Hm; intros ?; simplify_eq;
      (split_and!; [done..|]).
    + left. apply rename_at_err in Hm. subst. eauto.
    + by right.
Qed.

(** The final path ends in a name; the temporary path is beside it. *)
Lemma final_path_named a r : named (Join [a; r +:+ ".json"]) = true.
Proof.
  assert (named (r +:+ ".json") = true) as Hn
    by (apply named_suffix; [done|simpl; lia]).
  assert (r +:+ ".json" ≠ "") as Hne by (by destruct r).
  destruct (decide (a = "")) as [->|Ha].
  - unfold Join. rewrite bool_decide_eq_true_2, bool_decide_eq_false_2 by done.
    by apply named_Clean.
  - rewrite Join2 by done. apply named_Clean; [apply app_sep_nonempty|].
    by apply named_app.
Qed.

Lemma temp_beside wd a r :
  ∃ x up, locate wd (Join [a; r +:+ ".json"]) = x :: up ∧
          locate wd (Join [a; r +:+ ".json"] +:+ ".tmp") = (x +:+ ".tmp") :: up.
Proof.
  destruct (locate_named wd _ (final_path_named a r)) as (x & up & Hx & _ & Hs).
  exists x, up. split; [done|]. apply Hs; [done|simpl; lia].
Qed.


Lemma Write_locked_inv d c r v w res w1 :
  Write_locked d c r v w = (res, w1) →
  let fnl := Join [Join [dir d; c]; r +:+ ".json"] in
  let tmp := fnl +:+ ".tmp" in
  let kf := locate (cwd w) fnl in
  let kt := locate (cwd w) tmp in
  ∃ t1, cwd w1 = cwd w ∧ adds_dirs (files w) t1 ∧
    ((is_Some res ∧ files w1 = t1) ∨
     (∃ b p, MarshalIndent v "" tab = Ok b ∧ walk t1 kt = None ∧
        (t1 !! kt = None ∧ p = N.land perm_0644 ModePerm ∨
         ∃ d0, t1 !! kt = Some (File p d0)) ∧
        let t2 := <[kt := File p (b ++ [Byte.x0a])]> t1 in
        ((is_Some res ∧ files w1 = t2) ∨
         (res = None ∧
          files w1 = <[kf := File p (b ++ [Byte.x0a])]> (delete kt t2) ∧
          walk t2 kf = None ∧ is_dir (t2 !! kf) = false ∧
          trace w1 = trace w ++
            [EvMkdirAll (Join [dir d; c]) perm_0755;
             EvWriteFile tmp (b ++ [Byte.x0a]) perm_0644;
             EvRename tmp fnl])))).
Proof.
  unfold Write_locked. io. intros Heq.
  destruct (MkdirAll _ _ w) as [e0 wa] eqn:Hmk.
  apply MkdirAll_inv in Hmk as (Hcwd_a & Htr_a & Hadds).
  simpl. exists (files wa).
  destruct e0 as [err|].
  { simplify_eq. split; [done|]. split; [done|]. left. eauto. }
  destruct (MarshalIndent v "" tab) as [b|err] eqn:Hmar.
  2:{ simplify_eq. split; [done|]. split; [done|]. left. eauto. }
  destruct (WriteFile _ _ _ wa) as [e1 wb] eqn:Hwr.
  apply on_place_inv in Hwr as (Hcwd_b & Htr_b & Hwr).
  destruct Hwr as [(e & Hreach & -> & Hfiles_b)|(ro & Hreach & Hwalk & Hwrite & ->)].
  { simplify_eq. split; [congruence|]. split; [done|]. left. rewrite Hfiles_b. eauto. }
  apply write_at_inv in Hwrite as [(-> & p & Hfiles_b & Hold)|([e He] & Hfiles_b)].
  2:{ rewrite He in Heq. simplify_eq/=. split; [congruence|]. split; [done|].
      left. rewrite Hfiles_b. eauto. }
  simpl in Heq. apply Rename_inv in Heq as (Hcwd & Htr & Hren).
  split; [congruence|]. split; [done|]. right.
  rewrite Hcwd_a in *. exists b, p. split_and!; [done..|].
  rewrite Hcwd_b, Hfiles_b in Hren.
  destruct Hren as [[Hres Hfiles]|[-> Hren]].
  { left. split; [done|]. by rewrite Hfiles. }
  right. eapply rename_at_file in Hren as (Hfiles & Hwalkf & Hdir);
    [|by rewrite lookup_insert_eq].
  split_and!; [done..|]. rewrite Htr, Htr_b, Htr_a. by rewrite <-!app_assoc.
Qed.

Lemma regular_beside w w1 name x x' up n :
  cwd w1 = cwd w → locate (cwd w) name = x :: up → x' ≠ x →
  files w1 = <[x' :: up := n]> (files w) →
  regular w1 name = regular w name.
Proof.
  intros Hcwd Hloc Hne Hfiles. unfold regular, find.
  rewrite Hcwd, Hfiles, Hloc. case_bool_decide; [done|].
  rewrite walk_insert_beside, lookup_insert_ne; [done|congruence].
Qed.

Lemma suffix_ne x s : s ≠ "" → x +:+ s ≠ x.
Proof.
  intros Hs Heq. apply (f_equal String.length) in Heq.
  rewrite app_length in Heq. destruct s; [done|simpl in Heq; lia].
Qed.


Lemma regular_same w w' name :
  cwd w' = cwd w → files w' = files w → regular w' name = regular w name.
Proof. intros Hc Hf. unfold regular. by rewrite Hc, Hf. Qed.

Lemma named_nonempty p : named p = true → p ≠ "".
Proof. by intros Hn ->. Qed.



Lemma stat_fst path w :
  (stat path w).1 =
  match stat_of w path with
  | Err e => if IsNotExist (Some e) then stat_of w (path +:+ ".json") else Err e
  | Ok fi => Ok fi
  end.
Proof.
  unfold stat, Stat. io. destruct (stat_of w path) as [fi|e] eqn:Hs; simpl; [done|].
  by destruct (IsNotExist (Some e)).
Qed.

Lemma stat_fs path w :
  cwd (stat path w).2 = cwd w ∧ files (stat path w).2 = files w.
Proof. unfold stat, Stat. io. simpl. by destruct (IsNotExist _). Qed.

Lemma read_of_same w w' name :
  cwd w' = cwd w → files w' = files w → read_of w' name = read_of w name.
Proof. intros Hc Hf. unfold read_of. by rewrite Hc, Hf. Qed.

Lemma Read_fst d c r (v0 : V) w :
  c ≠ "" → r ≠ "" →
  (Read d c r v0 w).1 =
  match (stat (Join [dir d; c; r]) w).1 with
  | Err e => (v0, Some e)
  | Ok _ =>
      match read_of w (Join [dir d; c; r] +:+ ".json") with
      | Err e => (v0, Some e)
      | Ok b => Unmarshal b v0
      end
  end.
Proof.
  intros Hc Hr. unfold Read. rewrite !bool_decide_eq_false_2 by done. io.
  pose proof (stat_fs (Join [dir d; c; r]) w) as [Hcwd Hfiles].
  destruct (stat _ w) as [[fi|e] w1]; simpl in *; [|done].
  unfold ReadFile. rewrite (read_of_same w w1) by done.
  by destruct (read_of w _).
Qed.

Lemma walk_sibling t c c' up : walk t (c :: up) = walk t (c' :: up).
Proof. reflexivity. Qed.

(** C1 (amended). For a non-empty collection and a resource whose last
    element is a real name (it does not end in a separator, in [.] or in
    [..]), for a value that the codec gives back from its own encoding, and
    when no read-protected file lies at the temporary path, a Write that
    succeeds followed by Read on the same store returns the value written. *)
Theorem Write_Read_roundtrip (d : Driver) (c r : string) (v v0 : V)
    (w w1 : World) :
  c ≠ "" → named r = true →
  (∀ p data,
     files w !! locate (cwd w) (Join [Join [dir d; c]; r +:+ ".json"] +:+ ".tmp")
       = Some (File p data) → may_read p = true) →
  (∀ b, MarshalIndent v "" tab = Ok b → Unmarshal (b ++ [Byte.x0a]) v0 = (v, None)) →
  Write d c r v w = (None, w1) →
  (Read d c r v0 w1).1 = (v, None).
Proof.
  intros Hc Hnamed Htemp Hcodec Hw.
  assert (r ≠ "") as Hr by (by apply named_nonempty).
  rewrite Write_unfold in Hw by done.
  pose proof (getOrCreateMutex_fs d c w) as [Hcwd0 Hfiles0].
  destruct (getOrCreateMutex d c w) as [m w0]. simpl in Hcwd0, Hfiles0.
  destruct (Write_locked d c r v _) as [res' w2] eqn:Hlocked. simplify_eq.
  apply Write_locked_inv in Hlocked as (t1 & Hcwd & [Hsub Hfile] & Hcases).
  simpl in Hcwd, Hsub, Hfile, Hcases. rewrite Hcwd0 in *. rewrite Hfiles0 in *.
  destruct Hcases as [[[? [=]] _]|(b & p & Hmar & Hwalk & Hold & Hcases)].
  destruct Hcases as [[[? [=]] _]|(_ & Hfiles & Hwalkf & Hdir & Htr)].
  (* the names *)
  set (record := Join [dir d; c; r]).
  assert (named record = true) as Hrec by (by apply named_Join3).
  rewrite Join_named in * by done. fold record in Hfiles, Hwalkf, Hdir, Htemp, Hold, Hwalk.
  destruct (locate_named (cwd w) record Hrec) as (x & up & Hkr & Hx & Hsuf).
  pose proof (Hsuf ".json" eq_refl ltac:(simpl; lia)) as Hkf.
  assert (∃ y, locate (cwd w) ((record +:+ ".json") +:+ ".tmp") = y :: up)
    as [y Hkt].
  { destruct (locate_named (cwd w) (record +:+ ".json")) as (y & up' & Hy & _ & Hs).
    - apply named_suffix; [done|simpl; lia].
    - rewrite (Hs ".tmp") by (done || simpl; lia).
      rewrite Hkf in Hy. simplify_eq. eauto. }
  rewrite Hkf, Hkt in *.
  assert (may_read p = true) as Hp.
  { destruct Hold as [[_ ->]|[d0 Hd0]]; [done|]. eapply Htemp, Hfile, Hd0. }
  assert (record +:+ ".json" ≠ "") as Hne by (by destruct record).
  rewrite walk_insert_beside in Hwalkf.
  (* Read *)
  rewrite Read_fst by done. fold record.
  assert (read_of (emit (EvUnlock m) w2) (record +:+ ".json") = Ok (b ++ [Byte.x0a]))
    as Hread.
  { unfold read_of, find. simpl. rewrite Hcwd, Hfiles, Hkf.
    rewrite bool_decide_eq_false_2 by done.
    rewrite walk_insert_beside, walk_delete_beside, walk_insert_beside, Hwalkf.
    rewrite lookup_insert_eq. by rewrite Hp. }
  rewrite Hread.
  assert (∃ fi, (stat record (emit (EvUnlock m) w2)).1 = Ok fi) as [fi ->].
  { rewrite stat_fst.
    assert (∃ fi, stat_of (emit (EvUnlock m) w2) (record +:+ ".json") = Ok fi) as [fi Hfi].
    { unfold read_of in Hread. unfold stat_of.
      destruct (find _ _ (record +:+ ".json")) as [|[k n]]; [done|]. eauto. }
    unfold stat_of at 1. unfold find.
    rewrite bool_decide_eq_false_2 by (by apply named_nonempty).
    simpl. rewrite Hcwd, Hkr.
    assert (walk (files w2) (x :: up) = None) as ->.
    { unfold read_of, find in Hread. simpl in Hread.
      rewrite bool_decide_eq_false_2, Hcwd, Hkf in Hread by done.
      rewrite (walk_sibling _ x (x +:+ ".json")).
      by destruct (walk (files w2) _). }
    destruct (files w2 !! (x :: up)); [eauto|].
    unfold IsNotExist, perr. rewrite Hfi. eauto. }
  by apply Hcodec.
Qed.

End WriteRead.

Section ReadDelete.
Context `{Codec V}.

(** C4 (amended). For non-empty collection and resource, Read probes the
    bare path and, when that does not exist, the path with the extension. If
    either probe finds an entry, Read reads the path with the extension, and
    only that one: the content of the bare path is never read. If neither
    exists, Read fails with a not-found error, the error of the second probe.
    The probes and the read are the only calls of Read, in this order; a
    probe that fails for another reason ends Read with its error. *)
Theorem Read_probes_then_reads_qualified (d : Driver) (c r : string) (v0 : V)
    (w : World) :
  c ≠ "" → r ≠ "" →
  let record := Join [dir d; c; r] in
  (is_Ok (stat_of w record) = true →
   Read d c r v0 w =
     (read_qualified w record v0,
      logged [EvStat record; EvReadFile (record +:+ ".json")] w)) ∧
  (IsNotExist (err_of (stat_of w record)) = true →
   is_Ok (stat_of w (record +:+ ".json")) = true →
   Read d c r v0 w =
     (read_qualified w record v0,
      logged [EvStat record; EvStat (record +:+ ".json");
              EvReadFile (record +:+ ".json")] w)) ∧
  (IsNotExist (err_of (stat_of w record)) = true →
   IsNotExist (err_of (stat_of w (record +:+ ".json"))) = true →
   Read d c r v0 w =
     ((v0, Some (PathError "stat" (record +:+ ".json") ENOENT)),
      logged [EvStat record; EvStat (record +:+ ".json")] w) ∧
   NotFoundError (PathError "stat" (record +:+ ".json") ENOENT) = true) ∧
  (∀ e, stat_of w record = Err e → IsNotExist (Some e) = false →
        Read d c r v0 w = ((v0, Some e), logged [EvStat record] w)) ∧
  (∀ e, IsNotExist (err_of (stat_of w record)) = true →
        stat_of w (record +:+ ".json") = Err e →
        Read d c r v0 w =
          ((v0, Some e), logged [EvStat record; EvStat (record +:+ ".json")] w)).
Proof.
  intros Hc Hr record.
  assert (∀ a b w', emit b (emit a w') = logged [a; b] w') as H2.
  { intros. unfold emit, logged. simpl. by rewrite <-app_assoc. }
  assert (∀ a b c' w', emit c' (emit b (emit a w')) = logged [a; b; c'] w') as H3.
  { intros. unfold emit, logged. simpl. by rewrite <-!app_assoc. }
  assert (∀ a w', emit a w' = logged [a] w') as H1 by done.
  assert (∀ w' name, read_of (emit name w') = read_of w') as Hread by done.
  unfold Read. rewrite !bool_decide_eq_false_2 by done. io. fold record.
  unfold stat, Stat, ReadFile, read_qualified. io.
  destruct (stat_of w record) as [fi|e] eqn:Hs; simpl.
  { split_and!; try (by intros [=]); try done.
    intros _. rewrite H2. by destruct (read_of _ _). }
  destruct (IsNotExist (Some e)) eqn:He; simpl.
  - destruct (stat_of (emit (EvStat record) w) (record +:+ ".json")) as [fi'|e'] eqn:Hs';
      change (stat_of (emit (EvStat record) w) (record +:+ ".json"))
        with (stat_of w (record +:+ ".json")) in Hs'; rewrite Hs'; simpl.
    + split_and!; try (by intros [=]); try done.
      * intros _ _. rewrite H3. by destruct (read_of _ _).
      * intros e0 [= <-] He0. congruence.
    + split_and!; try (by intros [=]); try done.
      * intros _ He'. rewrite H2. unfold stat_of in Hs'.
        destruct (find _ _ _) as [no|[k n]]; [|done]. injection Hs' as <-.
        unfold perr in *. by destruct no.
      * intros e0 [= <-] He0. congruence.
      * intros e0 _ [= <-]. by rewrite H2.
  - split_and!; try (by intros [=]); try done.
    intros e0 [= <-] _. done.
Qed.

Lemma on_place_fst_same op name ev f w w' :
  cwd w' = cwd w → files w' = files w →
  (on_place op name ev f w').1 = (on_place op name ev f w).1.
Proof.
  intros Hc Hf. unfold on_place. rewrite Hc, Hf.
  destruct (reach _ _ _); [done|]. by destruct (f _ _).
Qed.

Lemma RemoveAll_fst_same path w w' :
  cwd w' = cwd w → files w' = files w →
  (RemoveAll path w').1 = (RemoveAll path w).1.
Proof.
  intros Hc Hf. unfold RemoveAll. rewrite Hc, Hf.
  repeat case_match; simplify_eq/=; done.
Qed.

Lemma stat_fst_same path w w' :
  cwd w' = cwd w → files w' = files w → (stat path w').1 = (stat path w).1.
Proof. intros Hc Hf. rewrite !stat_fst. unfold stat_of. by rewrite Hc, Hf. Qed.

Lemma Delete_fst d c r w :
  c ≠ "" →
  (Delete d c r w).1 =
  match (stat (Join [dir d; Join [c; r]]) w).1 with
  | Err _ => Some (Errorf "resource '%s' does not exist in collection '%s'" [r; c])
  | Ok fi =>
      if IsDir (Mode fi) then (RemoveAll (Join [dir d; Join [c; r]]) w).1
      else if IsRegular (Mode fi)
      then (Remove (Join [dir d; Join [c; r]] +:+ ".json") w).1
      else None
  end.
Proof.
  intros Hc. unfold Delete. rewrite bool_decide_eq_false_2 by done. io.
  pose proof (getOrCreateMutex_fs d c w) as [Hcwd0 Hfiles0].
  destruct (getOrCreateMutex d c w) as [m w0]. simpl in *.
  set (target := Join [dir d; Join [c; r]]).
  pose proof (stat_fs target (emit (EvLock m) w0)) as [Hcwd1 Hfiles1].
  rewrite <-(stat_fst_same target w (emit (EvLock m) w0)) by done.
  destruct (stat target (emit (EvLock m) w0)) as [[fi|e] w1]; simpl in *; [|done].
  rewrite <-(RemoveAll_fst_same target w w1) by congruence.
  unfold Remove.
  rewrite <-(on_place_fst_same _ _ _ _ w w1) by congruence.
  destruct (IsDir _); [by destruct (RemoveAll _ _)|].
  destruct (IsRegular _); [by destruct (on_place _ _ _ _ _)|done].
Qed.

Lemma on_place_error op name ev f w e :
  (on_place op name ev f w).1 = Some e → ∃ no, e = PathError op name no.
Proof.
  unfold on_place. destruct (reach _ _ _) as [no|k]; simpl.
  - intros [= <-]. by exists no.
  - destruct (f _ _) as [[no|] t']; simpl; [|done]. intros [= <-]. by exists no.
Qed.

Lemma RemoveAll_error path w e :
  (RemoveAll path w).1 = Some e →
  e = PathError "RemoveAll" path EINVAL ∨ ∃ no, e = PathError "unlinkat" path no.
Proof.
  unfold RemoveAll. case_bool_decide; [done|].
  destruct (endsWithDot path); [intros [= <-]; by left|].
  destruct (walk _ _) as [no|].
  - destruct no; simpl; [done|..]; intros [= <-]; right; by eexists.
  - destruct (remove_all_at _ _) as [[no|] t']; simpl; [|done].
    intros [= <-]. right. by eexists.
Qed.

(** C7 (amended). For a non-empty collection, when the probe of Delete
    fails for any reason (neither form exists, or the probe itself is
    refused, as by a directory that may not be searched), Delete fails with
    the not-found error that names the resource and the collection. When the
    probe passes, Delete returns what the removal returns (RemoveAll of the
    target for a directory, Remove of the qualified path for a regular
    file), and an error then is the error of the file system, unchanged. *)
Theorem Delete_probe_error_is_not_found (d : Driver) (c r : string) (w : World) :
  c ≠ "" →
  let target := Join [dir d; Join [c; r]] in
  (∀ e, (stat target w).1 = Err e →
     (Delete d c r w).1 =
       Some (Errorf "resource '%s' does not exist in collection '%s'" [r; c])
     ∧ NotFoundError
         (Errorf "resource '%s' does not exist in collection '%s'" [r; c]) = true) ∧
  (∀ fi, (stat target w).1 = Ok fi →
     (Delete d c r w).1 =
       (if IsDir (Mode fi) then (RemoveAll target w).1
        else if IsRegular (Mode fi) then (Remove (target +:+ ".json") w).1
        else None) ∧
     ∀ e, (Delete d c r w).1 = Some e →
       fs_error e = true ∧
       e ≠ Errorf "resource '%s' does not exist in collection '%s'" [r; c]).
Proof.
  intros Hc target. split.
  - intros e He. rewrite Delete_fst by done. fold target. by rewrite He.
  - intros fi Hfi. rewrite Delete_fst by done. fold target. rewrite Hfi.
    split; [done|]. intros e. destruct (IsDir _).
    + intros Hrm. apply RemoveAll_error in Hrm.
      by destruct Hrm as [->|[no ->]].
    + destruct (IsRegular _); [|done]. by intros [no ->]%on_place_error.
Qed.

End ReadDelete.

(** C8. New cleans the root path and stores the cleaned form, which is
    canonical (cleaning it again changes nothing; it is rendered from real
    names behind at most a root or a run of leading [..]). If the path
    exists, New returns no error and leaves the file tree as it was. If the
    probe fails, New calls Mkdir once, for that one level: the directory is
    made when the directory above it can be walked to and written, and
    otherwise New returns the error and makes nothing, no directory above
    either. *)
Theorem New_cleans_probes_and_makes_one_level (root : string)
    (opts : option Options) (w : World) :
  let d := (New root opts w).1.1 in
  let e := (New root opts w).1.2 in
  let w1 := (New root opts w).2 in
  let k := locate (cwd w) (Clean root) in
  dir d = Clean root ∧ Clean (dir d) = dir d ∧
  (∃ b, cvalid (rooted (dir d)) b ∧ dir d = render (rooted (dir d)) b) ∧
  (is_Ok (stat_of w (Clean root)) = true → e = None ∧ files w1 = files w) ∧
  (is_Ok (stat_of w (Clean root)) = false →
   trace w1 = trace w ++
     [EvStat (Clean root);
      EvLog (log d) INFO ("Creating new database at '%s'..." +:+ nl) [Clean root];
      EvMkdir (Clean root) perm_0755] ∧
   if bool_decide (walk (files w) k = None) && parent_writable (files w) k
   then e = None ∧ files w1 = <[k := Dir perm_0755]> (files w)
   else is_Some e ∧ files w1 = files w).
Proof.
  unfold New. io. simpl.
  set (dirc := Clean root).
  assert (dirc ≠ "") as Hne by apply Clean_nonempty.
  pose proof (Clean_elems root) as Hcanon. fold dirc in Hcanon.
  set (w0 := set_heap _ _).
  assert (stat_of w0 dirc = stat_of w dirc) as Hst by done.
  rewrite Hst.
  destruct (stat_of w dirc) as [fi|err] eqn:Hstat; simpl.
  { split_and!; [done|apply Clean_idem|done|done|by intros [=]]. }
  match goal with |- context [Mkdir dirc perm_0755 ?wx] =>
    destruct (Mkdir dirc perm_0755 wx) as [e1 w2] eqn:Hmk end.
  simpl. split_and!; [done|apply Clean_idem|done|by intros [=]|]. intros _.
  unfold Mkdir, on_place, reach in Hmk. simpl in Hmk.
  rewrite bool_decide_eq_false_2 in Hmk by done.
  unfold stat_of, find in Hstat. rewrite bool_decide_eq_false_2 in Hstat by done.
  destruct (walk (files w) (locate (cwd w) dirc)) as [no|] eqn:Hwalk; simpl.
  { simplify_eq/=. split; [by rewrite <-!app_assoc|]. eauto. }
  unfold mkdir_at in Hmk.
  destruct (files w !! locate (cwd w) dirc) as [n|] eqn:Hk; [done|].
  destruct (parent_writable _ _); simplify_eq/=.
  - split; [by rewrite <-!app_assoc|]. done.
  - split; [by rewrite <-!app_assoc|]. eauto.
Qed.

(** ** ReadAll *)

Lemma read_each_fst w dir fis records w' :
  cwd w' = cwd w → files w' = files w →
  (read_each dir fis records w').1 = read_all_of w dir fis records.
Proof.
  revert records w'. induction fis as [|file rest IH]; intros records w' Hc Hf; [done|].
  simpl. io. unfold ReadFile. rewrite (read_of_same w w') by done.
  destruct (read_of w _); [|done]. by apply IH.
Qed.

Lemma ReadAll_fst d c w :
  c ≠ "" →
  (ReadAll d c w).1 =
  match (stat (Join [dir d; c]) w).1 with
  | Err e => ([], Some e)
  | Ok _ => read_all_of w (Join [dir d; c]) (readdir_of w (Join [dir d; c])).1 []
  end.
Proof.
  intros Hc. unfold ReadAll. rewrite bool_decide_eq_false_2 by done. io.
  pose proof (stat_fs (Join [dir d; c]) w) as [Hcwd Hfiles].
  destruct (stat _ w) as [[fi|e] w1]; simpl in *; [|done].
  unfold ReadDir.
  assert (readdir_of w1 (Join [dir d; c]) = readdir_of w (Join [dir d; c])) as ->.
  { unfold readdir_of. by rewrite Hcwd, Hfiles. }
  destruct (readdir_of w _) as [fis err]. simpl.
  by apply read_each_fst.
Qed.

(** An entry that ReadDir lists and that cannot be read fails with EACCES or
    EISDIR, never with ENOENT. *)
Lemma listed_read_error w dir file e :
  well_formed (files w) →
  file ∈ (readdir_of w dir).1 →
  read_of w (Join [dir; Name file]) = Err e → IOError e = true.
Proof.
  intros Hwf Hin Hread. unfold readdir_of, find in Hin.
  case_bool_decide as Hdir; [by apply elem_of_nil in Hin|].
  destruct (walk _ _) eqn:Hwalk; [by apply elem_of_nil in Hin|].
  set (k := locate (cwd w) dir) in *.
  destruct (files w !! k) as [[p data|p]|] eqn:Hk; simpl in Hin;
    [destruct (may_read p); by apply elem_of_nil in Hin| |by apply elem_of_nil in Hin].
  destruct (may_read p) eqn:Hrd; [|by apply elem_of_nil in Hin].
  destruct (children (files w) k) as [|[c0 n0] es] eqn:Hch;
    [by apply elem_of_nil in Hin|].
  destruct (may_search p) eqn:Hsearch; [|by apply elem_of_nil in Hin].
  cbn [fst] in Hin. rewrite merge_sort_Permutation, <-Hch in Hin.
  apply list_elem_of_fmap in Hin as ([c n] & -> & Hcn).
  apply children_elem in Hcn.
  pose proof (wf_names _ _ _ Hwf Hcn) as Hnames. inversion_clear Hnames as [|?? Hc _].
  unfold read_of, find in Hread. simpl in Hread.
  rewrite locate_Join_child in Hread by done. fold k in Hread.
  rewrite bool_decide_eq_false_2 in Hread.
  2:{ rewrite Join2 by done. apply Clean_nonempty. }
  rewrite walk_cons, Hwalk, Hk, Hsearch, Hcn in Hread.
  destruct n as [p' data'|p']; destruct (may_read p'); by simplify_eq.
Qed.

Lemma read_each_stops dir pre file post records e w :
  (∀ f, f ∈ pre → is_Ok (read_of w (Join [dir; Name f])) = true) →
  read_of w (Join [dir; Name file]) = Err e →
  read_each dir (pre ++ file :: post) records w =
    (([], Some e),
     logged ((λ f, EvReadFile (Join [dir; Name f])) <$> (pre ++ [file])) w).
Proof.
  revert records w. induction pre as [|f pre IH]; intros records w Hpre Hfile.
  { simpl. io. unfold ReadFile. by rewrite Hfile. }
  simpl. io. unfold ReadFile.
  destruct (read_of w (Join [dir; Name f])) as [b|e'] eqn:Hf.
  2:{ specialize (Hpre f). rewrite Hf in Hpre. discriminate Hpre. by left. }
  rewrite (IH _ (emit (EvReadFile (Join [dir; Name f])) w)).
  2:{ intros f' Hin. apply Hpre. by right. }
  2:{ exact Hfile. }
  f_equal. unfold logged, emit. simpl. by rewrite <-app_assoc.
Qed.

Lemma first_unreadable w dir (fis : list FileInfo) file :
  file ∈ fis → is_Ok (read_of w (Join [dir; Name file])) = false →
  ∃ pre first post e,
    fis = pre ++ first :: post ∧
    (∀ f, f ∈ pre → is_Ok (read_of w (Join [dir; Name f])) = true) ∧
    read_of w (Join [dir; Name first]) = Err e.
Proof.
  induction fis as [|f fis IH]; intros Hin Hfail; [by apply elem_of_nil in Hin|].
  destruct (read_of w (Join [dir; Name f])) as [b|e] eqn:Hf.
  - apply elem_of_cons in Hin as [->|Hin]; [by rewrite Hf in Hfail|].
    destruct (IH Hin Hfail) as (pre & first & post & e & -> & Hpre & Hfirst).
    exists (f :: pre), first, post, e. split_and!; [done| |done].
    intros f' [->|Hf']%elem_of_cons; [by rewrite Hf|by apply Hpre].
  - exists [], f, fis, e. split_and!; [done| |done].
    intros f' Hf'. by apply elem_of_nil in Hf'.
Qed.

(** C6. For a non-empty collection whose directory passes the probe, when
    one of the entries that ReadDir lists cannot be read, ReadAll fails fast:
    the entries are read in the order of the list, the entries before the
    first one that cannot be read are read, the error of that first one is
    returned together with no records at all, and no entry after it is read.
    The error is an I/O error. *)
Theorem ReadAll_fail_fast (d : Driver) (c : string) (w : World) fi file :
  c ≠ "" → well_formed (files w) →
  let dirp := Join [dir d; c] in
  (stat dirp w).1 = Ok fi →
  file ∈ (readdir_of w dirp).1 →
  is_Ok (read_of w (Join [dirp; Name file])) = false →
  ∃ pre first post e,
    (readdir_of w dirp).1 = pre ++ first :: post ∧
    (∀ f, f ∈ pre → is_Ok (read_of w (Join [dirp; Name f])) = true) ∧
    read_of w (Join [dirp; Name first]) = Err e ∧
    ReadAll d c w =
      (([], Some e),
       logged (EvReadDir dirp ::
                 ((λ f, EvReadFile (Join [dirp; Name f])) <$> (pre ++ [first])))
              (stat dirp w).2) ∧
    IOError e = true.
Proof.
  intros Hc Hwf dirp Hst Hin Hfail.
  destruct (first_unreadable w dirp _ file Hin Hfail)
    as (pre & first & post & e & Hsplit & Hpre & Hfirst).
  exists pre, first, post, e. split_and!; [done..| |].
  - unfold ReadAll. rewrite bool_decide_eq_false_2 by done. io. fold dirp.
    pose proof (stat_fs dirp w) as [Hcwd Hfiles].
    destruct (stat dirp w) as [[fi'|e'] w1]; simpl in *; [|done].
    unfold ReadDir.
    assert (readdir_of w1 dirp = readdir_of w dirp) as ->.
    { unfold readdir_of. by rewrite Hcwd, Hfiles. }
    destruct (readdir_of w dirp) as [fis err]. simpl in Hsplit. subst fis.
    rewrite (read_each_stops dirp pre first post [] e).
    + f_equal. unfold logged, emit. simpl. by rewrite <-app_assoc.
    + intros f Hf. rewrite (read_of_same w) by done. by apply Hpre.
    + by rewrite (read_of_same w).
  - apply (listed_read_error w dirp first e Hwf); [|done].
    rewrite Hsplit. apply elem_of_app. right. by left.
Qed.

(** C10. For a non-empty collection whose directory passes the probe, when
    the enumeration of the directory fails, ReadAll drops that error and
    returns the empty sequence with a nil error. *)
Theorem ReadAll_swallows_enumeration_error (d : Driver) (c : string)
    (w : World) fi e :
  c ≠ "" →
  (stat (Join [dir d; c]) w).1 = Ok fi →
  (readdir_of w (Join [dir d; c])).2 = Some e →
  (ReadAll d c w).1 = ([], None).
Proof.
  intros Hc Hst Hrd. rewrite ReadAll_fst, Hst by done.
  unfold readdir_of in *. repeat case_match; by simplify_eq/=.
Qed.

Lemma IsNotExist_stat_of w name :
  IsNotExist (err_of (stat_of w name)) = true ↔ find (cwd w) (files w) name = inl ENOENT.
Proof.
  unfold stat_of. destruct (find _ _ _) as [[]|[k n]]; simpl; split; done.
Qed.

(** Delete with an empty resource, when it and ReadAll name the same
    directory. *)
Lemma Delete_collection_at (d : Driver) (c : string) (w w1 : World) fi :
  c ≠ "" → well_formed (files w) →
  Join [dir d; Join [c; ""]] = Join [dir d; c] →
  stat_of w (Join [dir d; c]) = Ok fi → IsDir (Mode fi) = true →
  IsNotExist (err_of (stat_of w (Join [dir d; c] +:+ ".json"))) = true →
  Delete d c "" w = (None, w1) →
  (∀ k, locate (cwd w) (Join [dir d; c]) `suffix_of` k → files w1 !! k = None) ∧
  (∀ k, ¬ locate (cwd w) (Join [dir d; c]) `suffix_of` k →
        files w1 !! k = files w !! k) ∧
  ∃ e, (ReadAll d c w1).1 = ([], Some e) ∧ NotFoundError e = true.
Proof.
  intros Hc Hwf Hpath Hstat Hisdir Hjson Hdel.
  (* what Delete did *)
  unfold Delete in Hdel. rewrite bool_decide_eq_false_2 in Hdel by done.
  io. rewrite Hpath in Hdel.
  pose proof (getOrCreateMutex_fs d c w) as [Hcwd0 Hfiles0].
  destruct (getOrCreateMutex d c w) as [m w0]. simpl in Hcwd0, Hfiles0, Hdel.
  pose proof (stat_fs (Join [dir d; c]) (emit (EvLock m) w0)) as [Hcwd2 Hfiles2].
  pose proof (stat_fst (Join [dir d; c]) (emit (EvLock m) w0)) as Hfst.
  assert (stat_of (emit (EvLock m) w0) (Join [dir d; c]) = Ok fi) as Hst0.
  { unfold stat_of in *. simpl. by rewrite Hcwd0, Hfiles0. }
  rewrite Hst0 in Hfst.
  destruct (stat (Join [dir d; c]) (emit (EvLock m) w0)) as [r w2]. simpl in *. subst r.
  rewrite Hisdir in Hdel.
  destruct (RemoveAll (Join [dir d; c]) w2) as [res w3] eqn:Hrm. simplify_eq/=.
  assert (cwd w2 = cwd w) as Hcwd by congruence.
  assert (files w2 = files w) as Hfiles by congruence.
  assert (Join [dir d; c] ≠ "" ∧
          walk (files w) (locate (cwd w) (Join [dir d; c])) = None) as [Hne Hwalk].
  { unfold stat_of, find in Hstat. case_bool_decide; [done|].
    by destruct (walk (files w) _). }
  unfold RemoveAll in Hrm. rewrite bool_decide_eq_false_2 in Hrm by done.
  destruct (endsWithDot _); [done|].
  rewrite Hcwd, Hfiles, Hwalk in Hrm.
  destruct (remove_all_at (files w) _) as [[no|] t'] eqn:Hra; [done|].
  injection Hrm as <-.
  apply remove_all_at_ok in Hra as (Hwf' & Hsub & Hgone & Hrest); [|done].
  split; [done|]. split; [done|].
  (* ReadAll afterwards *)
  rewrite ReadAll_fst, stat_fst by done.
  match goal with |- context [stat_of ?wx (Join [dir d; c])] =>
    assert (stat_of wx (Join [dir d; c]) = Err (perr "stat" (Join [dir d; c]) ENOENT))
      as ->; [|set (w4 := wx)] end.
  { unfold stat_of, find. simpl. rewrite Hcwd.
    rewrite bool_decide_eq_false_2 by done.
    assert (walk t' (locate (cwd w) (Join [dir d; c])) = None) as ->.
    { rewrite <-Hwalk.
      destruct (locate (cwd w) (Join [dir d; c])) as [|x up0] eqn:Hkp0; [done|].
      apply walk_agree. intros up Hup. apply Hrest. intros Hkp.
      apply suffix_length in Hup, Hkp. simpl in *. lia. }
    by rewrite Hgone. }
  assert (IsNotExist (Some (perr "stat" (Join [dir d; c]) ENOENT)) = true) as -> by done.
  apply IsNotExist_stat_of in Hjson.
  eapply find_enoent_subset in Hjson; [|exact Hsub].
  unfold stat_of. subst w4. simpl. rewrite Hcwd, Hjson.
  eexists. split; [done|done].
Qed.

(** C5 (amended). For a non-empty collection name that is not rooted, whose
    directory exists, and beside which no entry lies under the name of the
    directory followed by [.json]: a Delete with an empty resource that
    returns no error has removed the directory and everything below it, and
    nothing else, and ReadAll on that collection then fails with a not-found
    error. *)
Theorem Delete_collection_then_ReadAll (d : Driver) (c : string)
    (w w1 : World) fi :
  c ≠ "" → rooted c = false → well_formed (files w) →
  stat_of w (Join [dir d; c]) = Ok fi → IsDir (Mode fi) = true →
  IsNotExist (err_of (stat_of w (Join [dir d; c] +:+ ".json"))) = true →
  Delete d c "" w = (None, w1) →
  (∀ k, locate (cwd w) (Join [dir d; c]) `suffix_of` k → files w1 !! k = None) ∧
  (∀ k, ¬ locate (cwd w) (Join [dir d; c]) `suffix_of` k →
        files w1 !! k = files w !! k) ∧
  ∃ e, (ReadAll d c w1).1 = ([], Some e) ∧ NotFoundError e = true.
Proof.
  intros Hc Hrel Hwf Hstat Hisdir Hjson Hdel.
  eapply Delete_collection_at; [done..| |done|done|done|done].
  by apply Join_collection.
Qed.

(* ===================================================================== *)
(** * Facts about the registry of mutexes                                 *)
(* ===================================================================== *)

Module RegistryFacts.
Import Registry.

Lemma inv_init reg0 fresh0 names : inv reg0 (init reg0 fresh0 names).
Proof.
  split; simpl.
  - intros i c p Hi. apply list_lookup_fmap_Some in Hi as (? & ? & ?). by simplify_eq.
  - intros i c p Hi. apply list_lookup_fmap_Some in Hi as (? & ? & ?). by simplify_eq.
  - constructor.
  - intros c Hc. by apply elem_of_nil in Hc.
  - intros c Hc. by apply elem_of_nil in Hc.
  - done.
Qed.

Lemma lookup_move i j c p s x :
  threads s !! i = Some x →
  move i c p s !! j = if decide (j = i) then Some (c, p) else threads s !! j.
Proof.
  intros Hi. unfold move. case_decide as Hij.
  - subst. apply list_lookup_insert_eq. by eapply lookup_lt_Some.
  - by apply list_lookup_insert_ne.
Qed.

Ltac thread Hi :=
  let j := fresh "j" in let c' := fresh "c'" in let p' := fresh "p'" in
  let Hj := fresh "Hj" in
  intros j c' p'; rewrite (lookup_move _ _ _ _ _ _ Hi);
  case_decide; [intros [= <- <-]|intros Hj].

Lemma inv_step reg0 i s s' : inv reg0 s → step i s = Some s' → inv reg0 s'.
Proof.
  intros [Hcs Hpc Hmade Hstored Hnew Hgrow]. unfold step.
  destruct (threads s !! i) as [[c p]|] eqn:Hi; [|done].
  pose proof (Hpc _ _ _ Hi) as Hme.
  assert (in_cs p = true → ∀ j c' p', j ≠ i → threads s !! j = Some (c', p') →
          in_cs p' = false) as Hothers.
  { intros Hp j c' p' Hne Hj. destruct (in_cs p') eqn:Hp'; [|done].
    pose proof (Hcs _ _ _ Hj Hp'). pose proof (Hcs _ _ _ Hi Hp). congruence. }
  assert (∀ c' m', (∃ j, threads s !! j = Some (c', AtStore m')) → in_cs p = true →
          p = AtStore m' ∧ c' = c) as Hstoring.
  { intros c' m' [j Hj] Hp. destruct (decide (j = i)) as [->|Hne]; [by simplify_eq|].
    by specialize (Hothers Hp _ _ _ Hne Hj). }
  destruct p as [| | |m|m|m]; simpl in Hme.
  - (* d.mutex.Lock() *)
    destruct (holder s) eqn:Hh; [done|]. intros [= <-]. split; simpl; try done.
    + thread Hi; [by subst|]. intros Hp'. pose proof (Hcs _ _ _ Hj Hp'). congruence.
    + thread Hi; [done|]. by apply Hpc in Hj.
    + intros c' Hc'. destruct (Hstored _ Hc') as [?|(j & m & Hj)]; [by left|].
      right. exists j, m. rewrite (lookup_move _ _ _ _ _ _ Hi).
      case_decide; [by simplify_eq|done].
  - (* m, ok := d.mutexes[collection] *)
    pose proof (Hcs _ _ _ Hi eq_refl) as Hh.
    destruct (reg s !! c) as [m|] eqn:Hc; intros [= <-]; split; simpl; try done.
    + thread Hi; [by subst|]. by eapply Hcs.
    + thread Hi; [done|]. by apply Hpc in Hj.
    + intros c' Hc'. destruct (Hstored _ Hc') as [?|(j & m' & Hj)]; [by left|].
      by destruct (Hstoring c' m' (ex_intro _ j Hj) eq_refl).
    + thread Hi; [by subst|]. by eapply Hcs.
    + thread Hi; [done|]. by apply Hpc in Hj.
    + intros c' Hc'. destruct (Hstored _ Hc') as [?|(j & m' & Hj)]; [by left|].
      by destruct (Hstoring c' m' (ex_intro _ j Hj) eq_refl).
  - (* m = &sync.Mutex{} *)
    pose proof (Hcs _ _ _ Hi eq_refl) as Hh.
    assert (c ∉ made s) as Hfresh.
    { intros Hin. destruct (Hstored _ Hin) as [[m Hm]|(j & m' & Hj)]; [congruence|].
      by destruct (Hstoring c m' (ex_intro _ j Hj) eq_refl). }
    intros [= <-]. split; simpl; try done.
    + thread Hi; [by subst|]. by eapply Hcs.
    + thread Hi; [done|]. by apply Hpc in Hj.
    + apply NoDup_app. split_and!; [done| |apply NoDup_singleton].
      intros x Hx ->%list_elem_of_singleton. done.
    + intros c' [Hc'| ->%list_elem_of_singleton]%elem_of_app.
      * destruct (Hstored _ Hc') as [?|(j & m' & Hj)]; [by left|].
        by destruct (Hstoring c' m' (ex_intro _ j Hj) eq_refl).
      * right. exists i, (fresh s). rewrite (lookup_move _ _ _ _ _ _ Hi).
        by rewrite decide_True.
    + intros c' [Hc'| ->%list_elem_of_singleton]%elem_of_app; [by apply Hnew|].
      by eapply lookup_weaken_None.
  - (* d.mutexes[collection] = m *)
    pose proof (Hcs _ _ _ Hi eq_refl) as Hh.
    intros [= <-]. split; simpl; try done.
    + thread Hi; [by subst|]. by eapply Hcs.
    + thread Hi; [simpl; by rewrite lookup_insert_eq|].
      pose proof (Hothers eq_refl _ _ _ H Hj) as Hout.
      apply Hpc in Hj. destruct p'; simpl in *; try done.
      rewrite lookup_insert_ne; [done|congruence].
    + intros c' Hc'. left. destruct (decide (c' = c)) as [->|Hne].
      * rewrite lookup_insert_eq. eauto.
      * rewrite lookup_insert_ne by done.
        destruct (Hstored _ Hc') as [?|(j & m' & Hj)]; [done|].
        by destruct (Hstoring c' m' (ex_intro _ j Hj) eq_refl).
    + etrans; [done|]. by apply insert_subseteq.
  - (* the deferred d.mutex.Unlock() *)
    intros [= <-]. split; simpl; try done.
    + thread Hi; [done|]. intros Hp'.
      by rewrite (Hothers eq_refl _ _ _ H Hj) in Hp'.
    + thread Hi; [done|]. by apply Hpc in Hj.
    + intros c' Hc'. destruct (Hstored _ Hc') as [?|(j & m' & Hj)]; [by left|].
      by destruct (Hstoring c' m' (ex_intro _ j Hj) eq_refl).
  - done.
Qed.

Lemma inv_run reg0 sched s : inv reg0 s → inv reg0 (run sched s).
Proof.
  revert s. induction sched as [|i sched IH]; intros s Hs; [done|].
  simpl. apply IH. destruct (step i s) as [s'|] eqn:Hstep; [|done].
  by eapply inv_step.
Qed.



Lemma run_app sched sched' s : run (sched ++ sched') s = run sched' (run sched s).
Proof. unfold run. by rewrite foldl_app. Qed.

End RegistryFacts.

Import Registry RegistryFacts.

Lemma on_place_heap op name ev f w : heap (on_place op name ev f w).2 = heap w.
Proof. unfold on_place. destruct (reach _ _ _); [done|]. by destruct (f _ _). Qed.

Lemma MkdirAll_heap path perm w : heap (MkdirAll path perm w).2 = heap w.
Proof. unfold MkdirAll. case_bool_decide; [done|]. by destruct (mkdir_all_at _ _ _). Qed.

Lemma Rename_heap old new w : heap (Rename old new w).2 = heap w.
Proof. unfold Rename. destruct (_ || _); [done|]. by destruct (rename_at _ _ _). Qed.

Lemma RemoveAll_heap path w : heap (RemoveAll path w).2 = heap w.
Proof.
  unfold RemoveAll. repeat case_match; simplify_eq/=; try done.
Qed.

Lemma stat_heap path w : heap (stat path w).2 = heap w.
Proof. unfold stat, Stat. io. simpl. by destruct (IsNotExist _). Qed.

Lemma read_each_heap dir fis records w : heap (read_each dir fis records w).2 = heap w.
Proof.
  revert records w. induction fis as [|f rest IH]; intros records w; [done|].
  simpl. io. unfold ReadFile. destruct (read_of w _); [|done]. by rewrite IH.
Qed.

Section Frame.
Context `{Codec V}.

Lemma Write_locked_heap d c r (v : V) w : heap (Write_locked d c r v w).2 = heap w.
Proof.
  unfold Write_locked. io.
  pose proof (MkdirAll_heap (Join [dir d; c]) perm_0755 w) as Hm.
  destruct (MkdirAll _ _ w) as [[e|] w1]; simpl in *; [done|].
  destruct (MarshalIndent v "" tab) as [b|e]; [|done].
  unfold WriteFile.
  match goal with |- context [on_place ?a ?b ?c ?f w1] =>
    pose proof (on_place_heap a b c f w1) as Hw;
    destruct (on_place a b c f w1) as [[e|] w2] end; simpl in *; [congruence|].
  rewrite Rename_heap. congruence.
Qed.


Lemma Read_heap d c r (v0 : V) w : heap (Read d c r v0 w).2 = heap w.
Proof.
  unfold Read. repeat case_bool_decide; try done. io.
  pose proof (stat_heap (Join [dir d; c; r]) w) as Hs.
  destruct (stat _ w) as [[fi|e] w1]; simpl in *; [|done].
  unfold ReadFile. by destruct (read_of w1 _).
Qed.

End Frame.

Lemma ReadAll_heap d c w : heap (ReadAll d c w).2 = heap w.
Proof.
  unfold ReadAll. case_bool_decide; [done|]. io.
  pose proof (stat_heap (Join [dir d; c]) w) as Hs.
  destruct (stat _ w) as [[fi|e] w1]; simpl in *; [|done].
  unfold ReadDir. destruct (readdir_of w1 _) as [fis err].
  by rewrite read_each_heap.
Qed.


(** getOrCreateMutex, one caller. *)
Lemma getOrCreateMutex_spec d c w :
  let r := getOrCreateMutex d c w in
  registry d r.2 !! c = Some r.1 ∧
  registry d w ⊆ registry d r.2 ∧
  (∀ m0, registry d w !! c = Some m0 → r.1 = m0 ∧ heap r.2 = heap w) ∧
  (registry d w !! c = None → r.1 = next w ∧ registry d r.2 = <[c := next w]> (registry d w)) ∧
  trace r.2 = trace w ++ [EvLock (mutex d); EvUnlock (mutex d)].
Proof.
  unfold getOrCreateMutex, registry. io. simpl.
  destruct (heap w !! mutexes d) as [mp|] eqn:Hmp; simpl.
  - destruct (mp !! c) as [m|] eqn:Hc; simpl.
    + rewrite Hmp. simpl. split_and!; [done..| |by intros [=]|by rewrite <-app_assoc].
      intros m0 ?. by simplify_eq.
    + rewrite ?Hmp, ?lookup_insert_eq. simpl. rewrite ?lookup_insert_eq.
      split_and!; [done|by apply insert_subseteq|by intros m0 ?|done|by rewrite <-app_assoc].
  - rewrite ?Hmp, ?lookup_insert_eq. simpl. rewrite ?lookup_insert_eq.
    split_and!; [done|by apply insert_subseteq|by intros m0 ?|done|by rewrite <-app_assoc].
Qed.


Lemma run_cons i sched s : run (i :: sched) s = run sched (default s (step i s)).
Proof. reflexivity. Qed.


(* ===================================================================== *)
(** * The registry of mutexes                                             *)
(* ===================================================================== *)

Lemma registry_same_heap d w w' : heap w' = heap w → registry d w' = registry d w.
Proof. intros Hh. unfold registry. by rewrite Hh. Qed.

Section RegistryClaim.
Context `{Codec V}.


End RegistryClaim.

(* ===================================================================== *)
(** * The theorems on sample worlds                                       *)
(* ===================================================================== *)

Import Sample.

Lemma wf_sample (w : World) :
  bool_decide (well_formed (files w)) = true → well_formed (files w).
Proof. apply bool_decide_eq_true. Qed.

(** Write users/John, then Read it, on the empty store. *)
Lemma Write_Read_roundtrip_witness :
  "users" ≠ "" ∧ named "John" = true ∧
  (Write d0 "users" "John" true w_empty).1 = None ∧
  (Read d0 "users" "John" false (Write d0 "users" "John" true w_empty).2).1
    = (true, None).
Proof.
  assert (H1 : "users" ≠ "") by discriminate.
  assert (H2 : named "John" = true) by reflexivity.
  assert (H3 : Write d0 "users" "John" true w_empty
               = (None, (Write d0 "users" "John" true w_empty).2))
    by (vm_compute; reflexivity).
  split_and!; [exact H1|exact H2|vm_compute; reflexivity|].
  apply (Write_Read_roundtrip d0 "users" "John" true false w_empty _ H1 H2);
    [| |exact H3].
  - intros p data Hf. vm_compute in Hf. discriminate.
  - intros b Hb. vm_compute in Hb. injection Hb as <-. vm_compute. reflexivity.
Defined.

(** C1 as written fails for the resource ["."]: Write puts the document at
    users/..json, Read looks for users.json. *)
Lemma Write_Read_roundtrip_fails_for_dot :
  "users" ≠ "" ∧ "." ≠ "" ∧
  (∀ b, MarshalIndent true "" tab = Ok b →
        Unmarshal (b ++ [Byte.x0a]) false = (true, None)) ∧
  (Write d0 "users" "." true w_empty).1 = None ∧
  (Read d0 "users" "." false (Write d0 "users" "." true w_empty).2).1
    = (false, Some (PathError "open" "data/users.json" ENOENT)) ∧
  (Read d0 "users" "." false (Write d0 "users" "." true w_empty).2).1
    ≠ (true, None).
Proof.
  split_and!; [discriminate|discriminate| |vm_compute; reflexivity
              |vm_compute; reflexivity|vm_compute; discriminate].
  intros b Hb. vm_compute in Hb. injection Hb as <-. vm_compute. reflexivity.
Qed.

(** Read of users/John where only users/John.json exists: two probes, then
    the read. *)
Lemma Read_probes_then_reads_qualified_witness :
  "users" ≠ "" ∧ "John" ≠ "" ∧
  Read d0 "users" "John" false w_john
    = ((true, None),
       logged [EvStat "data/users/John"; EvStat "data/users/John.json";
               EvReadFile "data/users/John.json"] w_john).
Proof.
  assert (H1 : "users" ≠ "") by discriminate.
  assert (H2 : "John" ≠ "") by discriminate.
  split_and!; [exact H1|exact H2|].
  destruct (Read_probes_then_reads_qualified d0 "users" "John" false w_john H1 H2)
    as (_ & Hq & _).
  rewrite Hq; vm_compute; reflexivity.
Defined.

(** C4 as written fails when only the bare path exists: its content is not
    read, Read reports that the path with the extension is missing. *)
Lemma Read_does_not_read_bare_path :
  "users" ≠ "" ∧ "John" ≠ "" ∧
  is_Ok (stat_of w_bare (Join [dir d0; "users"; "John"])) = true ∧
  read_of w_bare (Join [dir d0; "users"; "John"]) = Ok (bytes ("true" +:+ nl)) ∧
  Unmarshal (bytes ("true" +:+ nl)) false = (true, None) ∧
  (Read d0 "users" "John" false w_bare).1
    = (false, Some (PathError "open" "data/users/John.json" ENOENT)).
Proof. split_and!; try discriminate; vm_compute; reflexivity. Qed.

(** Delete of the collection users, then ReadAll. *)
Lemma Delete_collection_then_ReadAll_witness :
  "users" ≠ "" ∧ rooted "users" = false ∧ well_formed (files w_john) ∧
  (Delete d0 "users" "" w_john).1 = None ∧
  files (Delete d0 "users" "" w_john).2 !! ("John.json" :: users) = None ∧
  ∃ e, (ReadAll d0 "users" (Delete d0 "users" "" w_john).2).1 = ([], Some e) ∧
       NotFoundError e = true.
Proof.
  assert (H1 : "users" ≠ "") by discriminate.
  assert (H2 : rooted "users" = false) by reflexivity.
  assert (H3 : well_formed (files w_john))
    by (apply wf_sample; vm_compute; reflexivity).
  assert (H4 : stat_of w_john (Join [dir d0; "users"])
               = Ok {| Name := "users"; Mode := N.lor ModeDir perm_0755 |})
    by (vm_compute; reflexivity).
  assert (H5 : IsDir (Mode {| Name := "users"; Mode := N.lor ModeDir perm_0755 |}) = true)
    by (vm_compute; reflexivity).
  assert (H6 : IsNotExist (err_of (stat_of w_john (Join [dir d0; "users"] +:+ ".json")))
               = true) by (vm_compute; reflexivity).
  assert (H7 : Delete d0 "users" "" w_john = (None, (Delete d0 "users" "" w_john).2))
    by (vm_compute; reflexivity).
  destruct (Delete_collection_then_ReadAll d0 "users" w_john _ _ H1 H2 H3 H4 H5 H6 H7)
    as (Hgone & _ & Hread).
  split_and!; [exact H1|exact H2|exact H3|vm_compute; reflexivity| |exact Hread].
  apply Hgone. exists ["John.json"]. vm_compute. reflexivity.
Defined.

(** C5 as written fails when a file users.json lies beside the directory
    users: after the directory is removed the probe of ReadAll finds that
    file, the enumeration fails, and ReadAll returns no error. *)
Lemma ReadAll_after_Delete_finds_json_beside :
  "users" ≠ "" ∧
  stat_of w_beside (Join [dir d0; "users"])
    = Ok {| Name := "users"; Mode := N.lor ModeDir perm_0755 |} ∧
  IsDir (N.lor ModeDir perm_0755) = true ∧
  (Delete d0 "users" "" w_beside).1 = None ∧
  files (Delete d0 "users" "" w_beside).2 !! users = None ∧
  (ReadAll d0 "users" (Delete d0 "users" "" w_beside).2).1 = ([], None).
Proof. split_and!; try discriminate; vm_compute; reflexivity. Qed.

(** ReadAll of a collection that holds a document and two directories: the
    document is read, the first directory fails, the second is not read. *)
Lemma ReadAll_fail_fast_witness :
  "users" ≠ "" ∧ well_formed (files w_subdir) ∧
  ReadAll d0 "users" w_subdir
    = (([], Some (PathError "read" "data/users/old" EISDIR)),
       logged [EvStat "data/users"; EvReadDir "data/users";
               EvReadFile "data/users/John.json"; EvReadFile "data/users/old"]
              w_subdir).
Proof.
  assert (H1 : "users" ≠ "") by discriminate.
  assert (H2 : well_formed (files w_subdir))
    by (apply wf_sample; vm_compute; reflexivity).
  split_and!; [exact H1|exact H2|].
  destruct (ReadAll_fail_fast d0 "users" w_subdir
              {| Name := "users"; Mode := N.lor ModeDir perm_0755 |}
              {| Name := "tmp"; Mode := N.lor ModeDir perm_0755 |} H1 H2)
    as (pre & first & post & e & Hsplit & Hpre & Hfirst & Hres & _).
  - vm_compute. reflexivity.
  - vm_compute. right. right. left.
  - vm_compute. reflexivity.
  - rewrite Hres. vm_compute in Hsplit.
    destruct pre as [|a [|a' [|a'' pre]]]; simpl in Hsplit.
    + injection Hsplit as <- _. vm_compute in Hfirst. discriminate Hfirst.
    + injection Hsplit as <- <- _. vm_compute in Hfirst. injection Hfirst as <-.
      vm_compute. reflexivity.
    + injection Hsplit as _ <- _.
      specialize (Hpre _ (list_elem_of_further _ _ _ (list_elem_of_here _ _))).
      vm_compute in Hpre. discriminate Hpre.
    + injection Hsplit as _ _ _ Hnil. destruct pre; discriminate Hnil.
Defined.

(** Delete of a resource that is not there. *)
Lemma Delete_probe_error_is_not_found_witness :
  "users" ≠ "" ∧
  (Delete d0 "users" "Jane" w_john).1
    = Some (Errorf "resource '%s' does not exist in collection '%s'"
                   ["Jane"; "users"]).
Proof.
  assert (H1 : "users" ≠ "") by discriminate.
  split; [exact H1|].
  destruct (Delete_probe_error_is_not_found d0 "users" "Jane" w_john H1)
    as (Hnot & _).
  refine (proj1 (Hnot (PathError "stat" "data/users/Jane.json" ENOENT) _)).
  vm_compute. reflexivity.
Defined.

(** C7 as written fails when the probe is refused: the directory data may
    not be searched, the probe fails with EACCES, and Delete reports that the
    resource does not exist instead of an I/O error. *)
Lemma Delete_reports_refused_probe_as_not_found :
  "users" ≠ "" ∧
  (stat (Join [dir d0; Join ["users"; "John"]]) w_locked).1
    = Err (PathError "stat" "data/users/John" EACCES) ∧
  IOError (PathError "stat" "data/users/John" EACCES) = true ∧
  (Delete d0 "users" "John" w_locked).1
    = Some (Errorf "resource '%s' does not exist in collection '%s'"
                   ["John"; "users"]) ∧
  NotFoundError (Errorf "resource '%s' does not exist in collection '%s'"
                        ["John"; "users"]) = true ∧
  IOError (Errorf "resource '%s' does not exist in collection '%s'"
                  ["John"; "users"]) = false.
Proof. split_and!; try discriminate; vm_compute; reflexivity. Qed.

(** ReadAll where the probe passes on users.json and no directory users
    exists. *)
Lemma ReadAll_swallows_enumeration_error_witness :
  "users" ≠ "" ∧
  (readdir_of w_only_json (Join [dir d0; "users"])).2
    = Some (PathError "open" "data/users" ENOENT) ∧
  (ReadAll d0 "users" w_only_json).1 = ([], None).
Proof.
  assert (H1 : "users" ≠ "") by discriminate.
  assert (H2 : (readdir_of w_only_json (Join [dir d0; "users"])).2
               = Some (PathError "open" "data/users" ENOENT))
    by (vm_compute; reflexivity).
  split_and!; [exact H1|exact H2|].
  apply (ReadAll_swallows_enumeration_error d0 "users" w_only_json
           {| Name := "users.json"; Mode := perm_0644 |}
           (PathError "open" "data/users" ENOENT) H1); [|exact H2].
  vm_compute. reflexivity.
Defined.

(* ===================================================================== *)
(** * Further properties of the driver                                    *)
(* ===================================================================== *)

Lemma holder_ok_init reg0 fresh0 names : holder_ok (init reg0 fresh0 names).
Proof. by intros i. Qed.

Lemma holder_ok_step reg0 i s s' :
  inv reg0 s → holder_ok s → step i s = Some s' → holder_ok s'.
Proof.
  intros Hinv Hh Hstep j Hj. unfold step in Hstep.
  destruct (threads s !! i) as [[c p]|] eqn:Hi; [|done].
  assert (i < length (threads s)) as Hlen by (by eapply lookup_lt_Some).
  assert (∀ p', in_cs p = true → holder s = Some j → in_cs p' = true →
            ∃ c0 p0, <[i := (c, p')]> (threads s) !! j = Some (c0, p0) ∧
                     in_cs p0 = true) as Hsame.
  { intros p' Hp Hhold Hp'. pose proof (inv_cs _ _ Hinv _ _ _ Hi Hp) as Hhi.
    assert (j = i) as -> by congruence.
    exists c, p'. by rewrite list_lookup_insert_eq. }
  destruct p; simpl in *.
  - destruct (holder s); [done|]. simplify_eq/=.
    exists c, AtLoad. unfold move. by rewrite list_lookup_insert_eq.
  - destruct (reg s !! c); simplify_eq/=; unfold move; by apply Hsame.
  - simplify_eq/=. unfold move. by apply Hsame.
  - simplify_eq/=. unfold move. by apply Hsame.
  - by simplify_eq/=.
  - done.
Qed.

Lemma holder_ok_run reg0 sched s :
  inv reg0 s → holder_ok s → holder_ok (run sched s).
Proof.
  revert s. induction sched as [|i sched IH]; intros s Hinv Hh; [done|].
  rewrite run_cons. destruct (step i s) as [s'|] eqn:Hs; simpl; [|by apply IH].
  apply IH; [by eapply inv_step|by eapply holder_ok_step].
Qed.

Lemma returned_spec s :
  returned s = true ↔ ∀ i c p, threads s !! i = Some (c, p) → ∃ m, p = Done m.
Proof.
  unfold returned. rewrite forallb_forall. split.
  - intros Hall i c p Hi. apply list_elem_of_lookup_2, list_elem_of_In, Hall in Hi.
    simpl in Hi. destruct p; eauto; done.
  - intros Hall [c p] Hin. apply list_elem_of_In, list_elem_of_lookup_1 in Hin as [i Hi].
    by destruct (Hall _ _ _ Hi) as [m ->].
Qed.

Lemma not_returned s :
  returned s = false → ∃ i c p, threads s !! i = Some (c, p) ∧ ∀ m, p ≠ Done m.
Proof.
  unfold returned. induction (threads s) as [|[c p] ts IH]; [done|]. simpl.
  destruct p; simpl; try (intros _; exists 0; eexists _, _; split; [done|]; done).
  intros (i & c' & p' & ? & ?)%IH. exists (S i), c', p'. eauto.
Qed.

Lemma step_in_cs i c p s :
  threads s !! i = Some (c, p) → in_cs p = true → is_Some (step i s).
Proof.
  intros Hi Hp. unfold step. rewrite Hi. destruct p; try done; simpl; eauto.
  destruct (reg s !! c); eauto.
Qed.

Lemma sum_list_insert (l : list (string * pc)) i c p c' p' :
  l !! i = Some (c, p) → remaining p' < remaining p →
  sum_list ((λ t, remaining t.2) <$> <[i := (c', p')]> l)
  < sum_list ((λ t, remaining t.2) <$> l).
Proof.
  revert i. induction l as [|x l IH]; intros [|i] Hi Hlt; simplify_eq/=; [lia|].
  specialize (IH _ Hi Hlt). lia.
Qed.

Lemma step_work i s s' : step i s = Some s' → work s' < work s.
Proof.
  unfold step, work. destruct (threads s !! i) as [[c p]|] eqn:Hi; [|done].
  destruct p; simpl; repeat case_match; intros ?; simplify_eq/=; unfold move;
    eapply sum_list_insert; try done; simpl; lia.
Qed.

(** X17. Callers of getOrCreateMutex never block one another for good. In
    every state that an interleaving of any number of callers reaches:
    when every caller has returned, the mutex of the driver is free; when
    some caller has not returned, some caller can take a step; and every
    step uses up one of the at most five steps a caller has, so that all
    callers return after at most five steps each. *)
Theorem registry_progress (reg0 : gmap string N) (fresh0 : N)
    (names : list string) (sched : list nat) :
  let s := run sched (init reg0 fresh0 names) in
  (returned s = true → holder s = None) ∧
  (returned s = false → ∃ i s', step i s = Some s') ∧
  (∀ i s', step i s = Some s' → work s' < work s) ∧
  work (init reg0 fresh0 names) = 5 * length names.
Proof.
  intros s.
  pose proof (inv_run reg0 sched _ (inv_init reg0 fresh0 names)) as Hinv.
  pose proof (holder_ok_run reg0 sched _ (inv_init reg0 fresh0 names)
                (holder_ok_init reg0 fresh0 names)) as Hh.
  fold s in Hinv, Hh. split_and!.
  - intros Hret. destruct (holder s) as [i|] eqn:Hi; [|done].
    destruct (Hh i Hi) as (c & p & Hp & Hcs).
    destruct (proj1 (returned_spec s) Hret _ _ _ Hp) as [m ->]. done.
  - intros Hret. destruct (holder s) as [i|] eqn:Hi.
    + destruct (Hh i Hi) as (c & p & Hp & Hcs).
      destruct (step_in_cs _ _ _ _ Hp Hcs) as [s' Hs']. eauto.
    + destruct (not_returned s Hret) as (i & c & p & Hp & Hnd).
      destruct (in_cs p) eqn:Hcs.
      { pose proof (inv_cs _ _ Hinv _ _ _ Hp Hcs). congruence. }
      destruct p; try done; [|by destruct (Hnd m)].
      exists i. unfold step. rewrite Hp, Hi. eauto.
  - intros i s'. apply step_work.
  - unfold work, init. cbn [threads]. clear.
    induction names as [|c cs IH]; [done|].
    rewrite !fmap_cons, length_cons, Nat.mul_succ_r.
    change (sum_list (?x :: ?l)) with (x + sum_list l). rewrite IH. simpl. lia.
Qed.

Lemma distinct_init reg0 fresh0 names :
  (∀ c m, reg0 !! c = Some m → (m < fresh0)%N) →
  (∀ c1 c2 m, reg0 !! c1 = Some m → reg0 !! c2 = Some m → c1 = c2) →
  distinct (init reg0 fresh0 names).
Proof.
  intros Hused Hinj. split; [done..|].
  intros i c m Hi. unfold init in Hi. simpl in Hi.
  rewrite list_lookup_fmap in Hi. by destruct (names !! i).
Qed.

Lemma distinct_step reg0 i s s' :
  inv reg0 s → distinct s → step i s = Some s' → distinct s'.
Proof.
  intros Hinv [Hused Hinj Hstore] Hstep. unfold step in Hstep.
  destruct (threads s !! i) as [[c p]|] eqn:Hi; [|done].
  assert (i < length (threads s)) as Hlen by (by eapply lookup_lt_Some).
  assert (∀ p' k c0 m, in_cs p = true →
            <[i := (c, p')]> (threads s) !! k = Some (c0, AtStore m) →
            k = i ∧ p' = AtStore m) as Hone.
  { intros p' k c0 m Hp Hk. destruct (decide (k = i)) as [->|Hne].
    - rewrite list_lookup_insert_eq in Hk by done. by simplify_eq.
    - rewrite list_lookup_insert_ne in Hk by done.
      pose proof (inv_cs _ _ Hinv _ _ _ Hi Hp).
      pose proof (inv_cs _ _ Hinv _ _ _ Hk eq_refl). congruence. }
  destruct p; simpl in Hstep.
  - destruct (holder s); [done|]. simplify_eq. split; simpl; [done..|].
    intros k c0 m Hk. unfold move in Hk.
    destruct (decide (k = i)) as [->|Hne].
    + rewrite list_lookup_insert_eq in Hk by done. by simplify_eq.
    + rewrite list_lookup_insert_ne in Hk by done. by eapply Hstore.
  - destruct (reg s !! c) eqn:Hc; simplify_eq; (split; simpl; [done..|]);
      intros k c0 m Hk; by destruct (Hone _ _ _ _ eq_refl Hk) as [_ ?].
  - simplify_eq. split; simpl.
    + intros c0 m Hm. apply Hused in Hm. lia.
    + done.
    + intros k c0 m Hk. destruct (Hone _ _ _ _ eq_refl Hk) as [_ ?]. simplify_eq.
      split; [lia|]. intros c' Hc'. apply Hused in Hc'. lia.
  - simplify_eq. destruct (Hstore _ _ _ Hi) as [Hm Hnew]. split; simpl.
    + intros c0 m0 Hm0. destruct (decide (c0 = c)) as [->|Hne].
      * rewrite lookup_insert_eq in Hm0. by simplify_eq.
      * rewrite lookup_insert_ne in Hm0 by done. by eapply Hused.
    + intros c1 c2 m0 H1 H2.
      destruct (decide (c1 = c)) as [->|Hne1]; destruct (decide (c2 = c)) as [->|Hne2];
        simplify_map_eq; try done.
      * exfalso. by eapply Hnew.
      * exfalso. by eapply Hnew.
      * by eapply Hinj.
    + intros k c0 m0 Hk. by destruct (Hone _ _ _ _ eq_refl Hk) as [_ ?].
  - simplify_eq. split; simpl; [done..|].
    intros k c0 m0 Hk. by destruct (Hone _ _ _ _ eq_refl Hk) as [_ ?].
  - done.
Qed.

Lemma distinct_run reg0 sched s :
  inv reg0 s → distinct s → distinct (run sched s).
Proof.
  revert s. induction sched as [|i sched IH]; intros s Hinv Hd; [done|].
  rewrite run_cons. destruct (step i s) as [s'|] eqn:Hs; simpl; [|by apply IH].
  apply IH; [by eapply inv_step|by eapply distinct_step].
Qed.

(** X18. When the map starts with one mutex per name, all of them in use,
    then in every interleaving of any number of callers of getOrCreateMutex,
    two callers that asked for different names have got different mutexes. *)
Theorem registry_distinct_names_distinct_mutexes (reg0 : gmap string N)
    (fresh0 : N) (names : list string) (sched : list nat) :
  (∀ c m, reg0 !! c = Some m → (m < fresh0)%N) →
  (∀ c1 c2 m, reg0 !! c1 = Some m → reg0 !! c2 = Some m → c1 = c2) →
  let s := run sched (init reg0 fresh0 names) in
  ∀ i j c1 c2 m1 m2,
    threads s !! i = Some (c1, Done m1) → threads s !! j = Some (c2, Done m2) →
    c1 ≠ c2 → m1 ≠ m2.
Proof.
  intros Hused Hinj s i j c1 c2 m1 m2 Hi Hj Hne ->.
  pose proof (inv_run reg0 sched _ (inv_init reg0 fresh0 names)) as Hinv.
  pose proof (distinct_run reg0 sched _ (inv_init reg0 fresh0 names)
                (distinct_init reg0 fresh0 names Hused Hinj)) as Hd.
  fold s in Hinv, Hd.
  pose proof (inv_pc _ _ Hinv _ _ _ Hi) as H1.
  pose proof (inv_pc _ _ Hinv _ _ _ Hj) as H2. simpl in H1, H2.
  apply Hne. by eapply (dist_inj _ Hd).
Qed.

(** ** The next free address *)

Lemma on_place_next op name ev f w : next (on_place op name ev f w).2 = next w.
Proof. unfold on_place. destruct (reach _ _ _); [done|]. by destruct (f _ _). Qed.

Lemma MkdirAll_next path perm w : next (MkdirAll path perm w).2 = next w.
Proof. unfold MkdirAll. case_bool_decide; [done|]. by destruct (mkdir_all_at _ _ _). Qed.

Lemma Rename_next old new w : next (Rename old new w).2 = next w.
Proof. unfold Rename. destruct (_ || _); [done|]. by destruct (rename_at _ _ _). Qed.

Lemma RemoveAll_next path w : next (RemoveAll path w).2 = next w.
Proof. unfold RemoveAll. repeat case_match; simplify_eq/=; try done. Qed.

Lemma stat_next path w : next (stat path w).2 = next w.
Proof. unfold stat, Stat. io. simpl. by destruct (IsNotExist _). Qed.

Lemma read_each_next dir fis records w : next (read_each dir fis records w).2 = next w.
Proof.
  revert records w. induction fis as [|f rest IH]; intros records w; [done|].
  simpl. io. unfold ReadFile. destruct (read_of w _); [|done]. by rewrite IH.
Qed.

Section Memory.
Context `{Codec V}.

Lemma Write_locked_next d c r (v : V) w : next (Write_locked d c r v w).2 = next w.
Proof.
  unfold Write_locked. io.
  pose proof (MkdirAll_next (Join [dir d; c]) perm_0755 w) as Hm.
  destruct (MkdirAll _ _ w) as [[e|] w1]; simpl in *; [done|].
  destruct (MarshalIndent v "" tab) as [b|e]; [|done].
  unfold WriteFile.
  match goal with |- context [on_place ?a ?b ?c ?f w1] =>
    pose proof (on_place_next a b c f w1) as Hw;
    destruct (on_place a b c f w1) as [[e|] w2] end; simpl in *; [congruence|].
  rewrite Rename_next. congruence.
Qed.

Lemma Read_next d c r (v0 : V) w : next (Read d c r v0 w).2 = next w.
Proof.
  unfold Read. repeat case_bool_decide; try done. io.
  pose proof (stat_next (Join [dir d; c; r]) w) as Hs.
  destruct (stat _ w) as [[fi|e] w1]; simpl in *; [|done].
  unfold ReadFile. by destruct (read_of w1 _).
Qed.

End Memory.

Lemma ReadAll_next d c w : next (ReadAll d c w).2 = next w.
Proof.
  unfold ReadAll. case_bool_decide; [done|]. io.
  pose proof (stat_next (Join [dir d; c]) w) as Hs.
  destruct (stat _ w) as [[fi|e] w1]; simpl in *; [|done].
  unfold ReadDir. destruct (readdir_of w1 _) as [fis err].
  by rewrite read_each_next.
Qed.

Lemma registry_ok_same d w w' :
  heap w' = heap w → next w' = next w → registry_ok d w → registry_ok d w'.
Proof.
  intros Hh Hn. unfold registry_ok. by rewrite (registry_same_heap _ _ _ Hh), Hn.
Qed.

Lemma getOrCreateMutex_next d c w :
  next (getOrCreateMutex d c w).2 =
  if registry d w !! c is Some _ then next w else N.succ (next w).
Proof.
  unfold getOrCreateMutex, registry. io. simpl.
  destruct (heap w !! mutexes d) as [mp|] eqn:Hmp; simpl.
  - by destruct (mp !! c).
  - done.
Qed.

Lemma getOrCreateMutex_ok d c w :
  registry_ok d w →
  registry_ok d (getOrCreateMutex d c w).2 ∧ (getOrCreateMutex d c w).1 ≠ mutex d.
Proof.
  intros (Hmu & Hused & Hinj).
  destruct (getOrCreateMutex_spec d c w) as (Hget & Hgrow & Hhit & Hmiss & _).
  pose proof (getOrCreateMutex_next d c w) as Hnext.
  destruct (registry d w !! c) as [m0|] eqn:Hc.
  - destruct (Hhit m0 eq_refl) as [Hm Hheap]. split.
    + by apply (registry_ok_same d w).
    + rewrite Hm. by apply (Hused c).
  - destruct (Hmiss eq_refl) as [Hm Hreg]. split.
    + unfold registry_ok. rewrite Hnext, Hreg. split_and!.
      * clear -Hmu. lia.
      * intros c0 m. destruct (decide (c0 = c)) as [->|Hne].
        -- rewrite lookup_insert_eq. intros [= <-]. clear -Hmu. split; lia.
        -- rewrite lookup_insert_ne by done. intros [Hlt ?]%Hused. split; [clear -Hlt; lia|done].
      * intros c1 c2 m.
        destruct (decide (c1 = c)) as [->|Hne1]; destruct (decide (c2 = c)) as [->|Hne2];
          simplify_map_eq; try done.
        -- intros [= <-] [Hlt _]%Hused. exfalso. clear -Hlt. lia.
        -- intros [Hlt _]%Hused [= <-]. exfalso. clear -Hlt. lia.
        -- apply Hinj.
    + rewrite Hm. clear -Hmu. lia.
Qed.

Section RegistryOk.
Context `{Codec V}.

Lemma Write_mem d c r (v : V) w :
  let w' := (Write d c r v w).2 in
  (heap w' = heap w ∧ next w' = next w) ∨
  (heap w' = heap (getOrCreateMutex d c w).2 ∧
   next w' = next (getOrCreateMutex d c w).2).
Proof.
  destruct (decide (c = "")) as [->|Hc]; [by left|].
  destruct (decide (r = "")) as [->|Hr].
  { left. unfold Write. by rewrite bool_decide_eq_false_2. }
  right. rewrite Write_unfold by done.
  destruct (getOrCreateMutex d c w) as [m w1]. simpl.
  pose proof (Write_locked_heap d c r v (emit (EvLock m) w1)) as Hh.
  pose proof (Write_locked_next d c r v (emit (EvLock m) w1)) as Hn.
  by destruct (Write_locked _ _ _ _ _).
Qed.

Lemma Delete_mem d c r w :
  let w' := (Delete d c r w).2 in
  (heap w' = heap w ∧ next w' = next w) ∨
  (heap w' = heap (getOrCreateMutex d c w).2 ∧
   next w' = next (getOrCreateMutex d c w).2).
Proof.
  unfold Delete. case_bool_decide; [by left|]. right. io.
  destruct (getOrCreateMutex d c w) as [m w1]. simpl.
  pose proof (stat_heap (Join [dir d; Join [c; r]]) (emit (EvLock m) w1)) as Hs.
  pose proof (stat_next (Join [dir d; Join [c; r]]) (emit (EvLock m) w1)) as Hs'.
  destruct (stat _ _) as [[fi|e] w2]; simpl in *; [|done].
  pose proof (RemoveAll_heap (Join [dir d; Join [c; r]]) w2) as Hra.
  pose proof (RemoveAll_next (Join [dir d; Join [c; r]]) w2) as Hra'.
  pose proof (on_place_heap "remove" (Join [dir d; Join [c; r]] +:+ ".json")
                (EvRemove (Join [dir d; Join [c; r]] +:+ ".json")) remove_at w2) as Hrm.
  pose proof (on_place_next "remove" (Join [dir d; Join [c; r]] +:+ ".json")
                (EvRemove (Join [dir d; Join [c; r]] +:+ ".json")) remove_at w2) as Hrm'.
  unfold Remove.
  destruct (IsDir _); [destruct (RemoveAll _ _); simpl in *; split; congruence|].
  destruct (IsRegular _); [destruct (on_place _ _ _ _ _); simpl in *; split; congruence|done].
Qed.

(** X15. On a driver whose addresses are in use ([registry_ok], which New
    establishes), getOrCreateMutex keeps that state and returns a mutex that
    is not the mutex of the driver; a later call for a different name, on
    any world whose map extends this one, returns a different mutex; and
    Write, Read, ReadAll and Delete keep the state as well. *)
Theorem distinct_collections_distinct_mutexes (d : Driver) (w : World)
    (c1 c2 : string) :
  registry_ok d w → c1 ≠ c2 →
  let r1 := getOrCreateMutex d c1 w in
  (registry_ok d r1.2 ∧ r1.1 ≠ mutex d) ∧
  (∀ w', registry_ok d w' → registry d r1.2 ⊆ registry d w' →
         (getOrCreateMutex d c2 w').1 ≠ r1.1) ∧
  (∀ c r (v v0 : V),
     registry_ok d (Write d c r v w).2 ∧ registry_ok d (Read d c r v0 w).2 ∧
     registry_ok d (ReadAll d c w).2 ∧ registry_ok d (Delete d c r w).2).
Proof.
  intros Hok Hne r1. split_and!.
  - by apply getOrCreateMutex_ok.
  - by apply getOrCreateMutex_ok.
  - intros w' Hok' Hsub Heq.
    destruct (getOrCreateMutex_spec d c1 w) as (Hget1 & _).
    destruct (getOrCreateMutex_spec d c2 w') as (Hget2 & Hgrow2 & _).
    destruct (getOrCreateMutex_ok d c2 w' Hok') as [(_ & _ & Hinj) _].
    fold r1 in Hget1. rewrite Heq in Hget2.
    apply Hne. eapply Hinj; [|exact Hget2].
    eapply lookup_weaken; [|exact Hgrow2]. by eapply lookup_weaken.
  - intros c r v v0. split_and!.
    + destruct (Write_mem d c r v w) as [[Hh Hn]|[Hh Hn]].
      * by apply (registry_ok_same d w).
      * apply (registry_ok_same d (getOrCreateMutex d c w).2); [done..|].
        by apply getOrCreateMutex_ok.
    + apply (registry_ok_same d w); [apply Read_heap|apply Read_next|done].
    + apply (registry_ok_same d w); [apply ReadAll_heap|apply ReadAll_next|done].
    + destruct (Delete_mem d c r w) as [[Hh Hn]|[Hh Hn]].
      * by apply (registry_ok_same d w).
      * apply (registry_ok_same d (getOrCreateMutex d c w).2); [done..|].
        by apply getOrCreateMutex_ok.
Qed.

End RegistryOk.

(** ** A name with a separator at its end *)

Lemma split_trailing c : split (c +:+ "/") = split c ++ [""].
Proof. change (c +:+ "/") with (c +:+ "/" +:+ ""). by rewrite split_app. Qed.

Lemma foldl_cstep_empty rt b cs :
  foldl (cstep rt) b (cs ++ [""]) = foldl (cstep rt) b cs.
Proof. by rewrite foldl_app. Qed.

Lemma Clean_trailing c : c ≠ "" → Clean (c +:+ "/") = Clean c.
Proof.
  intros Hc. rewrite <-(Join_trailing c) by done.
  unfold Join. by rewrite bool_decide_eq_false_2.
Qed.

Lemma Clean_double_sep c q :
  c ≠ "" → Clean ((c +:+ "/") +:+ "/" +:+ q) = Clean (c +:+ "/" +:+ q).
Proof.
  intros Hc. unfold Clean.
  rewrite !bool_decide_eq_false_2 by apply app_sep_nonempty.
  assert (c +:+ "/" ≠ "") as Hc' by (by destruct c).
  rewrite !rooted_app by done.
  rewrite !split_app, split_trailing, !foldl_app. done.
Qed.

Lemma Join_trailing_collection a c :
  c ≠ "" → Join [a; c +:+ "/"] = Join [a; c].
Proof.
  intros Hc. assert (c +:+ "/" ≠ "") as Hc' by (by destruct c).
  destruct (decide (a = "")) as [->|Ha].
  - rewrite !Join_skip, !Join1 by done. by apply Clean_trailing.
  - rewrite !Join2 by done.
    rewrite <-(Clean_trailing (a +:+ "/" +:+ c)) by apply app_sep_nonempty.
    f_equal. by rewrite !app_assoc'.
Qed.

Lemma Join_trailing_record a c r :
  c ≠ "" → Join [a; c +:+ "/"; r] = Join [a; c; r].
Proof.
  intros Hc. assert (c +:+ "/" ≠ "") as Hc' by (by destruct c).
  destruct (decide (a = "")) as [->|Ha].
  - rewrite !Join_skip, !Join2 by done. by apply Clean_double_sep.
  - rewrite !Join3 by done.
    transitivity (Clean (((a +:+ "/" +:+ c) +:+ "/") +:+ "/" +:+ r));
      [f_equal; by rewrite !app_assoc'|].
    rewrite Clean_double_sep by apply app_sep_nonempty.
    f_equal. by rewrite !app_assoc'.
Qed.

Section Alias.
Context `{Codec V}.

(** X16. A collection name and the same name followed by a separator lead
    to the same directory and the same files (Write does the same calls,
    Read, ReadAll and Delete build the same paths), but they are two keys of
    the map of mutexes: getOrCreateMutex gives them different mutexes. *)
Theorem trailing_separator_same_files_other_mutex (d : Driver) (c : string)
    (w : World) :
  registry_ok d w → c ≠ "" →
  (∀ r (v : V) w0, Write_locked d (c +:+ "/") r v w0 = Write_locked d c r v w0) ∧
  (∀ r, Join [dir d; c +:+ "/"; r] = Join [dir d; c; r]) ∧
  Join [dir d; c +:+ "/"] = Join [dir d; c] ∧
  (∀ r, Join [dir d; Join [c +:+ "/"; r]] = Join [dir d; Join [c; r]]) ∧
  (getOrCreateMutex d (c +:+ "/") (getOrCreateMutex d c w).2).1
    ≠ (getOrCreateMutex d c w).1.
Proof.
  intros Hok Hc. assert (c +:+ "/" ≠ "") as Hc' by (by destruct c).
  split_and!.
  - intros r v w0. unfold Write_locked. by rewrite Join_trailing_collection.
  - intros r. by apply Join_trailing_record.
  - by apply Join_trailing_collection.
  - intros r. rewrite (Join2 (c +:+ "/") r), (Join2 c r) by done.
    by rewrite Clean_double_sep.
  - intros Heq.
    destruct (getOrCreateMutex_spec d c w) as (Hget1 & _).
    destruct (getOrCreateMutex_ok d c w Hok) as [Hok1 _].
    set (w1 := (getOrCreateMutex d c w).2) in *.
    destruct (getOrCreateMutex_spec d (c +:+ "/") w1) as (Hget2 & Hgrow2 & _).
    destruct (getOrCreateMutex_ok d (c +:+ "/") w1 Hok1) as [(_ & _ & Hinj) _].
    rewrite Heq in Hget2.
    assert (c = c +:+ "/") as Habs.
    { eapply Hinj; [|exact Hget2]. by eapply lookup_weaken. }
    symmetry in Habs. by apply suffix_ne in Habs.
Qed.

End Alias.

(** The map of mutexes of a new driver is empty, and the maps of the drivers
    made before are what they were. *)
Lemma New_registries root opts w :
  let d := (New root opts w).1.1 in
  let w1 := (New root opts w).2 in
  registry d w1 = ∅ ∧ registry_ok d w1 ∧
  (∀ d', (mutexes d' < next w)%N →
         mutexes d' ≠ mutexes d ∧ registry d' w1 = registry d' w).
Proof.
  unfold New. io. simpl.
  set (lg := match opt_Logger _ with Some l => l | None => ConsoleLogger INFO end).
  set (w0 := set_heap _ _).
  set (d := {| mutex := next w; mutexes := N.succ (next w); dir := Clean root;
               log := lg |}).
  assert (∀ w1, heap w1 = heap w0 → next w1 = next w0 →
            registry d w1 = ∅ ∧ registry_ok d w1 ∧
            (∀ d', (mutexes d' < next w)%N →
               mutexes d' ≠ mutexes d ∧ registry d' w1 = registry d' w)) as Hmem.
  { intros w1 Hh Hn.
    assert (registry d w1 = ∅) as Hreg.
    { unfold registry. rewrite Hh. simpl. by rewrite lookup_insert_eq. }
    split; [done|]. split.
    - unfold registry_ok. rewrite Hreg, Hn. simpl. split_and!; [lia|done..].
    - intros d' Hd'. simpl. split; [lia|].
      unfold registry. rewrite Hh. simpl. rewrite lookup_insert_ne; [done|lia]. }
  destruct (stat_of _ (Clean root)) as [fi|err]; simpl; [by apply Hmem|].
  match goal with |- context [Mkdir ?a ?b ?wx] =>
    pose proof (on_place_heap "mkdir" a (EvMkdir a b) (mkdir_at b) wx) as Hh;
    pose proof (on_place_next "mkdir" a (EvMkdir a b) (mkdir_at b) wx) as Hn;
    fold (Mkdir a b) in Hh, Hn;
    destruct (Mkdir a b wx) as [e1 w2] end.
  simpl in *. by apply Hmem.
Qed.

(** X12. New always returns a driver, with the logger of the options or,
    when there is none, a console logger at level INFO. Its map of mutexes
    is new and empty, its addresses are in use ([registry_ok]), and the map
    of any driver made before is still what it was. When the root exists,
    New makes one probe and logs one message at level DEBUG. *)
Theorem New_driver_fresh (root : string) (opts : option Options) (w : World) :
  let d := (New root opts w).1.1 in
  let w1 := (New root opts w).2 in
  log d = match opts with
          | Some {| opt_Logger := Some l |} => l
          | _ => ConsoleLogger INFO
          end ∧
  registry d w1 = ∅ ∧ registry_ok d w1 ∧
  (∀ d', (mutexes d' < next w)%N →
         mutexes d' ≠ mutexes d ∧ registry d' w1 = registry d' w) ∧
  (is_Ok (stat_of w (Clean root)) = true →
   trace w1 = trace w ++
     [EvStat (Clean root);
      EvLog (log d) DEBUG ("Using '%s' (database already exists)" +:+ nl) [Clean root]]).
Proof.
  intros d w1.
  destruct (New_registries root opts w) as (Hreg & Hok & Hother).
  fold d w1 in Hreg, Hok, Hother.
  split_and!; [|done..|]; unfold d, w1, New; io; simpl.
  - destruct (stat_of _ (Clean root)); simpl.
    + by destruct opts as [[[l|]]|].
    + match goal with |- context [Mkdir ?a ?b ?wx] => destruct (Mkdir a b wx) end.
      by destruct opts as [[[l|]]|].
  - set (w0 := set_heap _ _).
    assert (stat_of w0 (Clean root) = stat_of w (Clean root)) as -> by done.
    destruct (stat_of w (Clean root)); simpl; [|by intros [=]].
    intros _. by rewrite <-app_assoc.
Qed.

(** ** Calls that only add to the trace *)

Lemma logged_app es1 es2 w : logged es2 (logged es1 w) = logged (es1 ++ es2) w.
Proof. unfold logged. simpl. by rewrite <-app_assoc. Qed.

Lemma stat_logged path w :
  (stat path w).2 = logged [EvStat path] w ∨
  (stat path w).2 = logged [EvStat path; EvStat (path +:+ ".json")] w.
Proof.
  unfold stat, Stat. io. simpl. destruct (IsNotExist _); [right|by left].
  unfold emit, logged. simpl. by rewrite <-app_assoc.
Qed.

Lemma read_each_logged dir fis records w :
  ∃ es, (read_each dir fis records w).2 = logged es w ∧
        Forall (λ e, is_probe e = true) es.
Proof.
  revert records w. induction fis as [|f rest IH]; intros records w.
  { exists []. split; [|done]. unfold logged. simpl. rewrite app_nil_r. by destruct w. }
  simpl. io. unfold ReadFile.
  destruct (read_of w _) as [b|e].
  - destruct (IH (records ++ [String.string_of_list_byte b])
                (emit (EvReadFile (Join [dir; Name f])) w)) as (es & -> & Hes).
    exists (EvReadFile (Join [dir; Name f]) :: es). split; [|by constructor].
    change (emit ?e ?w) with (logged [e] w). by rewrite logged_app.
  - exists [EvReadFile (Join [dir; Name f])]. split; [done|by repeat constructor].
Qed.

Section ReadOnly.
Context `{Codec V}.

(** X2. Read and ReadAll change nothing: not the tree, not the heap, and
    they take no mutex. All that they add to the trace are probes (Stat,
    ReadFile, ReadDir), at most three of them for Read. *)
Theorem Read_and_ReadAll_only_probe (d : Driver) (c r : string) (v0 : V)
    (w : World) :
  (∃ es, (Read d c r v0 w).2 = logged es w ∧
         Forall (λ e, is_probe e = true) es ∧ length es ≤ 3) ∧
  (∃ es, (ReadAll d c w).2 = logged es w ∧ Forall (λ e, is_probe e = true) es).
Proof.
  assert (w = logged [] w) as Hnil.
  { unfold logged. rewrite app_nil_r. by destruct w. }
  split.
  - unfold Read. repeat case_bool_decide;
      try (exists []; split_and!; [done|done|simpl; lia]). io.
    set (record := Join [dir d; c; r]).
    destruct (stat_logged record w) as [Hs|Hs];
      destruct (stat record w) as [[fi|e] w1]; simpl in *; subst w1.
    + exists [EvStat record; EvReadFile (record +:+ ".json")].
      unfold ReadFile. split_and!; [|by repeat constructor|simpl; lia].
      change (emit ?e ?w) with (logged [e] w).
      destruct (read_of _ _); simpl; by rewrite logged_app.
    + exists [EvStat record]. split_and!; [done|by repeat constructor|simpl; lia].
    + exists [EvStat record; EvStat (record +:+ ".json"); EvReadFile (record +:+ ".json")].
      unfold ReadFile. split_and!; [|by repeat constructor|simpl; lia].
      change (emit ?e ?w) with (logged [e] w).
      destruct (read_of _ _); simpl; by rewrite logged_app.
    + exists [EvStat record; EvStat (record +:+ ".json")].
      split_and!; [done|by repeat constructor|simpl; lia].
  - unfold ReadAll. case_bool_decide; [by exists []|]. io.
    set (dirp := Join [dir d; c]).
    assert (∃ es0, (stat dirp w).2 = logged es0 w ∧
                   Forall (λ e, is_probe e = true) es0) as (es0 & Hs & Hes0).
    { destruct (stat_logged dirp w) as [->| ->]; eexists; split; try done;
        by repeat constructor. }
    destruct (stat dirp w) as [[fi|e] w1]; simpl in *; subst w1; [|by exists es0].
    unfold ReadDir. destruct (readdir_of _ dirp) as [fis err].
    destruct (read_each_logged dirp fis [] (emit (EvReadDir dirp) (logged es0 w)))
      as (es & -> & Hes).
    exists (es0 ++ EvReadDir dirp :: es). split.
    + change (emit (EvReadDir dirp) (logged es0 w))
        with (logged [EvReadDir dirp] (logged es0 w)).
      by rewrite !logged_app.
    + apply Forall_app. split; [done|by constructor].
Qed.

End ReadOnly.

(** ** The mutex of the collection around the calls *)

Section Locks.
Context `{Codec V}.

Lemma Write_locked_trace d c r (v : V) w :
  ∃ es, trace (Write_locked d c r v w).2 = trace w ++ es ∧
        Forall (λ e, is_lock_event e = false) es ∧ es ≠ [].
Proof.
  unfold Write_locked. io.
  destruct (MkdirAll _ _ w) as [e0 wa] eqn:Hmk.
  apply MkdirAll_inv in Hmk as (_ & Htr_a & _).
  destruct e0 as [err|]; simpl.
  { eexists. split; [exact Htr_a|]. split; [by repeat constructor|done]. }
  destruct (MarshalIndent v "" tab) as [b|err].
  2:{ eexists. split; [exact Htr_a|]. split; [by repeat constructor|done]. }
  destruct (WriteFile _ _ _ wa) as [e1 wb] eqn:Hwr.
  apply on_place_inv in Hwr as (_ & Htr_b & _).
  destruct e1 as [err|]; simpl.
  { eexists. split; [by rewrite Htr_b, Htr_a, <-app_assoc|].
    split; [by repeat constructor|done]. }
  destruct (Rename _ _ wb) as [e2 wc] eqn:Hrn.
  apply Rename_inv in Hrn as (_ & Htr_c & _). simpl.
  eexists. split; [by rewrite Htr_c, Htr_b, Htr_a, <-!app_assoc|].
  split; [by repeat constructor|done].
Qed.

Lemma Write_trace d c r (v : V) w :
  c ≠ "" → r ≠ "" →
  ∃ es, trace (Write d c r v w).2 =
          trace w ++ [EvLock (mutex d); EvUnlock (mutex d);
                      EvLock (getOrCreateMutex d c w).1] ++ es
                  ++ [EvUnlock (getOrCreateMutex d c w).1] ∧
        Forall (λ e, is_lock_event e = false) es ∧ es ≠ [].
Proof.
  intros Hc Hr.
  destruct (getOrCreateMutex_spec d c w) as (_ & _ & _ & _ & Htr0).
  rewrite Write_unfold by done.
  destruct (getOrCreateMutex d c w) as [m w0]. simpl in *.
  destruct (Write_locked_trace d c r v (emit (EvLock m) w0)) as (es & Htr & Hes & Hne).
  destruct (Write_locked _ _ _ _ _) as [res w2]. simpl in *.
  exists es. split_and!; [|done..].
  rewrite Htr, Htr0. by rewrite <-!app_assoc.
Qed.

End Locks.

Lemma Delete_trace d c r w :
  c ≠ "" →
  ∃ es, trace (Delete d c r w).2 =
          trace w ++ [EvLock (mutex d); EvUnlock (mutex d);
                      EvLock (getOrCreateMutex d c w).1] ++ es
                  ++ [EvUnlock (getOrCreateMutex d c w).1] ∧
        Forall (λ e, is_lock_event e = false) es ∧ es ≠ [].
Proof.
  intros Hc.
  destruct (getOrCreateMutex_spec d c w) as (_ & _ & _ & _ & Htr0).
  unfold Delete. rewrite bool_decide_eq_false_2 by done. io.
  destruct (getOrCreateMutex d c w) as [m w0]. simpl in *.
  set (target := Join [dir d; Join [c; r]]).
  assert (∃ es0, trace (stat target (emit (EvLock m) w0)).2
                 = trace w0 ++ [EvLock m] ++ es0 ∧
                 Forall (λ e, is_lock_event e = false) es0 ∧ es0 ≠ [])
    as (es0 & Hs & Hes0 & Hne0).
  { destruct (stat_logged target (emit (EvLock m) w0)) as [->| ->]; simpl;
      eexists; (split; [by rewrite <-app_assoc|]); split; try done;
      by repeat constructor. }
  destruct (stat target _) as [[fi|e] w1]; simpl in *.
  2:{ exists es0. split_and!; [|done..]. rewrite Hs, Htr0. by rewrite <-!app_assoc. }
  destruct (IsDir (Mode fi)).
  { assert (trace (RemoveAll target w1).2 = trace w1 ++ [EvRemoveAll target]) as Hra.
    { unfold RemoveAll. repeat case_match; simplify_eq/=; done. }
    destruct (RemoveAll target w1) as [res w2]. simpl in *.
    exists (es0 ++ [EvRemoveAll target]). split_and!.
    - rewrite Hra, Hs, Htr0. by rewrite <-!app_assoc.
    - apply Forall_app. split; [done|by repeat constructor].
    - by destruct es0. }
  destruct (IsRegular (Mode fi)).
  { destruct (Remove (target +:+ ".json") w1) as [res w2] eqn:Hrm.
    apply on_place_inv in Hrm as (_ & Hrm & _). simpl.
    exists (es0 ++ [EvRemove (target +:+ ".json")]). split_and!.
    - rewrite Hrm, Hs, Htr0. by rewrite <-!app_assoc.
    - apply Forall_app. split; [done|by repeat constructor].
    - by destruct es0. }
  simpl. exists es0. split_and!; [|done..].
  rewrite Hs, Htr0. by rewrite <-!app_assoc.
Qed.

Section LockTheorems.
Context `{Codec V}.

(** X3. For a non-empty collection, Write (with a non-empty resource) and
    Delete first look up the mutex of the collection, under the mutex of the
    driver, which they release before any call on the tree; then they lock
    the mutex of the collection, make their calls on the tree (at least
    one), and unlock it as their last step, whether they fail or not. *)
Theorem Write_and_Delete_hold_the_collection_mutex (d : Driver)
    (c r : string) (v : V) (w : World) :
  c ≠ "" →
  let m := (getOrCreateMutex d c w).1 in
  (r ≠ "" →
   ∃ es, trace (Write d c r v w).2 =
           trace w ++ [EvLock (mutex d); EvUnlock (mutex d); EvLock m] ++ es
                   ++ [EvUnlock m] ∧
         Forall (λ e, is_lock_event e = false) es ∧ es ≠ []) ∧
  (∃ es, trace (Delete d c r w).2 =
           trace w ++ [EvLock (mutex d); EvUnlock (mutex d); EvLock m] ++ es
                   ++ [EvUnlock m] ∧
         Forall (λ e, is_lock_event e = false) es ∧ es ≠ []).
Proof.
  intros Hc m. split.
  - intros Hr. by apply Write_trace.
  - by apply Delete_trace.
Qed.

(** X1. Read with an empty collection or an empty resource, ReadAll with an
    empty collection and Delete with an empty collection return a validation
    error and leave the world as it was (Read also leaves the value of the
    caller). An empty resource is no error for Delete: with a non-empty
    collection it goes on to its calls. *)
Theorem empty_collection_rejected_before_any_effect (d : Driver) (c r : string)
    (v0 : V) (w : World) :
  Read d "" r v0 w = ((v0, Some (Errorf "collection name cannot be empty" [])), w) ∧
  (∃ e, Read d c "" v0 w = ((v0, Some e), w) ∧ ValidationError e = true) ∧
  ReadAll d "" w = (([], Some (Errorf "collection name cannot be empty" [])), w) ∧
  Delete d "" r w = (Some (Errorf "collection name cannot be empty" []), w) ∧
  ValidationError (Errorf "collection name cannot be empty" []) = true ∧
  (c ≠ "" → trace (Delete d c "" w).2 ≠ trace w).
Proof.
  split_and!; try done.
  - unfold Read. case_bool_decide; eexists; split; reflexivity.
  - intros Hc. destruct (Delete_trace d c "" w Hc) as (es & -> & _).
    intros Heq. apply (f_equal length) in Heq. rewrite !length_app in Heq.
    simpl in Heq. lia.
Qed.

End LockTheorems.

(** ** When Write succeeds *)

Lemma on_place_ok op name ev f w :
  name ≠ "" → walk (files w) (locate (cwd w) name) = None →
  on_place op name ev f w =
  (perr op name <$> (f (files w) (locate (cwd w) name)).1,
   emit ev (set_files (f (files w) (locate (cwd w) name)).2 w)).
Proof.
  intros Hne Hwalk. unfold on_place, reach.
  rewrite bool_decide_eq_false_2, Hwalk by done. by destruct (f _ _).
Qed.

Lemma parent_writable_insert_beside t c c' up n :
  parent_writable (<[c' :: up := n]> t) (c :: up) = parent_writable t (c :: up).
Proof.
  simpl. rewrite lookup_insert_ne; [done|].
  intros Heq. apply (f_equal length) in Heq. simpl in Heq. lia.
Qed.

Section WriteOk.
Context `{Codec V}.

Lemma Write_locked_ok d c r (v : V) w b t1 p :
  c ≠ "" →
  MarshalIndent v "" tab = Ok b →
  mkdir_all_at perm_0755 (files w) (locate (cwd w) (Join [dir d; c])) = (None, t1) →
  let fnl := Join [Join [dir d; c]; r +:+ ".json"] in
  let kf := locate (cwd w) fnl in
  let kt := locate (cwd w) (fnl +:+ ".tmp") in
  walk t1 kf = None → parent_writable t1 kf = true → is_dir (t1 !! kf) = false →
  (t1 !! kt = None ∧ p = perm_0644 ∨ ∃ d0, t1 !! kt = Some (File p d0) ∧ may_write p = true) →
  (Write_locked d c r v w).1 = None ∧
  cwd (Write_locked d c r v w).2 = cwd w ∧
  files (Write_locked d c r v w).2 = <[kf := File p (b ++ [Byte.x0a])]> (delete kt t1).
Proof.
  intros Hc Hmar Hmk fnl kf kt Hwalk Hpw Hdir Htmp.
  destruct (temp_beside (cwd w) (Join [dir d; c]) r) as (x & up & Hkf & Hkt).
  fold fnl in Hkf, Hkt. subst kf kt. rewrite Hkf, Hkt in *.
  assert (x +:+ ".tmp" ≠ x) as Hxne by (by apply suffix_ne).
  assert (fnl ≠ "") as Hfnl by apply named_nonempty, final_path_named.
  assert (fnl +:+ ".tmp" ≠ "") as Htmpne by (by destruct fnl).
  subst fnl.
  assert (Join [dir d; c] ≠ "") as Hdirne.
  { destruct (decide (dir d = "")) as [->|Hd].
    - rewrite Join_skip, Join1 by done. apply Clean_nonempty.
    - rewrite Join2 by done. apply Clean_nonempty. }
  unfold Write_locked. io. unfold MkdirAll.
  rewrite bool_decide_eq_false_2, Hmk by done. simpl. rewrite Hmar.
  unfold WriteFile. rewrite on_place_ok; simpl; rewrite ?Hkt;
    [|done|by rewrite (walk_sibling _ _ x)].
  assert (write_at (b ++ [Byte.x0a]) perm_0644 t1 ((x +:+ ".tmp") :: up)
          = (None, <[(x +:+ ".tmp") :: up := File p (b ++ [Byte.x0a])]> t1)) as ->.
  { unfold write_at. destruct Htmp as [[-> ->]|(d0 & -> & ->)]; [|done].
    change (parent_writable t1 ((x +:+ ".tmp") :: up)) with (parent_writable t1 (x :: up)).
    by rewrite Hpw. }
  simpl. unfold Rename. simpl.
  rewrite !bool_decide_eq_false_2 by done. simpl. rewrite Hkf, Hkt.
  set (t2 := <[(x +:+ ".tmp") :: up := _]> t1).
  assert (rename_at t2 ((x +:+ ".tmp") :: up) (x :: up)
          = (None, <[x :: up := File p (b ++ [Byte.x0a])]> (delete ((x +:+ ".tmp") :: up) t2)))
    as ->.
  { unfold rename_at.
    assert (walk t2 (x :: up) = None) as -> by (unfold t2; by rewrite walk_insert_beside).
    assert (t2 !! (x :: up) = t1 !! (x :: up)) as Hsame.
    { unfold t2. rewrite lookup_insert_ne; [done|congruence]. }
    assert (walk t2 ((x +:+ ".tmp") :: up) = None) as ->.
    { unfold t2. by rewrite walk_insert_beside, (walk_sibling _ _ x). }
    assert (t2 !! ((x +:+ ".tmp") :: up) = Some (File p (b ++ [Byte.x0a]))) as ->
      by (unfold t2; by rewrite lookup_insert_eq).
    assert (parent_writable t2 ((x +:+ ".tmp") :: up) = true) as ->.
    { unfold t2. rewrite parent_writable_insert_beside. exact Hpw. }
    assert (parent_writable t2 (x :: up) = true) as ->.
    { unfold t2. rewrite parent_writable_insert_beside. exact Hpw. }
    rewrite Hsame. simpl.
    destruct (t1 !! (x :: up)) as [[]|]; done. }
  simpl. split_and!; [done..|]. unfold t2. by rewrite delete_insert_eq.
Qed.

End WriteOk.

Lemma mkdir_all_at_dir perm t k p :
  walk t k = None → t !! k = Some (Dir p) → mkdir_all_at perm t k = (None, t).
Proof. intros Hw Hk. destruct k; simpl; by rewrite ?Hw, ?Hk. Qed.

Lemma find_inr wd t name k n :
  find wd t name = inr (k, n) →
  name ≠ "" ∧ k = locate wd name ∧ walk t k = None ∧ t !! k = Some n.
Proof.
  unfold find. case_bool_decide; [done|].
  destruct (walk _ _) eqn:Hw; [done|].
  destruct (t !! locate wd name) eqn:Hk; [|done]. intros [= <- <-]. done.
Qed.

Lemma Join_nonempty a c : c ≠ "" → Join [a; c] ≠ "".
Proof.
  intros Hc. destruct (decide (a = "")) as [->|Ha].
  - rewrite Join_skip, Join1 by done. apply Clean_nonempty.
  - rewrite Join2 by done. apply Clean_nonempty.
Qed.

Lemma proper_json r : proper r = true → proper (r +:+ ".json") = true.
Proof. intros Hr. apply proper_ext; [by apply proper_no_slash|done|simpl; lia]. Qed.

Lemma proper_nonempty r : proper r = true → r ≠ "".
Proof. by intros Hr ->. Qed.

Lemma proper_named r : proper r = true → named r = true.
Proof.
  intros Hr. unfold named. rewrite split_no_slash by (by apply proper_no_slash). done.
Qed.

(** The places of a document named by a plain name, and of its temporary
    file. *)
Lemma document_places wd a c r :
  c ≠ "" → proper r = true →
  let kc := locate wd (Join [a; c]) in
  locate wd (Join [a; c; r]) = r :: kc ∧
  locate wd (Join [a; c; r] +:+ ".json") = (r +:+ ".json") :: kc ∧
  locate wd (Join [Join [a; c]; r +:+ ".json"]) = (r +:+ ".json") :: kc ∧
  locate wd (Join [Join [a; c]; r +:+ ".json"] +:+ ".tmp") = (r +:+ ".json.tmp") :: kc.
Proof.
  intros Hc Hr kc.
  assert (locate wd (Join [Join [a; c]; r +:+ ".json"]) = (r +:+ ".json") :: kc) as Hkf.
  { apply locate_Join_child; [by apply Join_nonempty|by apply proper_json]. }
  assert (locate wd (Join [a; c; r]) = r :: kc) as Hkr.
  { destruct (decide (a = "")) as [->|Ha].
    - subst kc. rewrite !Join_skip, Join1 by done.
      rewrite Join2, <-Clean_app_l, <-Join2 by (done || apply Clean_nonempty).
      apply locate_Join_child; [apply Clean_nonempty|done].
    - rewrite <-Join_Join by done. apply locate_Join_child; [by apply Join_nonempty|done]. }
  split_and!; [done| |done|].
  - rewrite <-Join_named by (done || by apply proper_named). done.
  - destruct (temp_beside wd (Join [a; c]) r) as (x & up & Hx & ->).
    rewrite Hkf in Hx. simplify_eq. by rewrite app_assoc'.
Qed.

Lemma mkdir_all_at_new t c kroot p :
  walk t kroot = None → t !! kroot = Some (Dir p) →
  may_write p = true → may_search p = true → t !! (c :: kroot) = None →
  mkdir_all_at perm_0755 t (c :: kroot) = (None, <[c :: kroot := Dir perm_0755]> t).
Proof.
  intros Hwalk Hlook Hpw Hps Hnew.
  assert (walk t (c :: kroot) = None) as Hwalkc.
  { rewrite walk_cons, Hwalk, Hlook. by rewrite Hps. }
  simpl. rewrite Hwalkc, Hnew.
  rewrite (mkdir_all_at_dir _ _ _ p) by done.
  rewrite Hwalkc. unfold mkdir_at. rewrite Hnew. simpl. by rewrite Hlook, Hpw.
Qed.

Lemma on_place_same op name ev f w w' :
  same_fs w w' →
  (on_place op name ev f w').1 = (on_place op name ev f w).1 ∧
  same_fs (on_place op name ev f w).2 (on_place op name ev f w').2.
Proof.
  intros [Hc Hf]. unfold on_place. rewrite Hc, Hf.
  destruct (reach _ _ _); [done|]. by destruct (f _ _).
Qed.

Lemma MkdirAll_same path perm w w' :
  same_fs w w' →
  (MkdirAll path perm w').1 = (MkdirAll path perm w).1 ∧
  same_fs (MkdirAll path perm w).2 (MkdirAll path perm w').2.
Proof.
  intros [Hc Hf]. unfold MkdirAll. rewrite Hc, Hf.
  case_bool_decide; [done|]. by destruct (mkdir_all_at _ _ _).
Qed.

Lemma Rename_same old new w w' :
  same_fs w w' →
  (Rename old new w').1 = (Rename old new w).1 ∧
  same_fs (Rename old new w).2 (Rename old new w').2.
Proof.
  intros [Hc Hf]. unfold Rename. rewrite Hc, Hf.
  destruct (_ || _); [done|]. by destruct (rename_at _ _ _).
Qed.

Section WriteThm.
Context `{Codec V}.

Lemma Write_locked_same d c r (v : V) w w' :
  same_fs w w' →
  (Write_locked d c r v w').1 = (Write_locked d c r v w).1 ∧
  cwd (Write_locked d c r v w').2 = cwd (Write_locked d c r v w).2 ∧
  files (Write_locked d c r v w').2 = files (Write_locked d c r v w).2.
Proof.
  intros Hs. unfold Write_locked. io.
  destruct (MkdirAll_same (Join [dir d; c]) perm_0755 _ _ Hs) as [Hr1 Hs1].
  destruct (MkdirAll _ _ w) as [e1 w1], (MkdirAll _ _ w') as [e1' w1'].
  simpl in *. subst e1'. destruct e1; [by destruct Hs1|].
  destruct (MarshalIndent v "" tab) as [b|e]; [|by destruct Hs1].
  unfold WriteFile.
  match goal with |- context [on_place ?a ?n ?ev ?f w1] =>
    destruct (on_place_same a n ev f _ _ Hs1) as [Hr2 Hs2];
    destruct (on_place a n ev f w1) as [e2 w2], (on_place a n ev f w1') as [e2' w2'] end.
  simpl in *. subst e2'. destruct e2; [by destruct Hs2|].
  match goal with |- context [Rename ?a ?n w2] =>
    destruct (Rename_same a n _ _ Hs2) as [Hr3 Hs3];
    destruct (Rename a n w2) as [e3 w3], (Rename a n w2') as [e3' w3'] end.
  simpl in *. by destruct Hs3.
Qed.

Lemma Write_fst_files d c r (v : V) w :
  c ≠ "" → r ≠ "" →
  (Write d c r v w).1 = (Write_locked d c r v w).1 ∧
  files (Write d c r v w).2 = files (Write_locked d c r v w).2 ∧
  cwd (Write d c r v w).2 = cwd w.
Proof.
  intros Hc Hr. rewrite Write_unfold by done.
  pose proof (getOrCreateMutex_fs d c w) as [Hcwd0 Hfiles0].
  destruct (getOrCreateMutex d c w) as [m w0]. simpl in *.
  assert (same_fs w (emit (EvLock m) w0)) as Hs by done.
  destruct (Write_locked_same d c r v _ _ Hs) as (Hres & Hcwd & Hfiles).
  destruct (Write_locked d c r v (emit _ _)) as [res w2]. simpl in *.
  split_and!; [done..|]. rewrite Hcwd.
  destruct (Write_locked_inv d c r v w _ _ (surjective_pairing _)) as (t1 & ? & _).
  done.
Qed.

(** Write into a directory that exists. *)
Lemma Write_existing d c r (v : V) w b kc p :
  c ≠ "" → proper r = true → MarshalIndent v "" tab = Ok b →
  find (cwd w) (files w) (Join [dir d; c]) = inr (kc, Dir p) →
  may_write p = true → may_search p = true →
  is_dir (files w !! ((r +:+ ".json") :: kc)) = false →
  files w !! ((r +:+ ".json.tmp") :: kc) = None →
  (Write_locked d c r v w).1 = None ∧
  files (Write_locked d c r v w).2 =
    <[(r +:+ ".json") :: kc := File perm_0644 (b ++ [Byte.x0a])]> (files w).
Proof.
  intros Hc Hr Hmar Hfind Hpw Hps Hdir Htmp.
  apply find_inr in Hfind as (Hne & Hkc & Hwalk & Hlook).
  destruct (document_places (cwd w) (dir d) c r Hc Hr) as (_ & _ & Hkf & Hkt).
  rewrite <-Hkc in Hkf, Hkt.
  destruct (Write_locked_ok d c r v w b (files w) perm_0644 Hc Hmar) as (Hres & _ & Hfiles).
  - rewrite <-Hkc. by eapply mkdir_all_at_dir.
  - rewrite Hkf, walk_cons, Hwalk, Hlook. by rewrite Hps.
  - rewrite Hkf. simpl. by rewrite Hlook.
  - by rewrite Hkf.
  - left. by rewrite Hkt.
  - split; [done|]. rewrite Hfiles, Hkf, Hkt. by rewrite delete_id.
Qed.

(** X4. Write of a plain resource name into a collection whose directory
    exists and may be written and searched succeeds, whatever regular file
    lies at the final path (also one that may not be written), when nothing
    lies at the temporary path. Afterwards the tree is the tree before with
    the document at the final path: a regular file of mode 0644 that holds
    the encoding and a newline. Nothing else has changed, and no temporary
    file is left. *)
Theorem Write_into_existing_collection (d : Driver) (c r : string) (v : V)
    (w : World) (b : list Byte.byte) (kc : place) (p : N) :
  c ≠ "" → proper r = true → MarshalIndent v "" tab = Ok b →
  find (cwd w) (files w) (Join [dir d; c]) = inr (kc, Dir p) →
  may_write p = true → may_search p = true →
  is_dir (files w !! ((r +:+ ".json") :: kc)) = false →
  files w !! ((r +:+ ".json.tmp") :: kc) = None →
  (Write d c r v w).1 = None ∧
  files (Write d c r v w).2 =
    <[(r +:+ ".json") :: kc := File perm_0644 (b ++ [Byte.x0a])]> (files w).
Proof.
  intros Hc Hr Hmar Hfind Hpw Hps Hdir Htmp.
  destruct (Write_fst_files d c r v w Hc (proper_nonempty _ Hr)) as (-> & -> & _).
  by eapply Write_existing.
Qed.

(** Write into a directory that is not there yet. *)
Lemma Write_first d c r (v : V) w b kroot p :
  proper c = true → proper r = true → MarshalIndent v "" tab = Ok b →
  well_formed (files w) →
  find (cwd w) (files w) (dir d) = inr (kroot, Dir p) →
  may_write p = true → may_search p = true →
  files w !! (c :: kroot) = None →
  (Write_locked d c r v w).1 = None ∧
  files (Write_locked d c r v w).2 =
    <[(r +:+ ".json") :: c :: kroot := File perm_0644 (b ++ [Byte.x0a])]>
      (<[c :: kroot := Dir perm_0755]> (files w)).
Proof.
  intros Hc Hr Hmar Hwf Hfind Hpw Hps Hnew.
  apply find_inr in Hfind as (Hne & Hkroot & Hwalk & Hlook).
  pose proof (proper_nonempty _ Hc) as Hcne.
  assert (locate (cwd w) (Join [dir d; c]) = c :: kroot) as Hkc.
  { rewrite Hkroot. by apply locate_Join_child. }
  destruct (document_places (cwd w) (dir d) c r Hcne Hr) as (_ & _ & Hkf & Hkt).
  rewrite Hkc in Hkf, Hkt.
  assert (walk (files w) (c :: kroot) = None) as Hwalkc.
  { rewrite walk_cons, Hwalk, Hlook. by rewrite Hps. }
  set (t1 := <[c :: kroot := Dir perm_0755]> (files w)).
  assert (∀ x, t1 !! (x :: c :: kroot) = None) as Hbelow.
  { intros x. unfold t1. rewrite lookup_insert_ne.
    - eapply wf_nothing_below; [done..|]. by exists [x].
    - intros Heq. apply (f_equal length) in Heq. simpl in Heq. lia. }
  destruct (Write_locked_ok d c r v w b t1 perm_0644 Hcne Hmar) as (Hres & _ & Hfiles).
  - rewrite Hkc. by apply (mkdir_all_at_new _ _ _ p).
  - rewrite Hkf, walk_cons. unfold t1. rewrite walk_insert_beside, Hwalkc.
    by rewrite lookup_insert_eq.
  - rewrite Hkf. simpl. unfold t1. by rewrite lookup_insert_eq.
  - by rewrite Hkf, Hbelow.
  - left. by rewrite Hkt, Hbelow.
  - split; [done|]. rewrite Hfiles, Hkf, Hkt. by rewrite delete_id.
Qed.

(** X5. The first Write into a collection (a plain name) makes its
    directory: when the root of the store is a directory that may be written
    and searched and has no entry of that name, Write succeeds and the tree
    gains exactly the directory of the collection, of mode 0755, and in it
    the document, of mode 0644. *)
Theorem first_Write_creates_the_collection (d : Driver) (c r : string) (v : V)
    (w : World) (b : list Byte.byte) (kroot : place) (p : N) :
  proper c = true → proper r = true → MarshalIndent v "" tab = Ok b →
  well_formed (files w) →
  find (cwd w) (files w) (dir d) = inr (kroot, Dir p) →
  may_write p = true → may_search p = true →
  files w !! (c :: kroot) = None →
  (Write d c r v w).1 = None ∧
  files (Write d c r v w).2 =
    <[(r +:+ ".json") :: c :: kroot := File perm_0644 (b ++ [Byte.x0a])]>
      (<[c :: kroot := Dir perm_0755]> (files w)).
Proof.
  intros Hc Hr Hmar Hwf Hfind Hpw Hps Hnew.
  destruct (Write_fst_files d c r v w (proper_nonempty _ Hc) (proper_nonempty _ Hr))
    as (-> & -> & _).
  by eapply Write_first.
Qed.

End WriteThm.

(** ** Write: the temporary file, then the rename *)

Section WriteAtomic.
Context `{Codec V}.

Lemma Write_locked_steps d c r (v : V) w :
  let dirp := Join [dir d; c] in
  let fnlPath := Join [dirp; r +:+ ".json"] in
  let tempPath := fnlPath +:+ ".tmp" in
  ∃ steps,
    trace (Write_locked d c r v w).2 = trace w ++ EvMkdirAll dirp perm_0755 :: steps ∧
    match (MkdirAll dirp perm_0755 w).1, MarshalIndent v "" tab with
    | Some err, _ => steps = [] ∧ (Write_locked d c r v w).1 = Some err
    | None, Err err => steps = [] ∧ (Write_locked d c r v w).1 = Some err
    | None, Ok b =>
        (steps = [EvWriteFile tempPath (b ++ [Byte.x0a]) perm_0644] ∧
         is_Some (Write_locked d c r v w).1) ∨
        steps = [EvWriteFile tempPath (b ++ [Byte.x0a]) perm_0644;
                 EvRename tempPath fnlPath]
    end.
Proof.
  intros dirp fnlPath tempPath. unfold Write_locked. io.
  fold dirp. fold fnlPath. fold tempPath.
  destruct (MkdirAll dirp perm_0755 w) as [e0 wa] eqn:Hmk.
  apply MkdirAll_inv in Hmk as (_ & Htr_a & _).
  destruct e0 as [err|]; simpl.
  { exists []. by rewrite Htr_a. }
  destruct (MarshalIndent v "" tab) as [b|err]; simpl.
  2:{ exists []. by rewrite Htr_a. }
  destruct (WriteFile _ _ _ wa) as [e1 wb] eqn:Hwr.
  apply on_place_inv in Hwr as (_ & Htr_b & _).
  destruct e1 as [err|]; simpl.
  { eexists. split; [by rewrite Htr_b, Htr_a, <-app_assoc|]. left. eauto. }
  destruct (Rename _ _ wb) as [e2 wc] eqn:Hrn.
  apply Rename_inv in Hrn as (_ & Htr_c & _). simpl.
  eexists. split; [by rewrite Htr_c, Htr_b, Htr_a, <-!app_assoc|]. by right.
Qed.

(** C3. Write puts the serialized bytes into a temporary file that sits in
    the directory of the final path (its name is the final name followed by
    [.tmp]) and then renames it over the final path. For non-empty names the
    calls of a Write are, in this order: the lock of the registry and its
    unlock, the lock of the collection, MkdirAll on the directory of the
    collection, then WriteFile on the temporary path and, only when that
    succeeded, Rename of the temporary path to the final path, then the
    unlock. When MkdirAll or the encoder fails, Write returns that error and
    neither writes nor renames. A Write that succeeds leaves the bytes and a
    newline at the final path and no file at the temporary path; it does
    succeed when the directory of the collection exists, may be written and
    searched, and holds neither a directory at the final path nor an entry
    at the temporary path, and when the collection is new in a root that
    may be written and searched. A Write that returns an error leaves the
    regular file at the final path as it was: the same bits and bytes, or
    still no file. *)
Theorem Write_temp_then_rename (d : Driver) (c r : string) (v : V)
    (w w1 : World) (res : option error) :
  well_formed (files w) →
  Write d c r v w = (res, w1) →
  let dirp := Join [dir d; c] in
  let fnlPath := Join [dirp; r +:+ ".json"] in
  let tempPath := fnlPath +:+ ".tmp" in
  (∃ x up, locate (cwd w) fnlPath = x :: up ∧
           locate (cwd w) tempPath = (x +:+ ".tmp") :: up) ∧
  (c ≠ "" → r ≠ "" →
   ∃ m steps,
     trace w1 = trace w ++ [EvLock (mutex d); EvUnlock (mutex d); EvLock m;
                            EvMkdirAll dirp perm_0755] ++ steps ++ [EvUnlock m] ∧
     match (MkdirAll dirp perm_0755 w).1, MarshalIndent v "" tab with
     | Some err, _ => steps = [] ∧ res = Some err
     | None, Err err => steps = [] ∧ res = Some err
     | None, Ok b =>
         (steps = [EvWriteFile tempPath (b ++ [Byte.x0a]) perm_0644] ∧ is_Some res) ∨
         steps = [EvWriteFile tempPath (b ++ [Byte.x0a]) perm_0644;
                  EvRename tempPath fnlPath]
     end) ∧
  (res = None →
   ∃ b p, MarshalIndent v "" tab = Ok b ∧
          regular w1 fnlPath = Some (p, b ++ [Byte.x0a]) ∧
          regular w1 tempPath = None) ∧
  (∀ b kc p,
     c ≠ "" → proper r = true → MarshalIndent v "" tab = Ok b →
     find (cwd w) (files w) dirp = inr (kc, Dir p) →
     may_write p = true → may_search p = true →
     is_dir (files w !! ((r +:+ ".json") :: kc)) = false →
     files w !! ((r +:+ ".json.tmp") :: kc) = None →
     res = None ∧
     files w1 = <[(r +:+ ".json") :: kc := File perm_0644 (b ++ [Byte.x0a])]> (files w)) ∧
  (∀ b kroot p,
     proper c = true → proper r = true → MarshalIndent v "" tab = Ok b →
     find (cwd w) (files w) (dir d) = inr (kroot, Dir p) →
     may_write p = true → may_search p = true →
     files w !! (c :: kroot) = None →
     res = None ∧
     files w1 = <[(r +:+ ".json") :: c :: kroot := File perm_0644 (b ++ [Byte.x0a])]>
                  (<[c :: kroot := Dir perm_0755]> (files w))) ∧
  (∀ e, res = Some e → regular w1 fnlPath = regular w fnlPath).
Proof.
  intros Hwf Hw dirp fnlPath tempPath.
  destruct (temp_beside (cwd w) dirp r) as (x & up & Hkf & Hkt).
  fold fnlPath in Hkf, Hkt. fold tempPath in Hkt.
  split; [by exists x, up|].
  assert (x +:+ ".tmp" ≠ x) as Hxne by (by apply suffix_ne).
  assert (fnlPath ≠ "") as Hfnl by apply named_nonempty, final_path_named.
  assert (tempPath ≠ "") as Htmp.
  { unfold tempPath. by destruct fnlPath. }
  (* the two successes, from the tree *)
  assert (∀ b kc p,
     c ≠ "" → proper r = true → MarshalIndent v "" tab = Ok b →
     find (cwd w) (files w) dirp = inr (kc, Dir p) →
     may_write p = true → may_search p = true →
     is_dir (files w !! ((r +:+ ".json") :: kc)) = false →
     files w !! ((r +:+ ".json.tmp") :: kc) = None →
     res = None ∧
     files w1 = <[(r +:+ ".json") :: kc := File perm_0644 (b ++ [Byte.x0a])]> (files w))
    as Hexisting.
  { intros b kc p Hc Hr Hmar Hfind Hpw Hps Hdir Hnotmp.
    destruct (Write_fst_files d c r v w Hc (proper_nonempty _ Hr)) as (Hres & Hfiles & _).
    destruct (Write_existing d c r v w b kc p) as [Hres' Hfiles']; [done..|].
    rewrite Hw in Hres, Hfiles. simpl in Hres, Hfiles. split; congruence. }
  assert (∀ b kroot p,
     proper c = true → proper r = true → MarshalIndent v "" tab = Ok b →
     find (cwd w) (files w) (dir d) = inr (kroot, Dir p) →
     may_write p = true → may_search p = true →
     files w !! (c :: kroot) = None →
     res = None ∧
     files w1 = <[(r +:+ ".json") :: c :: kroot := File perm_0644 (b ++ [Byte.x0a])]>
                  (<[c :: kroot := Dir perm_0755]> (files w)))
    as Hfirst.
  { intros b kroot p Hc Hr Hmar Hfind Hpw Hps Hnew.
    destruct (Write_fst_files d c r v w (proper_nonempty _ Hc) (proper_nonempty _ Hr))
      as (Hres & Hfiles & _).
    destruct (Write_first d c r v w b kroot p) as [Hres' Hfiles']; [done..|].
    rewrite Hw in Hres, Hfiles. simpl in Hres, Hfiles. split; congruence. }
  destruct (decide (c = "")) as [->|Hc].
  { unfold Write in Hw. simpl in Hw. io. simplify_eq.
    split_and!; [done|done|done| |done].
    intros b kroot p Hc. by apply proper_nonempty in Hc. }
  destruct (decide (r = "")) as [->|Hr].
  { unfold Write in Hw. rewrite bool_decide_eq_false_2 in Hw by done.
    simpl in Hw. io. simplify_eq.
    split_and!; [done|done| | |done].
    - intros b kc p _ Hr. by apply proper_nonempty in Hr.
    - intros b kroot p _ Hr. by apply proper_nonempty in Hr. }
  rewrite Write_unfold in Hw by done.
  pose proof (getOrCreateMutex_fs d c w) as [Hcwd0 Hfiles0].
  destruct (getOrCreateMutex_spec d c w) as (_ & _ & _ & _ & Htr0).
  destruct (getOrCreateMutex d c w) as [m w0]. simpl in Hcwd0, Hfiles0, Htr0.
  destruct (Write_locked_steps d c r v (emit (EvLock m) w0)) as (steps & Htr & Hsteps).
  destruct (MkdirAll_same dirp perm_0755 w (emit (EvLock m) w0)) as [Hmk _]; [done|].
  fold dirp fnlPath tempPath in Htr, Hsteps. rewrite Hmk in Hsteps.
  destruct (Write_locked d c r v _) as [res' w2] eqn:Hlocked.
  simpl in Htr, Hsteps. simplify_eq.
  split.
  { intros _ _. exists m, steps. split; [|done].
    simpl. rewrite Htr, Htr0. simpl. by rewrite <-!app_assoc. }
  split; [|split; [done|split; [done|]]].
  - (* success *)
    apply Write_locked_inv in Hlocked as (t1 & Hcwd & Hadds & Hcases).
    simpl in Hcwd, Hadds, Hcases. rewrite Hcwd0 in *. rewrite Hfiles0 in *.
    fold dirp in Hcases. fold fnlPath in Hcases. fold tempPath in Hcases.
    rewrite Hkf, Hkt in Hcases.
    intros ->.
    destruct Hcases as [[Hres _]|(b & p & Hmar & Hwalk & Hold & Hcases)];
      [by destruct Hres|].
    destruct Hcases as [[Hres _]|(_ & Hfiles & Hwalkf & Hdir & _)]; [by destruct Hres|].
    exists b, p. split; [done|]. unfold regular, find. simpl.
    rewrite !bool_decide_eq_false_2 by done. rewrite Hcwd, Hkf, Hkt, Hfiles.
    rewrite walk_insert_beside, walk_delete_beside, walk_insert_beside in *.
    rewrite (walk_sibling _ x (x +:+ ".tmp")), Hwalk.
    rewrite lookup_insert_eq, lookup_insert_ne, lookup_delete_eq by congruence.
    split; [done|].
    match goal with |- context [walk ?t ?k] => by destruct (walk t k) end.
  - (* failure *)
    apply Write_locked_inv in Hlocked as (t1 & Hcwd & Hadds & Hcases).
    simpl in Hcwd, Hadds, Hcases. rewrite Hcwd0 in *. rewrite Hfiles0 in *.
    fold dirp in Hcases. fold fnlPath in Hcases. fold tempPath in Hcases.
    rewrite Hkf, Hkt in Hcases.
    assert (∀ t, regular (emit (EvUnlock m) w2) fnlPath = regular (set_files t w) fnlPath
                 ↔ regular (set_files (files w2) w) fnlPath = regular (set_files t w) fnlPath)
      as Hreg.
    { intros t. by rewrite (regular_same (set_files (files w2) w) (emit (EvUnlock m) w2)). }
    assert (regular (set_files t1 w) fnlPath = regular w fnlPath) as Ht1.
    { by apply regular_adds. }
    assert (∀ p data, regular (set_files (<[(x +:+ ".tmp") :: up := File p data]> t1) w) fnlPath
                      = regular w fnlPath) as Ht2.
    { intros p data. rewrite <-Ht1. by eapply regular_beside. }
    intros e ->.
    destruct Hcases as [[Hres Hfiles]|(b & p & Hmar & Hwalk & Hold & Hcases)].
    { rewrite <-Ht1. apply Hreg. by rewrite Hfiles. }
    destruct Hcases as [[Hres Hfiles]|([=] & _)].
    rewrite <-(Ht2 p (b ++ [Byte.x0a])). apply Hreg. by rewrite Hfiles.
Qed.

End WriteAtomic.

(** The first Write of users/John on the empty store succeeds: the document
    is there, the temporary file is not. A Write into a directory that may
    not be written fails and leaves users/John.json as it was. *)
Lemma Write_temp_then_rename_witness :
  well_formed (files w_empty) ∧
  (Write d0 "users" "John" true w_empty).1 = None ∧
  files (Write d0 "users" "John" true w_empty).2
    = <["John.json" :: users := File perm_0644 (bytes ("true" +:+ nl))]>
        (<[users := Dir perm_0755]> (files w_empty)) ∧
  regular (Write d0 "users" "John" true w_empty).2 "data/users/John.json.tmp" = None ∧
  well_formed (files w_readonly) ∧
  (Write d0 "users" "John" false w_readonly).1
    = Some (PathError "open" "data/users/John.json.tmp" EACCES) ∧
  regular (Write d0 "users" "John" false w_readonly).2 "data/users/John.json"
    = regular w_readonly "data/users/John.json".
Proof.
  assert (H1 : well_formed (files w_empty))
    by (apply wf_sample; vm_compute; reflexivity).
  assert (H2 : Write d0 "users" "John" true w_empty
               = ((Write d0 "users" "John" true w_empty).1,
                  (Write d0 "users" "John" true w_empty).2))
    by (vm_compute; reflexivity).
  assert (H3 : well_formed (files w_readonly))
    by (apply wf_sample; vm_compute; reflexivity).
  assert (H4 : Write d0 "users" "John" false w_readonly
               = ((Write d0 "users" "John" false w_readonly).1,
                  (Write d0 "users" "John" false w_readonly).2))
    by (vm_compute; reflexivity).
  assert (H5 : (Write d0 "users" "John" false w_readonly).1
               = Some (PathError "open" "data/users/John.json.tmp" EACCES))
    by (vm_compute; reflexivity).
  destruct (Write_temp_then_rename d0 "users" "John" true w_empty _ _ H1 H2)
    as (_ & _ & Hdone & _ & Hfirst & _).
  destruct (Hfirst (bytes "true") data perm_0755) as [Hres Hfiles];
    try (vm_compute; reflexivity).
  destruct (Hdone Hres) as (b & p & _ & _ & Htemp).
  destruct (Write_temp_then_rename d0 "users" "John" false w_readonly _ _ H3 H4)
    as (_ & _ & _ & _ & _ & Herr).
  split_and!; [exact H1|exact Hres|exact Hfiles|exact Htemp|exact H3|exact H5|].
  exact (Herr _ H5).
Defined.

(** ** Names *)

Lemma app_inv_tail_string x y s : x +:+ s = y +:+ s → x = y.
Proof.
  revert y. induction x as [|a x IH]; intros [|a' y] Heq.
  - done.
  - apply (f_equal String.length) in Heq. rewrite !app_length in Heq.
    simpl in Heq. lia.
  - apply (f_equal String.length) in Heq. rewrite !app_length in Heq.
    simpl in Heq. lia.
  - simpl in Heq. injection Heq as -> Heq. f_equal. by apply IH.
Qed.

Lemma json_ne_tmp x y : x +:+ ".json" ≠ y +:+ ".json.tmp".
Proof.
  revert y. induction x as [|a x IH]; intros y Heq.
  - apply (f_equal String.length) in Heq. rewrite !app_length in Heq. simpl in Heq. lia.
  - destruct y as [|a' y].
    + destruct x as [|? [|? [|? [|? x]]]]; try discriminate.
      apply (f_equal String.length) in Heq.
      change (String.length ("" +:+ ".json.tmp")) with 9 in Heq.
      simpl in Heq. rewrite (app_length x ".json") in Heq. simpl in Heq. lia.
    + simpl in Heq. injection Heq as _ Heq. by eapply IH.
Qed.



Section ReadFileSec.
Context `{Codec V}.

Lemma Read_file d c r (v0 : V) w x up p data :
  c ≠ "" → r ≠ "" →
  locate (cwd w) (Join [dir d; c; r]) = x :: up →
  locate (cwd w) (Join [dir d; c; r] +:+ ".json") = (x +:+ ".json") :: up →
  walk (files w) (x :: up) = None →
  files w !! ((x +:+ ".json") :: up) = Some (File p data) → may_read p = true →
  (Read d c r v0 w).1 = Unmarshal data v0.
Proof.
  intros Hc Hr Hkr Hkj Hwalk Hfile Hp.
  set (record := Join [dir d; c; r]) in *.
  assert (record ≠ "") as Hrec.
  { intros Heq. rewrite Heq in Hkr, Hkj. unfold locate in Hkr, Hkj. simpl in *.
    vm_compute in Hkj. simplify_eq. vm_compute in Hkr.
    apply (f_equal length) in Hkr. simpl in Hkr. lia. }
  assert (record +:+ ".json" ≠ "") as Hne by (by destruct record).
  rewrite Read_fst by done. fold record.
  assert (read_of w (record +:+ ".json") = Ok data) as Hread.
  { unfold read_of, find. rewrite bool_decide_eq_false_2, Hkj by done.
    rewrite (walk_sibling _ _ x), Hwalk, Hfile. by rewrite Hp. }
  rewrite Hread.
  assert (∃ fi, (stat record w).1 = Ok fi) as [fi ->]; [|done].
  rewrite stat_fst. unfold stat_of at 1. unfold find.
  rewrite bool_decide_eq_false_2, Hkr, Hwalk by done.
  destruct (files w !! (x :: up)); [eauto|].
  unfold IsNotExist, perr. unfold stat_of, find.
  rewrite bool_decide_eq_false_2, Hkj by done.
  rewrite (walk_sibling _ _ x), Hwalk, Hfile. eauto.
Qed.

End ReadFileSec.

Section TwoWrites.
Context `{Codec V}.

(** What a Write that returned no error has done, for a plain resource
    name. *)
Lemma Write_done d c r (v : V) w w1 :
  c ≠ "" → proper r = true → Write d c r v w = (None, w1) →
  let kc := locate (cwd w) (Join [dir d; c]) in
  cwd w1 = cwd w ∧
  ∃ b p t1, MarshalIndent v "" tab = Ok b ∧ adds_dirs (files w) t1 ∧
    walk t1 ((r +:+ ".json") :: kc) = None ∧
    (p = perm_0644 ∨ ∃ d0, t1 !! ((r +:+ ".json.tmp") :: kc) = Some (File p d0)) ∧
    files w1 = <[(r +:+ ".json") :: kc := File p (b ++ [Byte.x0a])]>
                 (delete ((r +:+ ".json.tmp") :: kc) t1).
Proof.
  intros Hc Hr Hw kc.
  destruct (document_places (cwd w) (dir d) c r Hc Hr) as (_ & _ & Hkf & Hkt).
  fold kc in Hkf, Hkt.
  rewrite Write_unfold in Hw by (done || by apply proper_nonempty).
  pose proof (getOrCreateMutex_fs d c w) as [Hcwd0 Hfiles0].
  destruct (getOrCreateMutex d c w) as [m w0]. simpl in Hcwd0, Hfiles0.
  destruct (Write_locked d c r v _) as [res' w2] eqn:Hlocked. simplify_eq.
  apply Write_locked_inv in Hlocked as (t1 & Hcwd & Hadds & Hcases).
  simpl in Hcwd, Hadds, Hcases. rewrite Hcwd0 in *. rewrite Hfiles0 in *.
  rewrite Hkf, Hkt in Hcases.
  destruct Hcases as [[[? [=]] _]|(b & p & Hmar & Hwalk & Hold & Hcases)].
  destruct Hcases as [[[? [=]] _]|(_ & Hfiles & Hwalkf & Hdir & Htr)].
  split; [done|]. exists b, p, t1. split_and!; [done..| | |].
  - rewrite <-Hwalkf. symmetry. apply walk_insert_beside.
  - destruct Hold as [[_ ->]|[d0 Hd0]]; [by left|right; eauto].
  - simpl. rewrite Hfiles. by rewrite delete_insert_eq.
Qed.

(** X6. Two Writes that succeed, one after the other, into the same
    collection under two different plain resource names: afterwards Read
    returns for each name the value written under it. (The codec gives the
    values back from their encodings, and no read-protected file lay at a
    temporary path of the collection.) *)
Theorem two_Writes_are_both_read (d : Driver) (c r1 r2 : string)
    (v1 v2 v0 : V) (w w1 w2 : World) :
  c ≠ "" → proper r1 = true → proper r2 = true → r1 ≠ r2 →
  (∀ r p data,
     files w !! ((r +:+ ".json.tmp") :: locate (cwd w) (Join [dir d; c]))
       = Some (File p data) → may_read p = true) →
  (∀ b, MarshalIndent v1 "" tab = Ok b → Unmarshal (b ++ [Byte.x0a]) v0 = (v1, None)) →
  (∀ b, MarshalIndent v2 "" tab = Ok b → Unmarshal (b ++ [Byte.x0a]) v0 = (v2, None)) →
  Write d c r1 v1 w = (None, w1) → Write d c r2 v2 w1 = (None, w2) →
  (Read d c r1 v0 w2).1 = (v1, None) ∧ (Read d c r2 v0 w2).1 = (v2, None).
Proof.
  intros Hc Hr1 Hr2 Hne Htemp Hcodec1 Hcodec2 Hw1 Hw2.
  set (kc := locate (cwd w) (Join [dir d; c])) in *.
  apply Write_done in Hw1 as (Hcwd1 & b1 & p1 & t1 & Hmar1 & [Hsub1 Hfile1] & Hwalk1 & Hp1 & Hf1);
    [|done..].
  apply Write_done in Hw2 as (Hcwd2 & b2 & p2 & t2 & Hmar2 & [Hsub2 Hfile2] & Hwalk2 & Hp2 & Hf2);
    [|done..].
  rewrite Hcwd1 in *. fold kc in Hwalk1, Hp1, Hf1, Hwalk2, Hp2, Hf2.
  set (kf1 := (r1 +:+ ".json") :: kc) in *. set (kf2 := (r2 +:+ ".json") :: kc) in *.
  set (kt1 := (r1 +:+ ".json.tmp") :: kc) in *. set (kt2 := (r2 +:+ ".json.tmp") :: kc) in *.
  assert (kf1 ≠ kf2) as Hff.
  { intros [= Heq]. by apply app_inv_tail_string in Heq. }
  assert (kf1 ≠ kt2) as Hft.
  { intros [= Heq]. by apply json_ne_tmp in Heq. }
  assert (kf2 ≠ kt2) as Hft2.
  { intros [= Heq]. by apply json_ne_tmp in Heq. }
  assert (kf1 ≠ kt1) as Hft1.
  { intros [= Heq]. by apply json_ne_tmp in Heq. }
  assert (kf2 ≠ kt1) as Hf2t1.
  { intros [= Heq]. by apply json_ne_tmp in Heq. }
  (* the temporary files were readable *)
  assert (may_read p1 = true) as Hread1.
  { destruct Hp1 as [->|[d0 Hd0]]; [done|]. eapply Htemp, Hfile1, Hd0. }
  assert (may_read p2 = true) as Hread2.
  { destruct Hp2 as [->|[d0 Hd0]]; [done|].
    apply Hfile2 in Hd0. rewrite Hf1 in Hd0.
    rewrite lookup_insert_ne in Hd0 by done.
    apply lookup_delete_Some in Hd0 as [_ Hd0]. eapply Htemp, Hfile1, Hd0. }
  (* the first document is still there *)
  assert (files w2 !! kf1 = Some (File p1 (b1 ++ [Byte.x0a]))) as Hdoc1.
  { rewrite Hf2, lookup_insert_ne, lookup_delete_ne by done.
    eapply lookup_weaken; [|exact Hsub2]. rewrite Hf1. apply lookup_insert_eq. }
  assert (files w2 !! kf2 = Some (File p2 (b2 ++ [Byte.x0a]))) as Hdoc2.
  { rewrite Hf2. apply lookup_insert_eq. }
  assert (walk (files w2) kf2 = None) as Hwalk.
  { rewrite Hf2. unfold kf2, kt2. by rewrite walk_insert_beside, walk_delete_beside. }
  destruct (document_places (cwd w) (dir d) c r1 Hc Hr1) as (Hkr1 & Hkj1 & _).
  destruct (document_places (cwd w) (dir d) c r2 Hc Hr2) as (Hkr2 & Hkj2 & _).
  fold kc in Hkr1, Hkj1, Hkr2, Hkj2.
  split.
  - rewrite (Read_file d c r1 v0 w2 r1 kc p1 (b1 ++ [Byte.x0a]));
      rewrite ?Hcwd2; try done; [by apply Hcodec1|by apply proper_nonempty].
  - rewrite (Read_file d c r2 v0 w2 r2 kc p2 (b2 ++ [Byte.x0a]));
      rewrite ?Hcwd2; try done; [by apply Hcodec2|by apply proper_nonempty].
Qed.

End TwoWrites.

(** ** Delete of one document *)

Lemma Join_nested a c r :
  c ≠ "" → rooted c = false → Join [a; Join [c; r]] = Join [a; c; r].
Proof.
  intros Hc Hrel. rewrite (Join2 c r) by done.
  assert (rooted (c +:+ "/" +:+ r) = false) as Hrel' by (by rewrite rooted_app).
  destruct (decide (a = "")) as [->|Ha].
  - rewrite !Join_skip, Join1, Join2 by (done || apply Clean_nonempty). apply Clean_idem.
  - rewrite Join2, Join3 by done. apply Clean_app_r; [done|apply app_sep_nonempty|done].
Qed.

Lemma mode_file q data :
  IsDir (node_mode (File q data)) = false ∧ IsRegular (node_mode (File q data)) = true.
Proof.
  unfold IsDir, IsRegular, node_mode.
  rewrite <-!N.land_assoc.
  change (N.land ModePerm ModeDir) with 0%N. change (N.land ModePerm ModeType) with 0%N.
  by rewrite N.land_0_r.
Qed.

Lemma RemoveAll_same path w w' :
  same_fs w w' →
  (RemoveAll path w').1 = (RemoveAll path w).1 ∧
  same_fs (RemoveAll path w).2 (RemoveAll path w').2.
Proof.
  intros [Hc Hf]. unfold RemoveAll. rewrite Hc, Hf.
  repeat case_match; simplify_eq/=; done.
Qed.

Lemma stat_same_fs path w : same_fs w (stat path w).2.
Proof. destruct (stat_fs path w). by split. Qed.

Lemma Delete_files d c r w :
  c ≠ "" →
  let target := Join [dir d; Join [c; r]] in
  cwd (Delete d c r w).2 = cwd w ∧
  files (Delete d c r w).2 =
  match (stat target w).1 with
  | Err _ => files w
  | Ok fi =>
      if IsDir (Mode fi) then files (RemoveAll target w).2
      else if IsRegular (Mode fi) then files (Remove (target +:+ ".json") w).2
      else files w
  end.
Proof.
  intros Hc target. unfold Delete. rewrite bool_decide_eq_false_2 by done. io.
  pose proof (getOrCreateMutex_fs d c w) as [Hcwd0 Hfiles0].
  destruct (getOrCreateMutex d c w) as [m w0]. simpl in *. fold target.
  assert (same_fs w (emit (EvLock m) w0)) as Hs0 by done.
  rewrite <-(stat_fst_same target w (emit (EvLock m) w0)) by done.
  pose proof (stat_same_fs target (emit (EvLock m) w0)) as [Hc1 Hf1].
  destruct (stat target (emit (EvLock m) w0)) as [[fi|e] w1]; simpl in *;
    [|split; congruence].
  assert (same_fs w w1) as Hs1 by (split; congruence).
  destruct (RemoveAll_same target _ _ Hs1) as [_ [Hra1 Hra2]].
  destruct (on_place_same "remove" (target +:+ ".json") (EvRemove (target +:+ ".json"))
              remove_at _ _ Hs1) as [_ [Hrm1 Hrm2]].
  fold (Remove (target +:+ ".json")) in Hrm1, Hrm2.
  assert (cwd (RemoveAll target w).2 = cwd w) as Hra0.
  { unfold RemoveAll. repeat case_match; simplify_eq/=; done. }
  assert (cwd (Remove (target +:+ ".json") w).2 = cwd w) as Hrm0.
  { destruct (Remove _ w) as [res wr] eqn:Hrm. by apply on_place_inv in Hrm as (? & _). }
  destruct (IsDir _).
  { destruct (RemoveAll target w1); simpl in *. split; congruence. }
  destruct (IsRegular _).
  { destruct (Remove _ w1); simpl in *. split; congruence. }
  simpl. split; congruence.
Qed.

Section DeleteDoc.
Context `{Codec V}.

(** Delete of a document that is there. *)
Lemma Delete_document d c r w kc p q data :
  c ≠ "" → rooted c = false → proper r = true →
  find (cwd w) (files w) (Join [dir d; c]) = inr (kc, Dir p) →
  may_write p = true → may_search p = true →
  files w !! (r :: kc) = None →
  files w !! ((r +:+ ".json") :: kc) = Some (File q data) →
  (Delete d c r w).1 = None ∧ cwd (Delete d c r w).2 = cwd w ∧
  files (Delete d c r w).2 = delete ((r +:+ ".json") :: kc) (files w).
Proof.
  intros Hc Hrel Hr Hfind Hpw Hps Hbare Hdoc.
  apply find_inr in Hfind as (Hne & Hkc & Hwalk & Hlook).
  destruct (document_places (cwd w) (dir d) c r Hc Hr) as (Hkr & Hkj & _).
  rewrite <-Hkc in Hkr, Hkj.
  set (record := Join [dir d; c; r]) in *.
  assert (record ≠ "") as Hrec.
  { apply named_nonempty. apply named_Join3; [done|by apply proper_named]. }
  assert (record +:+ ".json" ≠ "") as Hjne by (by destruct record).
  assert (walk (files w) (r :: kc) = None) as Hwalkr.
  { rewrite walk_cons, Hwalk, Hlook. by rewrite Hps. }
  assert ((stat record w).1 = Ok (info ((r +:+ ".json") :: kc) (File q data))) as Hstat.
  { rewrite stat_fst. unfold stat_of at 1. unfold find.
    rewrite bool_decide_eq_false_2, Hkr, Hwalkr, Hbare by done.
    unfold IsNotExist, perr, stat_of, find.
    rewrite bool_decide_eq_false_2, Hkj by done.
    by rewrite (walk_sibling _ _ r), Hwalkr, Hdoc. }
  destruct (mode_file q data) as [Hnd Hreg].
  assert (Remove (record +:+ ".json") w
          = (None, emit (EvRemove (record +:+ ".json"))
                     (set_files (delete ((r +:+ ".json") :: kc) (files w)) w))) as Hrm.
  { unfold Remove. rewrite on_place_ok; rewrite ?Hkj; [|done|by rewrite (walk_sibling _ _ r)].
    unfold remove_at. rewrite Hdoc. simpl. rewrite Hlook, Hpw. done. }
  destruct (Delete_files d c r w Hc) as [Hcwd1 Hfiles1].
  rewrite Join_nested in Hfiles1 by done. fold record in Hfiles1.
  rewrite Hstat in Hfiles1. cbn [Mode info] in Hfiles1. rewrite Hnd, Hreg, Hrm in Hfiles1.
  split_and!; [|done..].
  rewrite Delete_fst, Join_nested by done. fold record. rewrite Hstat. cbn [Mode info].
  by rewrite Hnd, Hreg, Hrm.
Qed.

(** X9. Delete of a document: when the directory of the collection may be
    written and searched, the bare path does not exist and the path with the
    extension is a regular file (of any mode), Delete succeeds and removes
    exactly that file. Read of the resource then fails with a not-found
    error, and a second Delete fails with the error that names the resource
    and the collection. *)
Theorem Delete_removes_the_document (d : Driver) (c r : string) (v0 : V)
    (w : World) (kc : place) (p q : N) (data : list Byte.byte) :
  c ≠ "" → rooted c = false → proper r = true →
  find (cwd w) (files w) (Join [dir d; c]) = inr (kc, Dir p) →
  may_write p = true → may_search p = true →
  files w !! (r :: kc) = None →
  files w !! ((r +:+ ".json") :: kc) = Some (File q data) →
  let w1 := (Delete d c r w).2 in
  (Delete d c r w).1 = None ∧
  files w1 = delete ((r +:+ ".json") :: kc) (files w) ∧
  (∃ e, (Read d c r v0 w1).1 = (v0, Some e) ∧ NotFoundError e = true) ∧
  (Delete d c r w1).1 =
    Some (Errorf "resource '%s' does not exist in collection '%s'" [r; c]).
Proof.
  intros Hc Hrel Hr Hfind Hpw Hps Hbare Hdoc w1.
  destruct (Delete_document d c r w kc p q data) as (Hres & Hcwd1 & Hfiles1); [done..|].
  fold w1 in Hcwd1, Hfiles1.
  apply find_inr in Hfind as (Hne & Hkc & Hwalk & Hlook).
  pose proof (proper_nonempty _ Hr) as Hrne.
  destruct (document_places (cwd w) (dir d) c r Hc Hr) as (Hkr & Hkj & _).
  rewrite <-Hkc in Hkr, Hkj.
  set (record := Join [dir d; c; r]) in *.
  assert (record ≠ "") as Hrec.
  { apply named_nonempty. apply named_Join3; [done|by apply proper_named]. }
  assert (record +:+ ".json" ≠ "") as Hjne by (by destruct record).
  assert (walk (files w) (r :: kc) = None) as Hwalkr.
  { rewrite walk_cons, Hwalk, Hlook. by rewrite Hps. }
  assert (stat_of w1 record = Err (perr "stat" record ENOENT)) as Hst1'.
  { unfold stat_of, find. rewrite bool_decide_eq_false_2, Hcwd1, Hfiles1, Hkr by done.
    rewrite walk_delete_beside, Hwalkr.
    rewrite lookup_delete_ne, Hbare; [done|].
    intros [= Heq]. by apply suffix_ne in Heq. }
  assert (stat_of w1 (record +:+ ".json") = Err (perr "stat" (record +:+ ".json") ENOENT))
    as Hst2'.
  { unfold stat_of, find. rewrite bool_decide_eq_false_2, Hcwd1, Hfiles1, Hkj by done.
    rewrite walk_delete_beside, (walk_sibling _ _ r), Hwalkr.
    by rewrite lookup_delete_eq. }
  split_and!; [done..| |].
  - rewrite Read_fst, stat_fst by done. fold record. rewrite Hst1'. simpl.
    rewrite Hst2'. eexists. split; [done|]. done.
  - rewrite Delete_fst, Join_nested by done. fold record.
    by rewrite stat_fst, Hst1', Hst2'.
Qed.

(** X10. Delete never removes a regular file that lies at the bare path
    (the resource name without extension): the probe finds it, and Delete
    then removes the path with the extension instead. The bare file is still
    there afterwards; when no file with the extension exists, Delete fails
    with the error of the removal and the tree is unchanged. *)
Theorem Delete_never_removes_a_bare_file (d : Driver) (c r : string)
    (w : World) (kc : place) (p q : N) (data : list Byte.byte) :
  c ≠ "" → rooted c = false → proper r = true →
  find (cwd w) (files w) (Join [dir d; c]) = inr (kc, Dir p) →
  may_search p = true →
  files w !! (r :: kc) = Some (File q data) →
  files (Delete d c r w).2 !! (r :: kc) = Some (File q data) ∧
  (files w !! ((r +:+ ".json") :: kc) = None →
   (Delete d c r w).1
     = Some (PathError "remove" (Join [dir d; c; r] +:+ ".json") ENOENT) ∧
   files (Delete d c r w).2 = files w).
Proof.
  intros Hc Hrel Hr Hfind Hps Hbare.
  apply find_inr in Hfind as (Hne & Hkc & Hwalk & Hlook).
  destruct (document_places (cwd w) (dir d) c r Hc Hr) as (Hkr & Hkj & _).
  rewrite <-Hkc in Hkr, Hkj.
  set (record := Join [dir d; c; r]) in *.
  assert (record ≠ "") as Hrec.
  { apply named_nonempty. apply named_Join3; [done|by apply proper_named]. }
  assert (record +:+ ".json" ≠ "") as Hjne by (by destruct record).
  assert (walk (files w) (r :: kc) = None) as Hwalkr.
  { rewrite walk_cons, Hwalk, Hlook. by rewrite Hps. }
  assert ((stat record w).1 = Ok (info (r :: kc) (File q data))) as Hstat.
  { rewrite stat_fst. unfold stat_of, find.
    rewrite bool_decide_eq_false_2, Hkr, Hwalkr, Hbare by done. done. }
  destruct (mode_file q data) as [Hnd Hreg].
  destruct (Delete_files d c r w Hc) as [Hcwd1 Hfiles1].
  rewrite Join_nested in Hfiles1 by done. fold record in Hfiles1.
  rewrite Hstat in Hfiles1. cbn [Mode info] in Hfiles1. rewrite Hnd, Hreg in Hfiles1.
  assert (Remove (record +:+ ".json") w
          = (perr "remove" (record +:+ ".json")
               <$> (remove_at (files w) ((r +:+ ".json") :: kc)).1,
             emit (EvRemove (record +:+ ".json"))
               (set_files (remove_at (files w) ((r +:+ ".json") :: kc)).2 w))) as Hrm.
  { unfold Remove. rewrite on_place_ok; rewrite ?Hkj; [done|done|].
    by rewrite (walk_sibling _ _ r). }
  rewrite Hrm in Hfiles1. simpl in Hfiles1.
  assert (r +:+ ".json" ≠ r) as Hrj by (by apply suffix_ne).
  split.
  - rewrite Hfiles1. unfold remove_at.
    repeat case_match; simplify_eq/=; try done;
      rewrite lookup_delete_ne; try done; congruence.
  - intros Hnone. split.
    + rewrite Delete_fst, Join_nested by done. fold record. rewrite Hstat. cbn [Mode info].
      rewrite Hnd, Hreg, Hrm. simpl. unfold remove_at. by rewrite Hnone.
    + rewrite Hfiles1. unfold remove_at. by rewrite Hnone.
Qed.

End DeleteDoc.

(** ** Writes that fail half way *)

Section WriteFails.
Context `{Codec V}.


(** X7. Write makes the directory of the collection before it encodes the
    value: when the encoding fails, Write returns the error of the encoder,
    no file is written, but the directory of the collection, which did not
    exist, has been made. *)
Theorem Write_that_cannot_encode_leaves_the_directory (d : Driver)
    (c r : string) (v : V) (w : World) (err : error) (kroot : place) (p : N) :
  proper c = true → r ≠ "" → MarshalIndent v "" tab = Err err →
  find (cwd w) (files w) (dir d) = inr (kroot, Dir p) →
  may_write p = true → may_search p = true →
  files w !! (c :: kroot) = None →
  (Write d c r v w).1 = Some err ∧
  files (Write d c r v w).2 = <[c :: kroot := Dir perm_0755]> (files w).
Proof.
  intros Hc Hr Hmar Hfind Hpw Hps Hnew.
  apply find_inr in Hfind as (Hne & Hkroot & Hwalk & Hlook).
  pose proof (proper_nonempty _ Hc) as Hcne.
  destruct (Write_fst_files d c r v w Hcne Hr) as (-> & -> & _).
  assert (locate (cwd w) (Join [dir d; c]) = c :: kroot) as Hkc.
  { rewrite Hkroot. by apply locate_Join_child. }
  unfold Write_locked. io. unfold MkdirAll.
  rewrite bool_decide_eq_false_2 by (by apply Join_nonempty).
  rewrite Hkc, (mkdir_all_at_new _ _ _ p) by done. simpl. by rewrite Hmar.
Qed.

(** X8. When a directory lies at the final path, Write fails in the rename
    step with the link error EEXIST, and leaves the temporary file behind:
    afterwards the tree is the tree before with the temporary file, which
    holds the encoding and a newline. *)
Theorem Write_onto_a_directory_leaves_the_temporary_file (d : Driver)
    (c r : string) (v : V) (w : World) (b : list Byte.byte) (kc : place)
    (p q : N) :
  c ≠ "" → proper r = true → MarshalIndent v "" tab = Ok b →
  find (cwd w) (files w) (Join [dir d; c]) = inr (kc, Dir p) →
  may_write p = true → may_search p = true →
  files w !! ((r +:+ ".json") :: kc) = Some (Dir q) →
  files w !! ((r +:+ ".json.tmp") :: kc) = None →
  let fnl := Join [dir d; c; r] +:+ ".json" in
  (Write d c r v w).1 = Some (LinkError "rename" (fnl +:+ ".tmp") fnl EEXIST) ∧
  files (Write d c r v w).2 =
    <[(r +:+ ".json.tmp") :: kc := File perm_0644 (b ++ [Byte.x0a])]> (files w).
Proof.
  intros Hc Hr Hmar Hfind Hpw Hps Hdir Htmp fnl.
  apply find_inr in Hfind as (Hne & Hkc & Hwalk & Hlook).
  destruct (Write_fst_files d c r v w Hc (proper_nonempty _ Hr)) as (-> & -> & _).
  destruct (document_places (cwd w) (dir d) c r Hc Hr) as (_ & _ & Hkf & Hkt).
  rewrite <-Hkc in Hkf, Hkt.
  assert (Join [Join [dir d; c]; r +:+ ".json"] = fnl) as Hfnl.
  { apply Join_named; [done|by apply proper_named]. }
  rewrite Hfnl in Hkf, Hkt.
  assert (fnl ≠ "") as Hfne by (unfold fnl; by destruct (Join [dir d; c; r])).
  assert (fnl +:+ ".tmp" ≠ "") as Htne by (by destruct fnl).
  assert (walk (files w) ((r +:+ ".json") :: kc) = None) as Hwalkf.
  { rewrite walk_cons, Hwalk, Hlook. by rewrite Hps. }
  assert (r +:+ ".json.tmp" ≠ r +:+ ".json") as Hxne.
  { intros Heq. symmetry in Heq. by apply json_ne_tmp in Heq. }
  unfold Write_locked. io. unfold MkdirAll.
  rewrite bool_decide_eq_false_2, <-Hkc, (mkdir_all_at_dir _ _ _ p) by done.
  simpl. rewrite Hmar, Hfnl.
  unfold WriteFile. rewrite on_place_ok; simpl; rewrite ?Hkt;
    [|done|by rewrite (walk_sibling _ _ (r +:+ ".json"))].
  unfold write_at. rewrite Htmp. simpl. rewrite Hlook, Hpw. simpl.
  unfold Rename. simpl. rewrite !bool_decide_eq_false_2 by done. simpl.
  rewrite Hkf, Hkt. unfold rename_at.
  rewrite walk_insert_beside, Hwalkf.
  rewrite (lookup_insert_ne _ _ ((r +:+ ".json") :: kc)) by congruence.
  rewrite Hdir, walk_insert_beside, (walk_sibling _ _ (r +:+ ".json")), Hwalkf.
  by rewrite lookup_insert_eq.
Qed.

End WriteFails.

(** ** ReadAll of a collection of readable documents *)

Lemma read_all_of_ok w dir fis records (f : FileInfo → string) :
  (∀ fi, fi ∈ fis → ∃ b, read_of w (Join [dir; Name fi]) = Ok b ∧
                         f fi = String.string_of_list_byte b) →
  read_all_of w dir fis records = (records ++ (f <$> fis), None).
Proof.
  revert records. induction fis as [|fi fis IH]; intros records Hall.
  { simpl. by rewrite app_nil_r. }
  destruct (Hall fi) as (b & Hb & Hf); [by left|].
  simpl. rewrite Hb, IH.
  - by rewrite Hf, <-app_assoc.
  - intros fi' Hin. apply Hall. by right.
Qed.

Lemma readdir_of_dir w name k p :
  find (cwd w) (files w) name = inr (k, Dir p) →
  may_read p = true → may_search p = true →
  (readdir_of w name).2 = None ∧
  (readdir_of w name).1 ≡ₚ (λ '(c, n), info (c :: k) n) <$> children (files w) k ∧
  Sorted by_name (readdir_of w name).1.
Proof.
  intros Hfind Hr Hs. unfold readdir_of. rewrite Hfind, Hr.
  destruct (children (files w) k) as [|[c n] es] eqn:Hch; [by split_and!; constructor|].
  rewrite Hs. cbn [fst snd]. split_and!; [done|apply merge_sort_Permutation|].
  apply Sorted_merge_sort. intros a b. apply String.le_total.
Qed.

(** The records of ReadAll follow the list of ReadDir. *)
Lemma ReadAll_listing d c w k p :
  c ≠ "" → well_formed (files w) →
  find (cwd w) (files w) (Join [dir d; c]) = inr (k, Dir p) →
  may_read p = true → may_search p = true →
  (∀ x n, files w !! (x :: k) = Some n →
          ∃ q data, n = File q data ∧ may_read q = true) →
  (ReadAll d c w).1 =
    ((λ fi, content (default (Dir 0) (files w !! (Name fi :: k))))
       <$> (readdir_of w (Join [dir d; c])).1, None).
Proof.
  intros Hc Hwf Hfind Hr Hs Hall.
  destruct (readdir_of_dir w _ k p Hfind Hr Hs) as (Herr & Hperm & Hsorted).
  pose proof Hfind as (Hne & Hk & Hwalk & Hlook)%find_inr.
  set (dirp := Join [dir d; c]) in *.
  rewrite ReadAll_fst by done. fold dirp.
  assert ((stat dirp w).1 = Ok (info k (Dir p))) as ->.
  { rewrite stat_fst. unfold stat_of. by rewrite Hfind. }
  rewrite (read_all_of_ok w dirp _ []
             (λ fi, content (default (Dir 0) (files w !! (Name fi :: k))))); [done|].
  intros fi Hin. rewrite Hperm in Hin.
  apply list_elem_of_fmap in Hin as ([x n] & -> & Hin).
  pose proof Hin as Hx%children_elem.
  destruct (Hall _ _ Hx) as (q & data & -> & Hq).
  pose proof (wf_names _ _ _ Hwf Hx) as Hnames.
  inversion_clear Hnames as [|?? Hprop _].
  exists data. simpl. rewrite Hx. split; [|done].
  unfold read_of, find.
  rewrite bool_decide_eq_false_2.
  2:{ apply Join_nonempty. by apply proper_nonempty. }
  rewrite locate_Join_child, <-Hk by done.
  rewrite walk_cons, Hwalk, Hlook, Hs, Hx. by rewrite Hq.
Qed.

(** X11. ReadAll of a collection whose directory may be read and searched
    and whose entries are all readable regular files returns one record per
    entry, whatever the name of the entry (there is no filter on the
    extension), each record the bytes of its file, in ascending order of the
    names of the entries. *)
Theorem ReadAll_returns_every_entry_by_name (d : Driver) (c : string)
    (w : World) (k : place) (p : N) :
  c ≠ "" → well_formed (files w) →
  find (cwd w) (files w) (Join [dir d; c]) = inr (k, Dir p) →
  may_read p = true → may_search p = true →
  (∀ x n, files w !! (x :: k) = Some n →
          ∃ q data, n = File q data ∧ may_read q = true) →
  ∃ es, es ≡ₚ children (files w) k ∧ Sorted name_le es ∧
        (ReadAll d c w).1 = ((λ e, content e.2) <$> es, None).
Proof.
  intros Hc Hwf Hfind Hr Hs Hall.
  destruct (readdir_of_dir w _ k p Hfind Hr Hs) as (Herr & Hperm & Hsorted).
  set (g := λ '(c, n), info (c :: k) n) in *.
  set (h := λ fi : FileInfo, (Name fi, default (Dir 0) (files w !! (Name fi :: k)))).
  assert (∀ e, e ∈ children (files w) k → h (g e) = e) as Hhg.
  { intros [x n] Hin%children_elem. unfold h, g. simpl. by rewrite Hin. }
  exists (h <$> (readdir_of w (Join [dir d; c])).1). split_and!.
  - rewrite Hperm, <-list_fmap_compose.
    rewrite <-(list_fmap_id (children (files w) k)) at 2.
    apply reflexive_eq.
    apply list_fmap_ext. intros i e Hi. apply Hhg. by eapply list_elem_of_lookup_2.
  - eapply Sorted_fmap; [|exact Hsorted]. by intros a b Hab.
  - rewrite (ReadAll_listing d c w k p) by done. by rewrite <-list_fmap_compose.
Qed.

(** ** New, again *)

(** What New does to the tree, and what a later probe of the root sees. *)
Lemma New_tree root opts w :
  let e := (New root opts w).1.2 in
  let w1 := (New root opts w).2 in
  dir (New root opts w).1.1 = Clean root ∧ cwd w1 = cwd w ∧
  (is_Ok (stat_of w (Clean root)) = true → e = None ∧ files w1 = files w) ∧
  (e = None → is_Ok (stat_of w1 (Clean root)) = true).
Proof.
  unfold New. io. simpl.
  set (dirc := Clean root).
  assert (dirc ≠ "") as Hne by apply Clean_nonempty.
  set (w0 := set_heap _ _).
  assert (stat_of w0 dirc = stat_of w dirc) as Hst by done.
  rewrite Hst.
  destruct (stat_of w dirc) as [fi|err] eqn:Hstat; simpl.
  { split_and!; try done. intros _.
    change (stat_of _ dirc) with (stat_of w dirc). by rewrite Hstat. }
  match goal with |- context [Mkdir dirc perm_0755 ?wx] =>
    destruct (Mkdir dirc perm_0755 wx) as [e1 w2] eqn:Hmk end.
  simpl. apply on_place_inv in Hmk as (Hcwd & _ & Hcases). simpl in *.
  split_and!; [done|done|by intros [=]|]. intros ->.
  destruct Hcases as [(e & _ & [=] & _)|(ro & _ & Hwalk & Hmk & Hro)].
  destruct ro; [done|]. unfold mkdir_at in Hmk.
  destruct (files w !! locate (cwd w) dirc) eqn:Hk; [done|].
  destruct (parent_writable _ _); simplify_eq.
  unfold stat_of, find. rewrite bool_decide_eq_false_2, Hcwd by done.
  rewrite <-Hmk.
  assert (∀ t k n, walk (<[k := n]> t) k = walk t k) as Hins.
  { intros t [|x up] n; [done|]. apply walk_insert_beside. }
  rewrite Hins, Hwalk.
  by rewrite lookup_insert_eq.
Qed.

Lemma New_addresses root opts w :
  mutex (New root opts w).1.1 = next w ∧
  mutexes (New root opts w).1.1 = N.succ (next w) ∧
  next (New root opts w).2 = N.succ (N.succ (next w)).
Proof.
  unfold New. io. simpl.
  destruct (stat_of _ _); simpl; [done|].
  match goal with |- context [Mkdir ?a ?b ?wx] =>
    pose proof (on_place_next "mkdir" a (EvMkdir a b) (mkdir_at b) wx) as Hn;
    fold (Mkdir a b) in Hn; destruct (Mkdir a b wx) as [e1 w2] end.
  done.
Qed.

(** X13. After a New that returned no error, a second New on the same root
    (with any options) returns no error and leaves the tree as the first
    one left it. The two drivers hold the same root, but two different maps
    of mutexes, and the second New does not touch the map of the first. *)
Theorem New_again_finds_the_store (root : string) (opts opts' : option Options)
    (w : World) :
  (New root opts w).1.2 = None →
  let d1 := (New root opts w).1.1 in
  let w1 := (New root opts w).2 in
  let d2 := (New root opts' w1).1.1 in
  let w2 := (New root opts' w1).2 in
  (New root opts' w1).1.2 = None ∧ files w2 = files w1 ∧ dir d2 = dir d1 ∧
  mutexes d2 ≠ mutexes d1 ∧ registry d1 w2 = registry d1 w1.
Proof.
  intros He d1 w1 d2 w2.
  destruct (New_tree root opts w) as (Hd1 & _ & _ & Hprobe).
  destruct (New_tree root opts' w1) as (Hd2 & _ & Hok & _).
  destruct (Hok (Hprobe He)) as [He2 Hf2].
  destruct (New_addresses root opts w) as (_ & Hmp1 & Hn1).
  destruct (New_registries root opts' w1) as (_ & _ & Hother).
  destruct (Hother d1) as [Hne Hreg].
  { unfold d1, w1. rewrite Hmp1, Hn1. lia. }
  split_and!; [done|done|unfold d1, d2; by rewrite Hd1, Hd2|done|done].
Qed.

Lemma mkdir_all_at_under_file perm t c k q data :
  walk t k = None → t !! k = Some (File q data) →
  mkdir_all_at perm t (c :: k) = (Some ENOTDIR, t).
Proof.
  intros Hwalk Hk. simpl. rewrite walk_cons, Hwalk, Hk.
  assert (mkdir_all_at perm t k = (Some ENOTDIR, t)) as ->; [|done].
  destruct k; simpl; by rewrite ?Hwalk, Hk.
Qed.

Section FileRoot.
Context `{Codec V}.

(** X14. New only probes that the root exists: when the root is a regular
    file, New returns no error and changes nothing. Every Write on that
    store into a collection with a plain name then fails with an error of
    the file system, and changes nothing either. *)
Theorem New_accepts_a_file_as_root (root : string) (opts : option Options)
    (w : World) (k : place) (q : N) (data : list Byte.byte) (c r : string)
    (v : V) :
  find (cwd w) (files w) (Clean root) = inr (k, File q data) →
  proper c = true → r ≠ "" →
  let d := (New root opts w).1.1 in
  let w1 := (New root opts w).2 in
  (New root opts w).1.2 = None ∧ files w1 = files w ∧
  (∃ e, (Write d c r v w1).1 = Some e ∧ fs_error e = true) ∧
  files (Write d c r v w1).2 = files w.
Proof.
  intros Hfind Hc Hr d w1.
  destruct (New_tree root opts w) as (Hd & Hcwd & Hok & _).
  destruct Hok as [He Hf]; [unfold stat_of; by rewrite Hfind|].
  fold w1 in Hcwd, Hf. fold d in Hd.
  apply find_inr in Hfind as (Hne & Hk & Hwalk & Hlook).
  pose proof (proper_nonempty _ Hc) as Hcne.
  destruct (Write_fst_files d c r v w1 Hcne Hr) as (-> & -> & _).
  assert (Write_locked d c r v w1
          = (Some (perr "mkdir" (Join [dir d; c]) ENOTDIR),
             emit (EvMkdirAll (Join [dir d; c]) perm_0755) (set_files (files w) w1))) as ->.
  { unfold Write_locked. io. unfold MkdirAll.
    rewrite bool_decide_eq_false_2 by (by apply Join_nonempty).
    rewrite Hd, Hcwd, Hf, locate_Join_child, <-Hk by done.
    by rewrite (mkdir_all_at_under_file _ _ _ _ q data). }
  split_and!; [done..|eauto|done].
Qed.

End FileRoot.

(** ** Entries of a directory, again *)

Lemma children_NoDup t k : NoDup (children t k).
Proof.
  unfold children.
  set (f := λ '(k', n), match k' with
                        | c :: up => if bool_decide (up = k) then Some (c, n) else None
                        | [] => None
                        end).
  assert (∀ l : list (place * node), NoDup l.*1 → NoDup (omap f l)) as Hgen.
  { induction l as [|[k' n'] l IH]; intros Hnd; [constructor|].
    simpl in Hnd. apply NoDup_cons in Hnd as [Hk' Hnd].
    change (omap f ((k', n') :: l))
      with (match f (k', n') with Some y => y :: omap f l | None => omap f l end).
    destruct (f (k', n')) as [[c n]|] eqn:Hf; [|by apply IH].
    apply NoDup_cons. split; [|by apply IH].
    intros Hin. apply list_elem_of_omap in Hin as ([k2 n2] & Hin & Hf2).
    unfold f in Hf, Hf2. destruct k' as [|c1 up1]; [done|]. destruct k2 as [|c2 up2]; [done|].
    repeat case_bool_decide; simplify_eq.
    apply Hk'. apply list_elem_of_fmap. by exists (c :: k, n). }
  apply Hgen, NoDup_fst_map_to_list.
Qed.

Lemma children_perm t t' k :
  (∀ x, t' !! (x :: k) = t !! (x :: k)) → children t' k ≡ₚ children t k.
Proof.
  intros Hsame. apply NoDup_Permutation; [apply children_NoDup..|].
  intros [x n]. by rewrite !children_elem, Hsame.
Qed.

Lemma children_insert t k x n :
  t !! (x :: k) = None → children (<[x :: k := n]> t) k ≡ₚ (x, n) :: children t k.
Proof.
  intros Hnew. apply NoDup_Permutation.
  - apply children_NoDup.
  - apply NoDup_cons. split; [|apply children_NoDup].
    rewrite children_elem. by rewrite Hnew.
  - intros [y m]. rewrite elem_of_cons, !children_elem.
    destruct (decide (y = x)) as [->|Hne].
    + rewrite lookup_insert_eq, Hnew. split.
      * intros [= ->]. by left.
      * by intros [[= ->]|?].
    + rewrite lookup_insert_ne by congruence. split; [by right|].
      by intros [[= ? ?]|?].
Qed.

(** A new entry in a directory of a well-formed tree. *)
Lemma wf_insert_new t x up n p :
  well_formed t → t !! (x :: up) = None → proper x = true →
  t !! up = Some (Dir p) → well_formed (<[x :: up := n]> t).
Proof.
  intros Hwf Hnew Hx Hup k m Hk.
  assert (∀ k', is_dir (t !! k') = true → is_dir (<[x :: up := n]> t !! k') = true) as Hdirs.
  { intros k' Hd. rewrite lookup_insert_ne; [done|]. intros <-. by rewrite Hnew in Hd. }
  destruct (decide (k = x :: up)) as [->|Hne].
  - unfold entry_ok. rewrite Hdirs by (by rewrite Hup). rewrite andb_true_r.
    apply bool_decide_eq_true. constructor; [done|]. by eapply wf_names.
  - rewrite lookup_insert_ne in Hk by done.
    pose proof (Hwf _ _ Hk) as Hok. unfold entry_ok in *.
    apply andb_prop in Hok as [-> Hpar]. simpl.
    destruct k as [|c' up']; [done|]. by apply Hdirs.
Qed.

(** ** RemoveAll of a directory that holds only files *)

Lemma foldl_delete_lookup (t : tree) (vs : list place) k :
  foldl (λ t v, delete v t) t vs !! k = if decide (k ∈ vs) then None else t !! k.
Proof.
  revert t. induction vs as [|v vs IH]; intros t; [done|].
  simpl. rewrite IH. destruct (decide (k = v)) as [->|Hne].
  - rewrite lookup_delete_eq. rewrite (decide_True (P := v ∈ v :: vs)) by left.
    by destruct (decide _).
  - rewrite lookup_delete_ne by done.
    destruct (decide (k ∈ vs)) as [Hin|Hin].
    + by rewrite decide_True by (by right).
    + rewrite decide_False; [done|]. by intros [?|?]%elem_of_cons.
Qed.

Lemma listable_self t kp q :
  t !! kp = Some (Dir q) → may_read q = true → may_search q = true →
  listable t kp kp = true.
Proof.
  intros Hkp Hr Hs. destruct kp; simpl; rewrite Hkp, Hr, Hs; simpl;
    by rewrite ?bool_decide_eq_true_2.
Qed.

Lemma foldl_try_unlink_files kp q (vs : list place) t :
  t !! kp = Some (Dir q) →
  may_read q = true → may_write q = true → may_search q = true →
  (∀ v, v ∈ vs → ∃ x, v = x :: kp ∧ is_dir (t !! v) = false) →
  foldl (try_unlink kp) t vs = foldl (λ t v, delete v t) t vs.
Proof.
  intros Hkp Hr Hw Hs. revert t Hkp. induction vs as [|v vs IH]; intros t Hkp Hall; [done|].
  simpl. destruct (Hall v) as (x & -> & Hv); [by left|].
  assert (try_unlink kp t (x :: kp) = delete (x :: kp) t) as ->.
  { unfold try_unlink. destruct (t !! (x :: kp)) as [[p data|p]|] eqn:Hx; [|done|].
    - rewrite (listable_self _ _ q) by done. simpl. by rewrite Hkp, Hw.
    - by rewrite delete_id. }
  apply IH.
  - rewrite lookup_delete_ne; [done|].
    intros Heq. apply (f_equal length) in Heq. simpl in Heq. lia.
  - intros v' Hin. destruct (Hall v') as (x' & -> & Hv'); [by right|].
    exists x'. split; [done|].
    destruct (decide (x' :: kp = x :: kp)) as [->|Hne].
    + by rewrite lookup_delete_eq.
    + by rewrite lookup_delete_ne.
Qed.

Lemma remove_all_at_flat t c up q :
  let kp := c :: up in
  t !! kp = Some (Dir q) →
  may_read q = true → may_write q = true → may_search q = true →
  parent_writable t kp = true →
  (∀ k n, kp `suffix_of` k → k ≠ kp → t !! k = Some n →
          ∃ x p data, k = x :: kp ∧ n = File p data) →
  ∃ t', remove_all_at t kp = (None, t') ∧
        (∀ k, kp `suffix_of` k → t' !! k = None) ∧
        (∀ k, ¬ kp `suffix_of` k → t' !! k = t !! k).
Proof.
  intros kp Hkp Hr Hw Hs Hpw Hflat. unfold remove_all_at.
  set (vs := merge_sort _ _).
  assert (∀ v, v ∈ vs ↔ below kp v = true ∧ is_Some (t !! v)) as Hvs.
  { intros v. unfold vs. rewrite merge_sort_Permutation, list_elem_of_filter.
    rewrite list_elem_of_fmap. split.
    - intros [Hb ([k n] & -> & Hin%elem_of_map_to_list)]. eauto.
    - intros [Hb [n Hn]]. split; [done|]. exists (v, n). split; [done|].
      by apply elem_of_map_to_list. }
  assert (∀ v, below kp v = true ↔ kp `suffix_of` v ∧ v ≠ kp) as Hbelow.
  { intros v. unfold below. rewrite andb_true_iff, bool_decide_eq_true, negb_true_iff.
    by rewrite bool_decide_eq_false. }
  rewrite (foldl_try_unlink_files kp q) by
    (try done; intros v [[Hsuf Hne]%Hbelow [n Hn]]%Hvs;
     destruct (Hflat _ _ Hsuf Hne Hn) as (x & p & data & -> & ->);
     exists x; by rewrite Hn).
  set (t1 := foldl _ t vs).
  assert (∀ k, t1 !! k = if decide (k ∈ vs) then None else t !! k) as Ht1
    by apply foldl_delete_lookup.
  assert (kp ∉ vs) as Hkpvs.
  { intros [Hb _]%Hvs. by rewrite below_refl in Hb. }
  assert (t1 !! kp = Some (Dir q)) as Hkp1 by (by rewrite Ht1, decide_False).
  assert (∀ x, t1 !! (x :: kp) = None) as Hempty.
  { intros x. rewrite Ht1. destruct (decide _) as [|Hnin]; [done|].
    destruct (t !! (x :: kp)) as [n|] eqn:Hx; [|done].
    destruct Hnin. apply Hvs. split; [|by rewrite Hx].
    apply Hbelow. split; [by exists [x]|].
    intros Heq. apply (f_equal length) in Heq. simpl in Heq. lia. }
  assert (parent_writable t1 kp = true) as Hpw1.
  { unfold kp in *. simpl in *. rewrite Ht1, decide_False; [done|].
    intros [[Hsuf _]%Hbelow _]%Hvs. apply suffix_length in Hsuf. simpl in Hsuf. lia. }
  unfold remove_at. rewrite Hkp1. unfold kp at 1. fold kp. rewrite Hpw1. simpl.
  unfold is_empty_dir. rewrite bool_decide_eq_true_2 by (by apply children_nil).
  eexists. split; [done|]. split.
  - intros k Hsuf. destruct (decide (k = kp)) as [->|Hne]; [apply lookup_delete_eq|].
    rewrite lookup_delete_ne, Ht1 by done.
    destruct (decide _) as [|Hnin]; [done|].
    destruct (t !! k) as [n|] eqn:Hk; [|done].
    destruct Hnin. apply Hvs. split; [by apply Hbelow|by rewrite Hk].
  - intros k Hsuf. rewrite lookup_delete_ne by (by intros <-).
    rewrite Ht1, decide_False; [done|].
    intros [[? _]%Hbelow _]%Hvs. done.
Qed.

(** ** Delete of a collection that holds only documents *)

Lemma mode_dir q : IsDir (node_mode (Dir q)) = true.
Proof.
  unfold IsDir, node_mode.
  destruct (N.eqb_spec (N.land (N.lor ModeDir (N.land q ModePerm)) ModeDir) 0) as [Heq|]; [|done].
  apply (f_equal (λ m, N.testbit m 31)) in Heq.
  rewrite N.land_spec, N.lor_spec in Heq. by vm_compute in Heq.
Qed.

Lemma named_not_dot p : named p = true → endsWithDot p = false.
Proof.
  intros (init & l & Hp & Hl)%named_split. unfold endsWithDot.
  rewrite Hp, last_snoc.
  apply orb_false_iff. split; apply bool_decide_eq_false.
  - intros ->. destruct init as [|? [|??]]; simplify_eq/=.
  - intros [[= ->] _]. done.
Qed.

Lemma proper_not_rooted c : proper c = true → rooted c = false.
Proof.
  intros Hc. pose proof (proper_no_slash _ Hc) as Hns.
  destruct c as [|a c]; [done|]. simpl in *.
  by destruct (IsPathSeparator a).
Qed.

Lemma named_Join2 a c : named c = true → named (Join [a; c]) = true.
Proof.
  intros Hc. pose proof (named_nonempty _ Hc) as Hne.
  destruct (decide (a = "")) as [->|Ha].
  - rewrite Join_skip, Join1 by done. by apply named_Clean.
  - rewrite Join2 by done. apply named_Clean; [apply app_sep_nonempty|].
    by apply named_app.
Qed.

Lemma Delete_flat d c w x up q :
  c ≠ "" → rooted c = false → named (Join [dir d; c]) = true →
  find (cwd w) (files w) (Join [dir d; c]) = inr (x :: up, Dir q) →
  may_read q = true → may_write q = true → may_search q = true →
  parent_writable (files w) (x :: up) = true →
  (∀ k n, (x :: up) `suffix_of` k → k ≠ x :: up → files w !! k = Some n →
          ∃ y p data, k = y :: x :: up ∧ n = File p data) →
  (Delete d c "" w).1 = None ∧ cwd (Delete d c "" w).2 = cwd w ∧
  (∀ k, (x :: up) `suffix_of` k → files (Delete d c "" w).2 !! k = None) ∧
  (∀ k, ¬ (x :: up) `suffix_of` k → files (Delete d c "" w).2 !! k = files w !! k).
Proof.
  intros Hc Hrel Hnamed Hfind Hr Hw Hs Hpw Hflat.
  pose proof Hfind as (Hne & Hk & Hwalk & Hlook)%find_inr.
  set (target := Join [dir d; c]) in *.
  destruct (remove_all_at_flat (files w) x up q Hlook Hr Hw Hs Hpw Hflat)
    as (t' & Hrm & Hgone & Hrest).
  assert ((stat target w).1 = Ok (info (x :: up) (Dir q))) as Hstat.
  { rewrite stat_fst. unfold stat_of. by rewrite Hfind. }
  assert (RemoveAll target w = (None, emit (EvRemoveAll target) (set_files t' w))) as Hra.
  { unfold RemoveAll. rewrite bool_decide_eq_false_2 by done.
    rewrite named_not_dot by done. rewrite <-Hk, Hwalk, Hrm. done. }
  destruct (Delete_files d c "" w Hc) as [Hcwd1 Hfiles1].
  rewrite Join_collection in Hfiles1 by done. fold target in Hfiles1.
  rewrite Hstat in Hfiles1. cbn [Mode info] in Hfiles1.
  rewrite mode_dir, Hra in Hfiles1. simpl in Hfiles1.
  split_and!; [|done|by rewrite Hfiles1..].
  rewrite Delete_fst, Join_collection by done. fold target. rewrite Hstat. cbn [Mode info].
  by rewrite mode_dir, Hra.
Qed.

(** X19. Delete with the empty resource name removes the whole collection:
    for a collection with a plain name whose directory may be read, written
    and searched and holds regular files only, in a root that may be written
    and searched, Delete returns no error, nothing is left at or below the
    directory of the collection, and every other place of the tree is as it
    was. *)
Theorem Delete_removes_a_collection_of_documents (d : Driver) (c : string)
    (w : World) (kroot : place) (p q : N) :
  proper c = true →
  find (cwd w) (files w) (dir d) = inr (kroot, Dir p) →
  may_write p = true → may_search p = true →
  files w !! (c :: kroot) = Some (Dir q) →
  may_read q = true → may_write q = true → may_search q = true →
  (∀ k n, (c :: kroot) `suffix_of` k → k ≠ c :: kroot → files w !! k = Some n →
          ∃ y p' data, k = y :: c :: kroot ∧ n = File p' data) →
  (Delete d c "" w).1 = None ∧
  (∀ k, (c :: kroot) `suffix_of` k → files (Delete d c "" w).2 !! k = None) ∧
  (∀ k, ¬ (c :: kroot) `suffix_of` k →
        files (Delete d c "" w).2 !! k = files w !! k).
Proof.
  intros Hc Hfind Hpw Hps Hdir Hr Hw Hs Hflat.
  apply find_inr in Hfind as (Hne & Hkroot & Hwalk & Hlook).
  pose proof (proper_nonempty _ Hc) as Hcne.
  assert (locate (cwd w) (Join [dir d; c]) = c :: kroot) as Hkc.
  { rewrite Hkroot. by apply locate_Join_child. }
  destruct (Delete_flat d c w c kroot q) as (Hres & _ & Hgone & Hrest); try done.
  - by apply proper_not_rooted.
  - by apply named_Join2, proper_named.
  - unfold find. rewrite bool_decide_eq_false_2 by (by apply Join_nonempty).
    rewrite Hkc, walk_cons, Hwalk, Hlook, Hps. by rewrite Hdir.
  - simpl. by rewrite Hlook.
Qed.

(** ** A document written, listed, deleted *)

Lemma walk_insert_deeper t k k' n :
  length k ≤ length k' → walk (<[k' := n]> t) k = walk t k.
Proof.
  intros Hlen. destruct k as [|x k]; [done|].
  apply walk_agree. intros u Hu. apply lookup_insert_ne.
  intros <-. apply suffix_length in Hu. simpl in *. lia.
Qed.

Lemma find_dir wd t name k q :
  name ≠ "" → locate wd name = k → walk t k = None → t !! k = Some (Dir q) →
  find wd t name = inr (k, Dir q).
Proof.
  intros Hne Hk Hwalk Hlook. unfold find.
  by rewrite bool_decide_eq_false_2, Hk, Hwalk, Hlook.
Qed.

Section Round.
Context `{Codec V}.

(** X20. A round through the store. On a root that may be written and
    searched and has no entry for the collection, Write of one document
    returns no error; ReadAll then returns that one record, the encoding and
    a newline; Delete of the document returns no error; ReadAll then returns
    the empty list and no error (the directory of the collection is still
    there); Delete with the empty resource name returns no error; and the
    tree is then again the tree before the Write. *)
Theorem Write_ReadAll_Delete_round (d : Driver) (c r : string) (v : V)
    (w : World) (b : list Byte.byte) (kroot : place) (p : N) :
  proper c = true → proper r = true → MarshalIndent v "" tab = Ok b →
  well_formed (files w) →
  find (cwd w) (files w) (dir d) = inr (kroot, Dir p) →
  may_write p = true → may_search p = true →
  files w !! (c :: kroot) = None →
  let w1 := (Write d c r v w).2 in
  let w2 := (Delete d c r w1).2 in
  let w3 := (Delete d c "" w2).2 in
  (Write d c r v w).1 = None ∧
  (ReadAll d c w1).1 = ([String.string_of_list_byte (b ++ [Byte.x0a])], None) ∧
  (Delete d c r w1).1 = None ∧
  (ReadAll d c w2).1 = ([], None) ∧
  (Delete d c "" w2).1 = None ∧
  files w3 = files w.
Proof.
  intros Hc Hr Hmar Hwf Hfind Hpw Hps Hnew w1 w2 w3.
  pose proof Hfind as (Hne & Hkroot & Hwalk & Hlook)%find_inr.
  pose proof (proper_nonempty _ Hc) as Hcne.
  pose proof (proper_nonempty _ Hr) as Hrne.
  pose proof (proper_not_rooted _ Hc) as Hrel.
  set (kc := c :: kroot) in *.
  set (doc := File perm_0644 (b ++ [Byte.x0a])).
  set (t2 := <[kc := Dir perm_0755]> (files w)).
  set (t1 := <[(r +:+ ".json") :: kc := doc]> t2).
  assert (locate (cwd w) (Join [dir d; c]) = kc) as Hkc.
  { unfold kc. rewrite Hkroot. by apply locate_Join_child. }
  (* the tree before has nothing below the collection *)
  assert (∀ k, kc `suffix_of` k → files w !! k = None) as Hnone.
  { intros k Hk. by eapply wf_nothing_below. }
  assert (∀ x, t2 !! (x :: kc) = None) as Hempty2.
  { intros x. unfold t2. rewrite lookup_insert_ne.
    - apply Hnone. by exists [x].
    - intros Heq. apply (f_equal length) in Heq. simpl in Heq. lia. }
  assert (well_formed t2) as Hwf2 by (by eapply wf_insert_new).
  assert (t2 !! kc = Some (Dir perm_0755)) as Hkc2 by apply lookup_insert_eq.
  assert (well_formed t1) as Hwf1.
  { eapply wf_insert_new; [done|apply Hempty2|by apply proper_json|done]. }
  assert (walk t2 kc = None) as Hwalk2.
  { unfold t2. rewrite walk_insert_deeper by done.
    unfold kc. rewrite walk_cons, Hwalk, Hlook. by rewrite Hps. }
  assert (walk t1 kc = None) as Hwalk1.
  { unfold t1. rewrite walk_insert_deeper; [done|simpl; lia]. }
  assert (t1 !! kc = Some (Dir perm_0755)) as Hkc1.
  { unfold t1. rewrite lookup_insert_ne; [done|].
    intros Heq. apply (f_equal length) in Heq. simpl in Heq. lia. }
  (* Write *)
  destruct (Write_fst_files d c r v w Hcne Hrne) as (Hres1 & Hfiles1 & Hcwd1).
  destruct (Write_first d c r v w b kroot p) as [Hres Hfiles]; [done..|].
  rewrite Hres in Hres1. rewrite Hfiles in Hfiles1.
  fold kc t2 doc t1 in Hfiles1. fold w1 in Hfiles1, Hcwd1.

  (* ReadAll *)
  assert (find (cwd w1) (files w1) (Join [dir d; c]) = inr (kc, Dir perm_0755)) as Hfind1.
  { apply find_dir; [by apply Join_nonempty|by rewrite Hcwd1|by rewrite Hfiles1..]. }
  assert ((ReadAll d c w1).1 = ([String.string_of_list_byte (b ++ [Byte.x0a])], None))
    as Hread1.
  { rewrite (ReadAll_listing d c w1 kc perm_0755); try done; [|by rewrite Hfiles1|].
    2:{ intros x n. rewrite Hfiles1. unfold t1.
        destruct (decide (x = r +:+ ".json")) as [->|Hx].
        - rewrite lookup_insert_eq. intros [= <-]. by eexists _, _.
        - rewrite lookup_insert_ne by congruence. by rewrite Hempty2. }
    destruct (readdir_of_dir w1 _ kc perm_0755 Hfind1) as (_ & Hperm & _); [done..|].
    rewrite Hfiles1 in Hperm. unfold t1 in Hperm.
    rewrite children_insert in Hperm by apply Hempty2.
    rewrite (proj2 (children_nil t2 kc)) in Hperm by done.
    apply Permutation_singleton_r in Hperm. rewrite Hperm. simpl.
    rewrite Hfiles1. unfold t1. by rewrite lookup_insert_eq. }
  (* Delete of the document *)
  destruct (Delete_document d c r w1 kc perm_0755 perm_0644 (b ++ [Byte.x0a]))
    as (Hres2 & Hcwd2 & Hfiles2); try done.
  { rewrite Hfiles1. unfold t1. rewrite lookup_insert_ne, Hempty2; [done|].
    intros [= Heq]. by apply suffix_ne in Heq. }
  { rewrite Hfiles1. apply lookup_insert_eq. }
  fold w2 in Hcwd2, Hfiles2. rewrite Hcwd1 in Hcwd2. rewrite Hfiles1 in Hfiles2.
  unfold t1 in Hfiles2. rewrite delete_insert_id in Hfiles2 by apply Hempty2.
  (* ReadAll of the empty collection *)
  assert (find (cwd w2) (files w2) (Join [dir d; c]) = inr (kc, Dir perm_0755)) as Hfind2.
  { apply find_dir; [by apply Join_nonempty|by rewrite Hcwd2|by rewrite Hfiles2..]. }
  assert ((ReadAll d c w2).1 = ([], None)) as Hread2.
  { rewrite (ReadAll_listing d c w2 kc perm_0755); try done; [|by rewrite Hfiles2|].
    2:{ intros x n. by rewrite Hfiles2, Hempty2. }
    destruct (readdir_of_dir w2 _ kc perm_0755 Hfind2) as (_ & Hperm & _); [done..|].
    rewrite Hfiles2, (proj2 (children_nil t2 kc)) in Hperm by done.
    apply Permutation_nil_r in Hperm. by rewrite Hperm. }
  (* Delete of the collection *)
  destruct (Delete_flat d c w2 c kroot perm_0755) as (Hres3 & _ & Hgone & Hrest);
    try done.
  { by apply named_Join2, proper_named. }
  { rewrite Hfiles2. unfold t2. simpl. rewrite lookup_insert_ne, Hlook; [done|].
    intros Heq. apply (f_equal length) in Heq. simpl in Heq. lia. }
  { intros k n Hsuf Hk. rewrite Hfiles2. unfold t2.
    rewrite lookup_insert_ne by done. by rewrite Hnone. }
  fold kc w3 in Hgone, Hrest.
  split_and!; [done..|].
  apply map_eq. intros k. destruct (decide (kc `suffix_of` k)) as [Hsuf|Hsuf].
  - by rewrite Hgone, Hnone.
  - rewrite Hrest, Hfiles2 by done. unfold t2. apply lookup_insert_ne.
    intros <-. by apply Hsuf.
Qed.

End Round.

(** ** The program *)

Lemma by_name_trans : Transitive by_name.
Proof. intros a b c. unfold by_name. apply transitivity. Qed.

Lemma copy_user (u : Program.User) :
  {| Program.Name := Program.Name u; Program.Age := Program.Age u;
     Program.Contact := Program.Contact u; Program.Company := Program.Company u;
     Program.Addr := Program.Addr u |} = u.
Proof. by destruct u. Qed.

Lemma walk_delete_deeper t k k' :
  length k ≤ length k' → walk (delete k' t) k = walk t k.
Proof.
  intros Hlen. destruct k as [|x k]; [done|].
  apply walk_agree. intros u Hu. apply lookup_delete_ne.
  intros <-. apply suffix_length in Hu. simpl in *. lia.
Qed.

Ltac len_ne := let H := fresh in
  intros H; first [discriminate H
                  |apply (f_equal length) in H; simpl in H; lia].

Ltac look := repeat first
  [ rewrite lookup_insert_eq
  | rewrite lookup_delete_eq
  | rewrite lookup_insert_ne by len_ne
  | rewrite lookup_delete_ne by len_ne ].

Lemma read_each_fs dir fis records w :
  cwd (read_each dir fis records w).2 = cwd w ∧
  files (read_each dir fis records w).2 = files w.
Proof.
  revert records w. induction fis as [|f rest IH]; intros records w; [done|].
  simpl. io. unfold ReadFile. destruct (read_of w _) as [b|e]; [|done].
  match goal with |- context [read_each dir rest ?rs ?w'] =>
    destruct (IH rs w') as [-> ->] end.
  done.
Qed.

Lemma ReadAll_fs d c w :
  cwd (ReadAll d c w).2 = cwd w ∧ files (ReadAll d c w).2 = files w.
Proof.
  unfold ReadAll. case_bool_decide; [done|]. io.
  pose proof (stat_fs (Join [dir d; c]) w) as [Hc Hf].
  destruct (stat _ w) as [[fi|e] w1]; simpl in *; [|done].
  unfold ReadDir. destruct (readdir_of w1 _) as [fis err].
  match goal with |- context [read_each ?a fis ?rs ?w'] =>
    destruct (read_each_fs a fis rs w') as [-> ->] end.
  done.
Qed.

Lemma same_name_same_entry (l : list FileInfo) x y :
  NoDup (Name <$> l) → x ∈ l → y ∈ l → Name x = Name y → x = y.
Proof.
  induction l as [|a l IH]; intros Hnd Hx Hy Hxy; [by apply elem_of_nil in Hx|].
  apply NoDup_cons in Hnd as [Ha Hnd].
  apply elem_of_cons in Hx as [->|Hx]; apply elem_of_cons in Hy as [->|Hy].
  - done.
  - destruct Ha. rewrite Hxy. by apply list_elem_of_fmap_2.
  - destruct Ha. rewrite <-Hxy. by apply list_elem_of_fmap_2.
  - by apply IH.
Qed.

Lemma sorted_by_name_unique (l1 l2 : list FileInfo) :
  NoDup (Name <$> l2) → Sorted by_name l1 → Sorted by_name l2 → l1 ≡ₚ l2 → l1 = l2.
Proof.
  intros Hnd Hs1 Hs2 Hp.
  apply (@Sorted_unique_strong _ by_name by_name_trans); [|done..].
  intros x1 x2 H1 H2 Hle Hge. rewrite Hp in H1.
  apply (same_name_same_entry l2); [done..|].
  by apply (anti_symm String.le).
Qed.

Section MainProgram.
Context `{Codec Program.User}.

(** X21. The program, run in a working directory that may be written and
    searched and has no entry users, with a codec that encodes the four
    employees and decodes each from its encoding and a newline: it calls
    fmt.Println twice, and never for an error. The first call prints the
    four records and the second the four users, both in the order of the
    file names (Alice Johnson, Bob Brown, Jane Smith, John Doe), not in the
    order in which they were written; and when it ends the tree is the tree
    it started with. *)
Theorem main_lists_by_name_and_cleans_up (w : World)
    (enc : Program.User → list Byte.byte) (p : N)
    (john jane alice bob : Program.User) :
  Program.employee = [john; jane; alice; bob] →
  (∀ u, u ∈ Program.employee →
        MarshalIndent u "" tab = Ok (enc u) ∧
        Unmarshal (enc u ++ [Byte.x0a]) Program.zero = (u, None)) →
  well_formed (files w) →
  walk (files w) (cwd w) = None → files w !! cwd w = Some (Dir p) →
  may_write p = true → may_search p = true →
  files w !! ("users" :: cwd w) = None →
  let doc u := String.string_of_list_byte (enc u ++ [Byte.x0a]) in
  (Program.main w).1 =
    [[Program.OStr "All User Records:";
      Program.ORecords [doc alice; doc bob; doc jane; doc john]];
     [Program.OStr "All Users Structs:"; Program.OUsers [alice; bob; jane; john]]] ∧
  files (Program.main w).2 = files w.
Proof.
  intros Hemp Hcodec Hwf Hwalk Hlook Hpw Hps Hnew doc.
  (* the four users *)
  assert (Program.Name john = "John Doe" ∧ Program.Name jane = "Jane Smith" ∧
          Program.Name alice = "Alice Johnson" ∧ Program.Name bob = "Bob Brown")
    as (Hnj & Hnja & Hna & Hnb).
  { unfold Program.employee in Hemp. by simplify_eq. }
  assert (∀ u, u ∈ [john; jane; alice; bob] →
            MarshalIndent u "" tab = Ok (enc u) ∧
            Unmarshal (enc u ++ [Byte.x0a]) Program.zero = (u, None)) as Hcodec'.
  { intros u Hu. apply Hcodec. by rewrite Hemp. }
  destruct (Hcodec' john) as [Hmj Huj]; [by repeat constructor|].
  destruct (Hcodec' jane) as [Hmja Huja]; [by repeat constructor|].
  destruct (Hcodec' alice) as [Hma Hua]; [by repeat constructor|].
  destruct (Hcodec' bob) as [Hmb Hub]; [by repeat constructor|].
  (* the places *)
  set (ku := "users" :: cwd w) in *.
  set (fj := File perm_0644 (enc john ++ [Byte.x0a])).
  set (fja := File perm_0644 (enc jane ++ [Byte.x0a])).
  set (fa := File perm_0644 (enc alice ++ [Byte.x0a])).
  set (fb := File perm_0644 (enc bob ++ [Byte.x0a])).
  set (t0 := <[ku := Dir perm_0755]> (files w)).
  set (t1 := <["John Doe.json" :: ku := fj]> t0).
  set (t2 := <["Jane Smith.json" :: ku := fja]> t1).
  set (t3 := <["Alice Johnson.json" :: ku := fa]> t2).
  set (t4 := <["Bob Brown.json" :: ku := fb]> t3).
  set (t5 := delete ("Alice Johnson.json" :: ku) t4).
  assert (∀ k, ku `suffix_of` k → files w !! k = None) as Hnone.
  { intros k Hk. by eapply wf_nothing_below. }
  assert (∀ x, t0 !! (x :: ku) = None) as Hempty.
  { intros x. unfold t0. look. apply Hnone. by exists [x]. }
  assert (walk t0 ku = None) as Hwalk0.
  { unfold t0. rewrite walk_insert_deeper by done.
    unfold ku. rewrite walk_cons, Hwalk, Hlook. by rewrite Hps. }
  assert (∀ t, (t = t0 ∨ t = t1 ∨ t = t2 ∨ t = t3 ∨ t = t4 ∨ t = t5) →
               walk t ku = None ∧ t !! ku = Some (Dir perm_0755) ∧
               parent_writable t ku = true) as Hdirs.
  { assert (parent_writable t0 ku = true) as Hpw0.
    { unfold t0, ku. simpl. look. by rewrite Hlook. }
    intros t Ht. split_and!.
    - destruct Ht as [->|[->|[->|[->|[->| ->]]]]]; unfold t5, t4, t3, t2, t1;
        rewrite ?walk_delete_deeper, ?walk_insert_deeper by (simpl; lia); done.
    - destruct Ht as [->|[->|[->|[->|[->| ->]]]]]; unfold t5, t4, t3, t2, t1, t0; by look.
    - destruct Ht as [->|[->|[->|[->|[->| ->]]]]]; unfold t5, t4, t3, t2, t1;
        unfold ku in *; simpl in *; by look. }
  (* New *)
  unfold Program.main. io.
  destruct (New_tree "./" None w) as (Hd & Hcwd0 & Hok & _).
  destruct Hok as [He0 Hf0].
  { unfold stat_of, find. change (Clean "./") with ".".
    change (locate (cwd w) ".") with (cwd w). simpl. by rewrite Hwalk, Hlook. }
  destruct (New "./" None w) as [[db e0] w0]. simpl in Hd, Hcwd0, He0, Hf0. subst e0.
  change (Clean "./") with "." in Hd.
  assert (Join [dir db; "users"] = "users") as Hjoin by (by rewrite Hd).
  assert (locate (cwd w) "users" = ku) as Hku by reflexivity.
  assert (∀ wd' t q, wd' = cwd w → walk t ku = None → t !! ku = Some (Dir q) →
            find wd' t (Join [dir db; "users"]) = inr (ku, Dir q)) as Hfind.
  { intros wd' t q -> Hw Hl. rewrite Hjoin. by apply find_dir. }
  (* the four Writes *)
  rewrite Hemp. cbn [Program.write_each]. io. rewrite !copy_user.
  rewrite Hnj, Hnja, Hna, Hnb.
  destruct (Write_fst_files db "users" "John Doe" john w0) as (Hr1 & Hf1 & Hc1); [done..|].
  destruct (Write_first db "users" "John Doe" john w0 (enc john) (cwd w) p) as [Hr1' Hf1'].
  { done. } { done. } { done. } { by rewrite Hf0. }
  { rewrite Hd, Hcwd0, Hf0. by apply find_dir. }
  { done. } { done. } { by rewrite Hf0. }
  rewrite Hr1' in Hr1. rewrite Hf1', Hf0 in Hf1. clear Hr1' Hf1'.
  change (files (Write db "users" "John Doe" john w0).2 = t1) in Hf1.
  destruct (Write db "users" "John Doe" john w0) as [r1 w1]. simpl in Hr1, Hf1, Hc1.
  rewrite Hcwd0 in Hc1. subst r1.
  assert (∀ wi r u t, cwd wi = cwd w → files wi = t → walk t ku = None →
            t !! ku = Some (Dir perm_0755) → proper r = true →
            MarshalIndent u "" tab = Ok (enc u) →
            is_dir (t !! ((r +:+ ".json") :: ku)) = false →
            t !! ((r +:+ ".json.tmp") :: ku) = None →
            ∃ w', Write db "users" r u wi = (None, w') ∧ cwd w' = cwd w ∧
                  files w' = <[(r +:+ ".json") :: ku :=
                                 File perm_0644 (enc u ++ [Byte.x0a])]> t) as Hstep.
  { intros wi r u t Hc Hf Hw Hl Hr Hm Hdir Htmp.
    destruct (Write_fst_files db "users" r u wi) as (Hr1 & Hf1' & Hc1');
      [done|by apply proper_nonempty|].
    destruct (Write_existing db "users" r u wi (enc u) ku perm_0755) as [Hr' Hf'].
    { done. } { done. } { done. } { apply Hfind; by rewrite ?Hf. }
    { done. } { done. } { by rewrite Hf. } { by rewrite Hf. }
    destruct (Write db "users" r u wi) as [res w']. simpl in *. exists w'.
    split_and!; [f_equal; congruence|congruence|congruence]. }
  destruct (Hdirs t1) as (Hw1 & Hl1 & _); [tauto|].
  destruct (Hdirs t2) as (Hw2 & Hl2 & _); [tauto|].
  destruct (Hdirs t3) as (Hw3 & Hl3 & _); [tauto|].
  destruct (Hdirs t4) as (Hw4 & Hl4 & _); [tauto|].
  destruct (Hdirs t5) as (Hw5 & Hl5 & Hp5); [tauto|].
  destruct (Hstep w1 "Jane Smith" jane t1) as (w2 & -> & Hc2 & Hf2); try done.
  { unfold t1. look. by rewrite Hempty. }
  { unfold t1. look. by rewrite Hempty. }
  change (files w2 = t2) in Hf2.
  destruct (Hstep w2 "Alice Johnson" alice t2) as (w3 & -> & Hc3 & Hf3); try done.
  { unfold t2, t1. look. by rewrite Hempty. }
  { unfold t2, t1. look. by rewrite Hempty. }
  change (files w3 = t3) in Hf3.
  destruct (Hstep w3 "Bob Brown" bob t3) as (w4 & -> & Hc4 & Hf4); try done.
  { unfold t3, t2, t1. look. by rewrite Hempty. }
  { unfold t3, t2, t1. look. by rewrite Hempty. }
  change (files w4 = t4) in Hf4.
  (* ReadAll *)
  destruct (Hdirs t0) as (Hw0 & Hl0 & _); [tauto|].
  assert (well_formed t0) as Hwf0.
  { unfold t0, ku. by eapply wf_insert_new. }
  assert (well_formed t1) as Hwf1.
  { apply (wf_insert_new t0 _ ku _ perm_0755); [done|apply Hempty|done|done]. }
  assert (well_formed t2) as Hwf2.
  { apply (wf_insert_new t1 _ ku _ perm_0755); [done| |done|done].
    unfold t1. look. apply Hempty. }
  assert (well_formed t3) as Hwf3.
  { apply (wf_insert_new t2 _ ku _ perm_0755); [done| |done|done].
    unfold t2, t1. look. apply Hempty. }
  assert (well_formed t4) as Hwf4.
  { apply (wf_insert_new t3 _ ku _ perm_0755); [done| |done|done].
    unfold t3, t2, t1. look. apply Hempty. }
  pose proof (ReadAll_fs db "users" w4) as [Hc5 Hf5].
  assert (find (cwd w4) (files w4) (Join [dir db; "users"]) = inr (ku, Dir perm_0755))
    as Hfind4 by (apply Hfind; by rewrite ?Hf4).
  assert ((ReadAll db "users" w4).1 = ([doc alice; doc bob; doc jane; doc john], None))
    as Hread.
  { rewrite (ReadAll_listing db "users" w4 ku perm_0755);
      [|done|by rewrite Hf4|done|done|done|].
    2:{ intros x n. rewrite Hf4. unfold t4, t3, t2, t1. rewrite !lookup_insert_Some.
        intros [[_ <-]|[_ [[_ <-]|[_ [[_ <-]|[_ [[_ <-]|[_ Hx]]]]]]]];
          try (by eexists _, _).
        by rewrite Hempty in Hx. }
    destruct (readdir_of_dir w4 _ ku perm_0755 Hfind4) as (_ & Hperm & Hsorted); [done..|].
    rewrite Hf4 in Hperm. unfold t4 in Hperm.
    rewrite children_insert in Hperm by (unfold t3, t2, t1; look; apply Hempty).
    unfold t3 in Hperm.
    rewrite children_insert in Hperm by (unfold t2, t1; look; apply Hempty).
    unfold t2 in Hperm.
    rewrite children_insert in Hperm by (unfold t1; look; apply Hempty).
    unfold t1 in Hperm.
    rewrite children_insert in Hperm by apply Hempty.
    rewrite (proj2 (children_nil t0 ku)) in Hperm by done.
    cbn [fmap list_fmap] in Hperm.
    rewrite (sorted_by_name_unique _
               [info ("Alice Johnson.json" :: ku) fa; info ("Bob Brown.json" :: ku) fb;
                info ("Jane Smith.json" :: ku) fja; info ("John Doe.json" :: ku) fj]).
    - cbn [fmap list_fmap Name info base_name]. rewrite Hf4. unfold t4, t3, t2, t1.
      look. done.
    - apply (bool_decide_unpack _). vm_compute. exact I.
    - done.
    - repeat first [apply Sorted_cons | apply Sorted_nil | apply HdRel_cons | apply HdRel_nil];
        (apply (bool_decide_unpack _); vm_compute; exact I).
    - rewrite Hperm. apply perm_swap. }
  destruct (ReadAll db "users" w4) as [[records err] w5]. simpl in Hc5, Hf5, Hread.
  injection Hread as -> ->. rewrite Hc4 in Hc5. rewrite Hf4 in Hf5.
  cbn [Program.decode_each]. unfold doc.
  rewrite !String.list_byte_of_string_of_list_byte, Hua, Hub, Huja, Huj.
  cbn [Program.report Program.Println app].
  (* Delete of one document, then of the collection *)
  destruct (Delete_document db "users" "Alice Johnson" w5 ku perm_0755 perm_0644
              (enc alice ++ [Byte.x0a])) as (Hr6 & Hc6 & Hf6).
  { done. } { done. } { done. } { apply Hfind; by rewrite ?Hf5. }
  { done. } { done. }
  { rewrite Hf5. unfold t4, t3, t2, t1. look. apply Hempty. }
  { rewrite Hf5. unfold t4, t3. look. done. }
  rewrite Hc5 in Hc6. rewrite Hf5 in Hf6. change (files (Delete db "users" "Alice Johnson" w5).2 = t5) in Hf6.
  destruct (Delete db "users" "Alice Johnson" w5) as [r6 w6]. simpl in Hr6, Hc6, Hf6.
  subst r6.
  destruct (Delete_flat db "users" w6 "users" (cwd w) perm_0755)
    as (Hr7 & _ & Hgone & Hrest).
  { done. } { done. } { by rewrite Hjoin. } { apply Hfind; by rewrite ?Hf6. }
  { done. } { done. } { done. } { by rewrite Hf6. }
  { intros k n Hsuf Hk. rewrite Hf6. unfold t5, t4, t3, t2, t1, t0.
    rewrite lookup_delete_Some, !lookup_insert_Some.
    intros [_ [[<- <-]|[_ [[<- <-]|[_ [[<- <-]|[_ [[<- <-]|[_ [[Heq _]|[_ Hx]]]]]]]]]]].
    1-4: by eexists _, _, _.
    - by destruct Hk.
    - by rewrite Hnone in Hx. }
  destruct (Delete db "users" "" w6) as [r7 w7]. simpl in Hr7, Hgone, Hrest. subst r7.
  cbn [Program.report fst snd]. split; [done|].
  apply map_eq. intros k. fold ku in Hgone, Hrest.
  destruct (decide (ku `suffix_of` k)) as [Hsuf|Hsuf].
  - by rewrite Hgone, Hnone.
  - rewrite Hrest, Hf6 by done.
    assert (∀ x, x :: ku ≠ k) as Hk1 by (intros x <-; apply Hsuf; by exists [x]).
    assert (ku ≠ k) as Hk0 by (by intros <-).
    unfold t5, t4, t3, t2, t1, t0.
    rewrite lookup_delete_ne, !lookup_insert_ne by done. done.
Qed.

End MainProgram.

(* ===================================================================== *)
(** * The further properties on sample worlds                             *)
(* ===================================================================== *)

Lemma sample_registry_ok (w : World) :
  heap w = {[ 2%N := ∅ ]} → next w = 3%N → registry_ok d0 w.
Proof.
  intros Hh Hn. unfold registry_ok, registry. rewrite Hh, Hn. simpl.
  rewrite lookup_singleton_eq. simpl. split_and!; [done|..].
  - intros c m Hm. by rewrite lookup_empty in Hm.
  - intros c1 c2 m Hm. by rewrite lookup_empty in Hm.
Qed.

Lemma only_dirs (w : World) :
  bool_decide (map_Forall (λ _ n, is_dir (Some n) = true) (files w)) = true →
  ∀ k p data, files w !! k ≠ Some (File p data).
Proof.
  intros Hall%bool_decide_eq_true k p data Hk. by apply Hall in Hk.
Qed.

(** Two callers, for users and for posts, with their steps interleaved. *)
Lemma registry_distinct_names_distinct_mutexes_witness :
  threads (run [0; 1; 0; 0; 0; 0; 1; 1; 1; 1; 1] (init ∅ 3 ["users"; "posts"]))
    = [("users", Done 3%N); ("posts", Done 4%N)] ∧
  (3 ≠ 4)%N.
Proof.
  assert (H0 : threads (run [0; 1; 0; 0; 0; 0; 1; 1; 1; 1; 1] (init ∅ 3 ["users"; "posts"]))
               = [("users", Done 3%N); ("posts", Done 4%N)]) by (vm_compute; reflexivity).
  split; [exact H0|].
  apply (registry_distinct_names_distinct_mutexes ∅ 3 ["users"; "posts"]
           [0; 1; 0; 0; 0; 0; 1; 1; 1; 1; 1]) with (i := 0) (j := 1)
           (c1 := "users") (c2 := "posts").
  - intros c m Hm. by rewrite lookup_empty in Hm.
  - intros c1 c2 m Hm. by rewrite lookup_empty in Hm.
  - rewrite H0. reflexivity.
  - rewrite H0. reflexivity.
  - discriminate.
Defined.

(** The mutexes of users and of posts on the empty store. *)
Lemma distinct_collections_distinct_mutexes_witness :
  registry_ok d0 w_empty ∧ "users" ≠ "posts" ∧
  (getOrCreateMutex d0 "posts" (getOrCreateMutex d0 "users" w_empty).2).1
    ≠ (getOrCreateMutex d0 "users" w_empty).1.
Proof.
  assert (H1 : registry_ok d0 w_empty) by (by apply sample_registry_ok).
  assert (H2 : "users" ≠ "posts") by discriminate.
  split_and!; [exact H1|exact H2|].
  destruct (distinct_collections_distinct_mutexes (V := bool) d0 w_empty "users" "posts" H1 H2)
    as ((Hok & _) & Hother & _).
  by apply Hother.
Defined.

(** The names users and users/ on the empty store. *)
Lemma trailing_separator_same_files_other_mutex_witness :
  registry_ok d0 w_empty ∧ "users" ≠ "" ∧
  Join [dir d0; "users/"] = Join [dir d0; "users"] ∧
  (getOrCreateMutex d0 "users/" (getOrCreateMutex d0 "users" w_empty).2).1
    ≠ (getOrCreateMutex d0 "users" w_empty).1.
Proof.
  assert (H1 : registry_ok d0 w_empty) by (by apply sample_registry_ok).
  assert (H2 : "users" ≠ "") by discriminate.
  destruct (trailing_separator_same_files_other_mutex (V := bool) d0 "users" w_empty H1 H2)
    as (_ & _ & Hdir & _ & Hm).
  split_and!; [exact H1|exact H2|exact Hdir|exact Hm].
Defined.

(** Delete of users/John: the calls lie between Lock and Unlock of mutex 3. *)
Lemma Write_and_Delete_hold_the_collection_mutex_witness :
  "users" ≠ "" ∧
  ∃ es, trace (Delete d0 "users" "John" w_john).2 =
          [EvLock 1%N; EvUnlock 1%N; EvLock 3%N] ++ es ++ [EvUnlock 3%N] ∧
        Forall (λ e, is_lock_event e = false) es ∧ es ≠ [].
Proof.
  assert (H1 : "users" ≠ "") by discriminate.
  split; [exact H1|].
  exact (proj2 (Write_and_Delete_hold_the_collection_mutex d0 "users" "John" true w_john H1)).
Defined.

(** A second document written into the collection users. *)
Lemma Write_into_existing_collection_witness :
  "users" ≠ "" ∧ proper "Jane" = true ∧
  (Write d0 "users" "Jane" false w_john).1 = None ∧
  files (Write d0 "users" "Jane" false w_john).2 =
    <["Jane.json" :: users := File perm_0644 (bytes ("false" +:+ nl))]> (files w_john).
Proof.
  assert (H1 : "users" ≠ "") by discriminate.
  assert (H2 : proper "Jane" = true) by reflexivity.
  destruct (Write_into_existing_collection d0 "users" "Jane" false w_john
              (bytes "false") users perm_0755 H1 H2) as [Hres Hfiles];
    try (vm_compute; reflexivity).
  split_and!; [exact H1|exact H2|exact Hres|exact Hfiles].
Defined.

(** The first document of the collection users. *)
Lemma first_Write_creates_the_collection_witness :
  proper "users" = true ∧ proper "John" = true ∧ well_formed (files w_empty) ∧
  (Write d0 "users" "John" true w_empty).1 = None ∧
  files (Write d0 "users" "John" true w_empty).2 =
    <["John.json" :: users := File perm_0644 (bytes ("true" +:+ nl))]>
      (<[users := Dir perm_0755]> (files w_empty)).
Proof.
  assert (H1 : proper "users" = true) by reflexivity.
  assert (H2 : proper "John" = true) by reflexivity.
  assert (H3 : well_formed (files w_empty)) by (apply wf_sample; vm_compute; reflexivity).
  destruct (first_Write_creates_the_collection d0 "users" "John" true w_empty
              (bytes "true") data perm_0755 H1 H2) as [Hres Hfiles];
    try (vm_compute; reflexivity); [exact H3|].
  split_and!; [exact H1|exact H2|exact H3|exact Hres|exact Hfiles].
Defined.

(** John and Jane written one after the other, then both read. *)
Lemma two_Writes_are_both_read_witness :
  "users" ≠ "" ∧ proper "John" = true ∧ proper "Jane" = true ∧ "John" ≠ "Jane" ∧
  (Write d0 "users" "John" true w_empty).1 = None ∧
  (Write d0 "users" "Jane" false (Write d0 "users" "John" true w_empty).2).1 = None ∧
  let w2 := (Write d0 "users" "Jane" false (Write d0 "users" "John" true w_empty).2).2 in
  (Read d0 "users" "John" false w2).1 = (true, None) ∧
  (Read d0 "users" "Jane" true w2).1 = (false, None).
Proof.
  assert (H1 : "users" ≠ "") by discriminate.
  assert (H2 : proper "John" = true) by reflexivity.
  assert (H3 : proper "Jane" = true) by reflexivity.
  assert (H4 : "John" ≠ "Jane") by discriminate.
  set (w1 := (Write d0 "users" "John" true w_empty).2).
  set (w2 := (Write d0 "users" "Jane" false w1).2).
  assert (H5 : Write d0 "users" "John" true w_empty = (None, w1))
    by (vm_compute; reflexivity).
  assert (H6 : Write d0 "users" "Jane" false w1 = (None, w2))
    by (vm_compute; reflexivity).
  assert (H7 : ∀ r p data,
             files w_empty !! ((r +:+ ".json.tmp") :: locate (cwd w_empty) (Join [dir d0; "users"]))
               = Some (File p data) → may_read p = true).
  { intros r p data Hf. exfalso. revert Hf. apply only_dirs. vm_compute. reflexivity. }
  split_and!; [exact H1|exact H2|exact H3|exact H4|vm_compute; reflexivity
              |vm_compute; reflexivity|].
  split.
  - refine (proj1 (two_Writes_are_both_read d0 "users" "John" "Jane" true false false
                     w_empty w1 w2 H1 H2 H3 H4 H7 _ _ H5 H6)).
    + intros b Hb. vm_compute in Hb. injection Hb as <-. vm_compute. reflexivity.
    + intros b Hb. vm_compute in Hb. injection Hb as <-. vm_compute. reflexivity.
  - vm_compute. reflexivity.
Defined.

(** A channel written as users/John: no document, but the directory. *)
Lemma Write_that_cannot_encode_leaves_the_directory_witness :
  proper "users" = true ∧ "John" ≠ "" ∧
  (Write d0 "users" "John" Chan w_empty).1
    = Some (JSONError "json: unsupported type: chan int") ∧
  files (Write d0 "users" "John" Chan w_empty).2
    = <[users := Dir perm_0755]> (files w_empty).
Proof.
  assert (H1 : proper "users" = true) by reflexivity.
  assert (H2 : "John" ≠ "") by discriminate.
  destruct (Write_that_cannot_encode_leaves_the_directory d0 "users" "John" Chan w_empty
              (JSONError "json: unsupported type: chan int") data perm_0755 H1 H2)
    as [Hres Hfiles]; try (vm_compute; reflexivity).
  split_and!; [exact H1|exact H2|exact Hres|exact Hfiles].
Defined.

(** A Write of users/John where users/John.json is a directory. *)
Lemma Write_onto_a_directory_leaves_the_temporary_file_witness :
  "users" ≠ "" ∧ proper "John" = true ∧
  (Write d0 "users" "John" true w_dirdoc).1
    = Some (LinkError "rename" "data/users/John.json.tmp" "data/users/John.json" EEXIST) ∧
  files (Write d0 "users" "John" true w_dirdoc).2
    = <["John.json.tmp" :: users := File perm_0644 (bytes ("true" +:+ nl))]>
        (files w_dirdoc).
Proof.
  assert (H1 : "users" ≠ "") by discriminate.
  assert (H2 : proper "John" = true) by reflexivity.
  destruct (Write_onto_a_directory_leaves_the_temporary_file d0 "users" "John" true
              w_dirdoc (bytes "true") users perm_0755 perm_0755 H1 H2)
    as [Hres Hfiles]; try (vm_compute; reflexivity).
  split_and!; [exact H1|exact H2|exact Hres|exact Hfiles].
Defined.

(** Delete of users/John, then Read and Delete again. *)
Lemma Delete_removes_the_document_witness :
  "users" ≠ "" ∧ rooted "users" = false ∧ proper "John" = true ∧
  (Delete d0 "users" "John" w_john).1 = None ∧
  files (Delete d0 "users" "John" w_john).2 = delete ("John.json" :: users) (files w_john) ∧
  (∃ e, (Read d0 "users" "John" false (Delete d0 "users" "John" w_john).2).1
          = (false, Some e) ∧ NotFoundError e = true) ∧
  (Delete d0 "users" "John" (Delete d0 "users" "John" w_john).2).1
    = Some (Errorf "resource '%s' does not exist in collection '%s'" ["John"; "users"]).
Proof.
  assert (H1 : "users" ≠ "") by discriminate.
  assert (H2 : rooted "users" = false) by reflexivity.
  assert (H3 : proper "John" = true) by reflexivity.
  destruct (Delete_removes_the_document d0 "users" "John" false w_john users
              perm_0755 perm_0644 (bytes ("true" +:+ nl)) H1 H2 H3)
    as (Hres & Hfiles & Hread & Hagain); try (vm_compute; reflexivity).
  split_and!; [exact H1|exact H2|exact H3|exact Hres|exact Hfiles|exact Hread|exact Hagain].
Defined.

(** Delete of users/John where the file has no extension. *)
Lemma Delete_never_removes_a_bare_file_witness :
  "users" ≠ "" ∧ rooted "users" = false ∧ proper "John" = true ∧
  files (Delete d0 "users" "John" w_bare).2 !! ("John" :: users)
    = Some (File perm_0644 (bytes ("true" +:+ nl))) ∧
  (Delete d0 "users" "John" w_bare).1
    = Some (PathError "remove" "data/users/John.json" ENOENT).
Proof.
  assert (H1 : "users" ≠ "") by discriminate.
  assert (H2 : rooted "users" = false) by reflexivity.
  assert (H3 : proper "John" = true) by reflexivity.
  destruct (Delete_never_removes_a_bare_file d0 "users" "John" w_bare users
              perm_0755 perm_0644 (bytes ("true" +:+ nl)) H1 H2 H3)
    as (Hkept & Hfail); try (vm_compute; reflexivity).
  split_and!; [exact H1|exact H2|exact H3|exact Hkept|].
  refine (proj1 (Hfail _)). vm_compute. reflexivity.
Defined.

(** ReadAll of users with John.json and Jane.json: Jane first. *)
Lemma ReadAll_returns_every_entry_by_name_witness :
  "users" ≠ "" ∧ well_formed (files w_pair) ∧
  (ReadAll d0 "users" w_pair).1 = (["false" +:+ nl; "true" +:+ nl], None) ∧
  ∃ es, es ≡ₚ children (files w_pair) users ∧ Sorted name_le es ∧
        (ReadAll d0 "users" w_pair).1 = ((λ e, content e.2) <$> es, None).
Proof.
  assert (H1 : "users" ≠ "") by discriminate.
  assert (H2 : well_formed (files w_pair)) by (apply wf_sample; vm_compute; reflexivity).
  split_and!; [exact H1|exact H2|vm_compute; reflexivity|].
  apply (ReadAll_returns_every_entry_by_name d0 "users" w_pair users perm_0755 H1 H2);
    try (vm_compute; reflexivity).
  intros x n Hx. apply children_elem in Hx. vm_compute in Hx.
  apply list_elem_of_In in Hx. simpl in Hx.
  destruct Hx as [Hx|[Hx|[]]]; injection Hx as <- <-; eexists _, _; split; reflexivity.
Defined.

(** New on data/store, which does not exist, then New again. *)
Lemma New_again_finds_the_store_witness :
  (New "data/store" None w_empty).1.2 = None ∧
  files (New "data/store" None w_empty).2 = <["store" :: data := Dir perm_0755]> (files w_empty) ∧
  (New "data/store" None (New "data/store" None w_empty).2).1.2 = None ∧
  files (New "data/store" None (New "data/store" None w_empty).2).2
    = files (New "data/store" None w_empty).2.
Proof.
  assert (H1 : (New "data/store" None w_empty).1.2 = None) by (vm_compute; reflexivity).
  destruct (New_again_finds_the_store "data/store" None None w_empty H1)
    as (Hres & Hfiles & _).
  split_and!; [exact H1|vm_compute; reflexivity|exact Hres|exact Hfiles].
Defined.

(** New on the file data/users.json, then a Write. *)
Lemma New_accepts_a_file_as_root_witness :
  proper "users" = true ∧ "John" ≠ "" ∧
  (New "data/users.json" None w_only_json).1.2 = None ∧
  ∃ e, (Write (New "data/users.json" None w_only_json).1.1 "users" "John" true
          (New "data/users.json" None w_only_json).2).1 = Some e ∧ fs_error e = true.
Proof.
  assert (H1 : proper "users" = true) by reflexivity.
  assert (H2 : "John" ≠ "") by discriminate.
  assert (H3 : find (cwd w_only_json) (files w_only_json) (Clean "data/users.json")
               = inr ("users.json" :: data, File perm_0644 (bytes ("false" +:+ nl))))
    by (vm_compute; reflexivity).
  destruct (New_accepts_a_file_as_root "data/users.json" None w_only_json
              ("users.json" :: data) perm_0644 (bytes ("false" +:+ nl)) "users" "John" true
              H3 H1 H2)
    as (Hnew & _ & Hwrite & _).
  split_and!; [exact H1|exact H2|exact Hnew|exact Hwrite].
Defined.

(** Delete of the whole collection users of two documents. *)
Lemma Delete_removes_a_collection_of_documents_witness :
  proper "users" = true ∧
  (Delete d0 "users" "" w_pair).1 = None ∧
  files (Delete d0 "users" "" w_pair).2 !! ("John.json" :: users) = None ∧
  files (Delete d0 "users" "" w_pair).2 !! users = None ∧
  files (Delete d0 "users" "" w_pair).2 !! data = Some (Dir perm_0755).
Proof.
  assert (H1 : proper "users" = true) by reflexivity.
  destruct (Delete_removes_a_collection_of_documents d0 "users" w_pair data
              perm_0755 perm_0755 H1) as (Hres & Hgone & Hrest);
    try (vm_compute; reflexivity).
  { intros k n Hsuf Hk Hl. unfold w_pair, world_of, tree_of in Hl. cbn [files] in Hl.
    apply elem_of_list_to_map_2, list_elem_of_In in Hl. simpl in Hl.
    destruct Hl as [Hl|[Hl|[Hl|[Hl|[Hl|[Hl|[Hl|[]]]]]]]]; injection Hl as <- <-;
      try (apply suffix_length in Hsuf; simpl in Hsuf; lia).
    - by destruct Hk.
    - by eexists _, _, _.
    - by eexists _, _, _. }
  split_and!; [exact H1|exact Hres| | |].
  - apply Hgone. by exists ["John.json"].
  - apply Hgone. by exists [].
  - rewrite Hrest; [vm_compute; reflexivity|].
    intros Hsuf. apply suffix_length in Hsuf. simpl in Hsuf. lia.
Defined.

(** Write users/John on the empty store, list, delete the document, list,
    delete the collection. *)
Lemma Write_ReadAll_Delete_round_witness :
  proper "users" = true ∧ proper "John" = true ∧ well_formed (files w_empty) ∧
  (Write d0 "users" "John" true w_empty).1 = None ∧
  (ReadAll d0 "users" (Write d0 "users" "John" true w_empty).2).1
    = (["true" +:+ nl], None) ∧
  files (Delete d0 "users" ""
           (Delete d0 "users" "John" (Write d0 "users" "John" true w_empty).2).2).2
    = files w_empty.
Proof.
  assert (H1 : proper "users" = true) by reflexivity.
  assert (H2 : proper "John" = true) by reflexivity.
  assert (H3 : well_formed (files w_empty)) by (apply wf_sample; vm_compute; reflexivity).
  destruct (Write_ReadAll_Delete_round d0 "users" "John" true w_empty (bytes "true")
              data perm_0755 H1 H2) as (Hw & Hr & _ & _ & _ & Hfiles);
    [reflexivity|exact H3|vm_compute; reflexivity..|].
  split_and!; [exact H1|exact H2|exact H3|exact Hw|exact Hr|exact Hfiles].
Defined.

(** The program run in /home/app, with the sample codec of users. *)
Lemma main_lists_by_name_and_cleans_up_witness :
  well_formed (files w_empty) ∧
  files w_empty !! ("users" :: cwd w_empty) = None ∧
  (Program.main w_empty).1 =
    [[Program.OStr "All User Records:";
      Program.ORecords ["Alice Johnson" +:+ nl; "Bob Brown" +:+ nl;
                        "Jane Smith" +:+ nl; "John Doe" +:+ nl]];
     [Program.OStr "All Users Structs:";
      Program.OUsers [nth 2 Program.employee Program.zero;
                      nth 3 Program.employee Program.zero;
                      nth 1 Program.employee Program.zero;
                      nth 0 Program.employee Program.zero]]] ∧
  files (Program.main w_empty).2 = files w_empty.
Proof.
  assert (H1 : well_formed (files w_empty)) by (apply wf_sample; vm_compute; reflexivity).
  assert (H2 : files w_empty !! ("users" :: cwd w_empty) = None) by (vm_compute; reflexivity).
  destruct (main_lists_by_name_and_cleans_up w_empty user_bytes perm_0755
              (nth 0 Program.employee Program.zero) (nth 1 Program.employee Program.zero)
              (nth 2 Program.employee Program.zero) (nth 3 Program.employee Program.zero))
    as [Hout Hfiles].
  - reflexivity.
  - intros u Hu. apply list_elem_of_In in Hu. simpl in Hu.
    destruct Hu as [<-|[<-|[<-|[<-|[]]]]]; split; vm_compute; reflexivity.
  - exact H1.
  - vm_compute. reflexivity.
  - vm_compute. reflexivity.
  - reflexivity.
  - reflexivity.
  - exact H2.
  - split_and!; [exact H1|exact H2|exact Hout|exact Hfiles].
Defined.
